(** * File manager of the report downloader: sanitizers, validation,
      directory lifecycle and Excel consolidation

    Shallow embedding of [app/services/file_manager.py] (class
    [FileManager]).  Python [str] values are lists of characters, Python
    [int] values are [Z] (or [nat] where they only count), dictionaries are
    [gmap]s, and the methods that touch the file system, the logger or
    openpyxl workbooks are functions in a small state-and-exception monad
    over an explicit [world]. *)

From Stdlib Require Import Ascii String ZArith Lia.
From stdpp Require Import gmap strings list fin_maps sorting.

Open Scope Z_scope.

(** ** Python strings *)

Abbreviation str := (list ascii).

(** A string literal of the source. *)
Definition lit (s : string) : str := list_ascii_of_string s.

Definition chr (n : nat) : ascii := ascii_of_nat n.

Module Py.

(** [len(s)] *)
Definition len {A} (s : list A) : Z := Z.of_nat (length s).

(** [s.replace(old, new)] for a one-character [old]. *)
Definition replace_char (old : ascii) (new : str) (s : str) : str :=
  s ≫= (λ c, if decide (c = old) then new else [c]).

(** [s.replace('__', '_')]: occurrences are found left to right and do
    not overlap. *)
Fixpoint replace_dunder (s : str) : str :=
  match s with
  | a :: ((b :: rest) as tl) =>
      if decide (a = "_"%char ∧ b = "_"%char)
      then "_"%char :: replace_dunder rest
      else a :: replace_dunder tl
  | _ => s
  end.

(** ['__' in s] *)
Fixpoint has_dunder (s : str) : bool :=
  match s with
  | a :: ((b :: _) as tl) =>
      bool_decide (a = "_"%char ∧ b = "_"%char) || has_dunder tl
  | _ => false
  end.

(** [s[:n]] with Python's treatment of a negative bound. *)
Definition slice_to (s : str) (n : Z) : str :=
  if decide (n < 0) then take (Z.to_nat (len s + n)) s
  else take (Z.to_nat n) s.

(** [s.endswith(suffix)] *)
Definition endswith (s suffix : str) : bool :=
  bool_decide (drop (length s - length suffix) s = suffix).

(** [s.lower()] on the ASCII letters. *)
Definition lower_char (c : ascii) : ascii :=
  let n := nat_of_ascii c in
  if decide (65 ≤ n ∧ n ≤ 90)%nat then ascii_of_nat (n + 32) else c.

Definition lower (s : str) : str := lower_char <$> s.

(** [for char in chars: result = result.replace(char, new)] *)
Definition replace_each (chars : str) (new : str) (s : str) : str :=
  foldl (λ result char, replace_char char new result) s chars.

(** [str(n)] for an [int]: decimal digits, most significant first.  The
    quotient shrinks at every round, so [n] rounds are more than enough
    for one more digit each. *)
Definition digit_char (d : Z) : ascii := ascii_of_nat (48 + Z.to_nat d).

Fixpoint digits_fuel (fuel : nat) (n : Z) : str :=
  match fuel with
  | O => []
  | S fuel' =>
      if decide (n < 10) then [digit_char n]
      else digits_fuel fuel' (n / 10) ++ [digit_char (n mod 10)]
  end.

Definition str_of_int (n : Z) : str :=
  if decide (n < 0) then "-"%char :: digits_fuel (S (Z.to_nat (- n))) (- n)
  else digits_fuel (S (Z.to_nat n)) n.

(** [sys.maxsize]: no Python list is longer. *)
Definition sys_maxsize : Z := 2 ^ 63 - 1.

(** [os.path.join(a, b)], [os.path.basename(p)] and
    [os.path.splitext(p)[0]] of [posixpath]. *)
Definition path_join (a b : str) : str :=
  match b with
  | "/"%char :: _ => b
  | _ => if decide (a = [] ∨ endswith a (lit "/") = true) then a ++ b
         else a ++ lit "/" ++ b
  end.

Fixpoint basename (p : str) : str :=
  match p with
  | [] => []
  | c :: p' =>
      if decide ("/"%char ∈ p') then basename p'
      else if decide (c = "/"%char) then p' else p
  end.

(** Index of the last dot of [p] that follows a character other than a
    dot, counted from the start of [p]; [None] when there is none (the
    leading dots of a name are not an extension separator). *)
Fixpoint ext_dot (seen_non_dot : bool) (p : str) : option nat :=
  match p with
  | [] => None
  | c :: p' =>
      match ext_dot (seen_non_dot || bool_decide (c ≠ "."%char)) p' with
      | Some i => Some (S i)
      | None =>
          if decide (c = "."%char ∧ seen_non_dot = true) then Some O
          else None
      end
  end.

Definition splitext_root (p : str) : str :=
  match ext_dot false p with
  | Some i => take i p
  | None => p
  end.

End Py.

(** ** The two sanitizers *)

(** [invalid_chars] of [_sanitize_filename]: less-than, greater-than,
    colon, double quote (code 34), slash, backslash, bar, question mark
    and star. *)
Definition filename_invalid_chars : str :=
  lit "<>:" ++ [chr 34] ++ lit "/\|?*".

(** The [while '__' in result] loop of [_sanitize_filename]; each round
    shortens [result], so [length result] rounds are enough. *)
Fixpoint collapse_loop (fuel : nat) (result : str) : str :=
  match fuel with
  | O => result
  | S fuel' =>
      if Py.has_dunder result
      then collapse_loop fuel' (Py.replace_dunder result)
      else result
  end.

Definition _sanitize_filename (name : str) : str :=
  let result := name in
  let result := Py.replace_each filename_invalid_chars [] result in
  let result := Py.replace_char " "%char (lit "_") result in
  let result := collapse_loop (length result) result in
  Py.slice_to result 100.

(** [invalid_chars] of [_sanitize_sheet_name]: backslash, slash, star,
    question mark, colon and the two square brackets. *)
Definition sheet_invalid_chars : str := lit "\/*?:[]".

Definition _sanitize_sheet_name (name : str) : str :=
  let result := name in
  let result := Py.replace_each sheet_invalid_chars (lit "_") result in
  Py.slice_to result 31.

(** ** openpyxl workbooks, as far as the file manager uses them *)

Inductive cell_value :=
| VNone
| VStr (s : str)
| VInt (n : Z)
| VBool (b : bool).

(** The style attributes of a cell; each attribute is an opaque payload
    that is only ever copied. *)
Record cell_style := {
  font : nat;
  fill : nat;
  border : nat;
  alignment : nat;
  number_format : str;
  protection : nat
}.

Definition default_style : cell_style :=
  {| font := 0; fill := 0; border := 0; alignment := 0;
     number_format := lit "General"; protection := 0 |}.

Inductive cell :=
| MergedCell
| Cell (value : cell_value) (style : cell_style).

Record cell_range := {
  min_row : nat;
  min_col : nat;
  max_row : nat;
  max_col : nat
}.

Record worksheet := {
  title : str;
  _cells : gmap (nat * nat) cell;
  merged_cells : list cell_range;
  column_dimensions : gmap str Z;
  row_dimensions : gmap nat Z
}.

Record workbook := { worksheets : list worksheet }.

Global Instance cell_value_eq_dec : EqDecision cell_value.
Proof. solve_decision. Defined.
Global Instance cell_style_eq_dec : EqDecision cell_style.
Proof. solve_decision. Defined.
Global Instance cell_eq_dec : EqDecision cell.
Proof. solve_decision. Defined.
Global Instance cell_range_eq_dec : EqDecision cell_range.
Proof. solve_decision. Defined.
Global Instance worksheet_eq_dec : EqDecision worksheet.
Proof. solve_decision. Defined.
Global Instance workbook_eq_dec : EqDecision workbook.
Proof. solve_decision. Defined.

Definition blank_cell : cell := Cell VNone default_style.

Definition new_worksheet (t : str) : worksheet :=
  {| title := t; _cells := ∅; merged_cells := [];
     column_dimensions := ∅; row_dimensions := ∅ |}.

(** [Workbook()]: one empty sheet titled ["Sheet"]. *)
Definition Workbook : workbook :=
  {| worksheets := [new_worksheet (lit "Sheet")] |}.

(** [cell.value]; a [MergedCell] has none. *)
Definition value_of (c : cell) : cell_value :=
  match c with
  | MergedCell => VNone
  | Cell v _ => v
  end.

(** [cell.has_style] *)
Definition has_style (c : cell) : bool :=
  match c with
  | MergedCell => false
  | Cell _ st => bool_decide (st ≠ default_style)
  end.

(** [ws.max_row] and [ws.max_column]: the largest row and column that hold
    a cell, 1 for an empty sheet. *)
Definition ws_max_row (ws : worksheet) : nat :=
  max_list (1%nat :: ((λ kv, kv.1.1) <$> map_to_list (_cells ws))).

Definition ws_max_column (ws : worksheet) : nat :=
  max_list (1%nat :: ((λ kv, kv.1.2) <$> map_to_list (_cells ws))).

(** [ws.cell(row, column)] read for its cell only: a position without a
    cell yields a new blank one. *)
Definition cell_at (ws : worksheet) (row col : nat) : cell :=
  default blank_cell (_cells ws !! (row, col)).

(** The value a reader of the sheet sees at a position. *)
Definition value_at (ws : worksheet) (row col : nat) : cell_value :=
  value_of (cell_at ws row col).

(** [ws.iter_rows()]: no row at all for a sheet that never got a cell
    (its [_current_row] is 0), otherwise the rows 1..max_row, each with
    the cells of the columns 1..max_column. *)
Definition iter_rows (ws : worksheet) : list (list cell) :=
  if decide (_cells ws = ∅) then []
  else (λ row, (λ col, cell_at ws row col) <$> seq 1 (ws_max_column ws))
         <$> seq 1 (ws_max_row ws).

(** [enumerate(xs, start)] *)
Fixpoint enumerate {A} (start : nat) (xs : list A) : list (nat * A) :=
  match xs with
  | [] => []
  | x :: xs' => (start, x) :: enumerate (S start) xs'
  end.

(** The cells of a range in row-major order, as [CellRange.cells]. *)
Definition range_cells (rg : cell_range) : list (nat * nat) :=
  row ← seq (min_row rg) (S (max_row rg) - min_row rg);
  col ← seq (min_col rg) (S (max_col rg) - min_col rg);
  [(row, col)].

(** [a <= b] on ranges: [a] lies within [b]. *)
Definition range_issubset (a b : cell_range) : bool :=
  bool_decide (min_row b ≤ min_row a ∧ max_row a ≤ max_row b ∧
               min_col b ≤ min_col a ∧ max_col a ≤ max_col b)%nat.

(** [ws.merge_cells(str(rg))]: the range is recorded unless a recorded one
    already covers it, and every cell of the range but the first becomes a
    [MergedCell]. *)
Definition merge_cells (ws : worksheet) (rg : cell_range) : worksheet :=
  let ranges :=
    if existsb (range_issubset rg) (merged_cells ws) then merged_cells ws
    else merged_cells ws ++ [rg] in
  let cells :=
    foldl (λ m pos, <[pos := MergedCell]> m) (_cells ws)
          (tail (range_cells rg)) in
  {| title := title ws; _cells := cells; merged_cells := ranges;
     column_dimensions := column_dimensions ws;
     row_dimensions := row_dimensions ws |}.

(** ** Exceptions and results *)

Inductive exn :=
| ValueError (msg : str)
| FileNotFoundError (path : str)
| InvalidFileException (path : str)
| PermissionError (path : str)
| IsADirectoryError (path : str)
| OSError (msg : str)
| OverflowError (msg : str)
| AttributeError (msg : str).

Inductive result (A : Type) :=
| Ok (a : A)
| Raise (e : exn).
Arguments Ok {A} a.
Arguments Raise {A} e.

Definition is_ok {A} (r : result A) : bool :=
  match r with Ok _ => true | Raise _ => false end.

(** ** Copying one sheet *)

(** [target_sheet.cell(row, column)] followed by the assignments of
    [_copy_sheet_data]: the value always, the five style attributes when
    the source cell has a style.  The protection of the target cell is not
    assigned.  A [MergedCell] in the target has a read-only value. *)
Definition write_cell (target : worksheet) (row col : nat) (src : cell)
  : result worksheet :=
  match cell_at target row col, src with
  | MergedCell, _ => Raise (AttributeError (lit "read-only"))
  | _, MergedCell => Ok target
  | Cell _ tst, Cell v sst =>
      let st :=
        if has_style src then
          {| font := font sst; fill := fill sst; border := border sst;
             alignment := alignment sst; number_format := number_format sst;
             protection := protection tst |}
        else tst in
      Ok {| title := title target;
            _cells := <[(row, col) := Cell v st]> (_cells target);
            merged_cells := merged_cells target;
            column_dimensions := column_dimensions target;
            row_dimensions := row_dimensions target |}
  end.

(** [for col_idx, cell in enumerate(row, 1)] *)
Fixpoint copy_row (target : worksheet) (row_idx : nat)
    (row : list (nat * cell)) : result worksheet :=
  match row with
  | [] => Ok target
  | (col_idx, c) :: row' =>
      match c with
      | MergedCell => copy_row target row_idx row'
      | Cell _ _ =>
          match write_cell target row_idx col_idx c with
          | Ok target' => copy_row target' row_idx row'
          | Raise e => Raise e
          end
      end
  end.

(** [for row_idx, row in enumerate(source_sheet.iter_rows(), 1)] *)
Fixpoint copy_rows (target : worksheet) (rows : list (nat * list cell))
  : result worksheet :=
  match rows with
  | [] => Ok target
  | (row_idx, row) :: rows' =>
      match copy_row target row_idx (enumerate 1 row) with
      | Ok target' => copy_rows target' rows'
      | Raise e => Raise e
      end
  end.

Definition set_column_width (target : worksheet) (kv : str * Z) : worksheet :=
  {| title := title target; _cells := _cells target;
     merged_cells := merged_cells target;
     column_dimensions := <[kv.1 := kv.2]> (column_dimensions target);
     row_dimensions := row_dimensions target |}.

Definition set_row_height (target : worksheet) (kv : nat * Z) : worksheet :=
  {| title := title target; _cells := _cells target;
     merged_cells := merged_cells target;
     column_dimensions := column_dimensions target;
     row_dimensions := <[kv.1 := kv.2]> (row_dimensions target) |}.

Definition _copy_sheet_data (source_sheet target_sheet : worksheet)
  : result worksheet :=
  match copy_rows target_sheet (enumerate 1 (iter_rows source_sheet)) with
  | Raise e => Raise e
  | Ok target =>
      let target := foldl merge_cells target (merged_cells source_sheet) in
      let target :=
        foldl set_column_width target
              (map_to_list (column_dimensions source_sheet)) in
      let target :=
        foldl set_row_height target
              (map_to_list (row_dimensions source_sheet)) in
      Ok target
  end.

(** ** Unique sheet names *)

(** [f"{name[:max_base_len]}{suffix}"] for one value of [counter]. *)
Definition suffixed_name (name : str) (counter : Z) : str :=
  let suffix := lit "_" ++ Py.str_of_int counter in
  let max_base_len := 31 - Py.len suffix in
  Py.slice_to name max_base_len ++ suffix.

(** The [while True] loop of [_make_unique_sheet_name], run for at most
    [fuel] rounds; [None] when the rounds are used up. *)
Fixpoint unique_loop (fuel : nat) (existing_names : list str) (name : str)
    (counter : Z) : option str :=
  match fuel with
  | O => None
  | S fuel' =>
      let new_name := suffixed_name name counter in
      if decide (new_name ∉ existing_names) then Some new_name
      else unique_loop fuel' existing_names name (counter + 1)
  end.

Definition sheetnames (wb : workbook) : list str := title <$> worksheets wb.

Definition make_unique_fuel (fuel : nat) (wb : workbook) (name : str)
  : option str :=
  let existing_names := sheetnames wb in
  if decide (name ∉ existing_names) then Some name
  else unique_loop fuel existing_names name 1.

(** The method itself: one round more than there are sheets always finds a
    free name (lemma [make_unique_fuel_enough]). *)
Definition _make_unique_sheet_name (wb : workbook) (name : str) : str :=
  default name (make_unique_fuel (S (length (worksheets wb))) wb name).

(** ** The world: files, clock, logger and I/O events *)

Record fnode := {
  content : list Byte.byte;        (* what [open(path, 'rb')] reads *)
  readable : bool;                 (* [open] succeeds *)
  is_reg : bool;                   (* a regular file, not a directory *)
  can_unlink : bool;               (* [os.remove] succeeds *)
  st_mtime : Z;
  st_ctime : Z;
  book : option workbook           (* what [load_workbook] parses, if any *)
}.

Definition st_size (f : fnode) : Z := Z.of_nat (length (content f)).

Inductive level := Debug | Info | Warning | Error.

Record log_entry := { lvl : level; event : str; subject : str }.

(** The workbooks of a consolidation job: the output workbook and the
    workbook of each source.  [EOpened h] records that the job obtained
    the workbook, from [Workbook()] or from a [load_workbook] that
    returned, and [EClosed h] that it called [close()] on it.  The events
    follow the calls of the code: in its default mode openpyxl has read a
    source completely when [load_workbook] returns and keeps no file open
    for either workbook. *)
Inductive handle :=
| HOutput
| HSource (file_idx : nat).

Inductive io_event :=
| EExists (path : str)
| EStat (path : str)
| EListdir (path : str)
| ERead (path : str)
| ERemove (path : str)
| EMove (src dst : str)
| ELoad (path : str)
| ESave (path : str)
| EOpened (h : handle)
| EClosed (h : handle).

Global Instance byte_eq_dec : EqDecision Byte.byte := Byte.byte_eq_dec.
Global Instance level_eq_dec : EqDecision level.
Proof. solve_decision. Defined.
Global Instance handle_eq_dec : EqDecision handle.
Proof. solve_decision. Defined.
Global Instance io_event_eq_dec : EqDecision io_event.
Proof. solve_decision. Defined.

(** The files by their paths, each file under the one path by which the
    program names it. *)
Record world := {
  fs : gmap str fnode;
  now : Z;                         (* [datetime.now()], in seconds *)
  log : list log_entry;            (* oldest first *)
  trace : list io_event            (* oldest first *)
}.

(** A computation that may raise, over the world. *)
Definition M (A : Type) : Type := world → result A * world.

Definition ret {A} (a : A) : M A := λ w, (Ok a, w).
Definition raise {A} (e : exn) : M A := λ w, (Raise e, w).
Definition bind {A B} (m : M A) (k : A → M B) : M B :=
  λ w, match m w with
       | (Ok a, w') => k a w'
       | (Raise e, w') => (Raise e, w')
       end.

(** [try: m except Exception as e: h e] *)
Definition try_except {A} (m : M A) (h : exn → M A) : M A :=
  λ w, match m w with
       | (Ok a, w') => (Ok a, w')
       | (Raise e, w') => h e w'
       end.

Notation "'let*' x := m 'in' k" := (bind m (λ x, k))
  (at level 10, x pattern, m at level 100, k at level 200, only parsing).
Notation "m ;; k" := (bind m (λ _, k))
  (at level 100, k at level 200, right associativity, only parsing).

Definition emit (e : io_event) : M unit :=
  λ w, (Ok (), {| fs := fs w; now := now w; log := log w;
                   trace := trace w ++ [e] |}).

Definition logger (l : level) (ev subj : str) : M unit :=
  λ w, (Ok (), {| fs := fs w; now := now w;
                   log := log w ++ [{| lvl := l; event := ev; subject := subj |}];
                   trace := trace w |}).

Definition set_fs (f : gmap str fnode → gmap str fnode) : M unit :=
  λ w, (Ok (), {| fs := f (fs w); now := now w; log := log w;
                   trace := trace w |}).

Definition get_fs : M (gmap str fnode) := λ w, (Ok (fs w), w).
Definition get_now : M Z := λ w, (Ok (now w), w).

(** *** The [os] and [shutil] calls *)

Definition os_path_exists (path : str) : M bool :=
  emit (EExists path) ;;
  let* files := get_fs in
  ret (bool_decide (is_Some (files !! path))).

Definition os_path_isfile (path : str) : M bool :=
  emit (EStat path) ;;
  let* files := get_fs in
  ret (match files !! path with Some f => is_reg f | None => false end).

Definition os_stat (path : str) : M fnode :=
  emit (EStat path) ;;
  let* files := get_fs in
  match files !! path with
  | Some f => ret f
  | None => raise (FileNotFoundError path)
  end.

(** [os.remove(path)]: a directory is refused with [IsADirectoryError],
    a file that may not be unlinked with [PermissionError]. *)
Definition os_remove (path : str) : M unit :=
  emit (ERemove path) ;;
  let* files := get_fs in
  match files !! path with
  | Some f =>
      if is_reg f then
        if can_unlink f then set_fs (delete path)
        else raise (PermissionError path)
      else raise (IsADirectoryError path)
  | None => raise (FileNotFoundError path)
  end.

(** [shutil.move(src, dst)] for a destination at which a file can be
    created (its directory exists and can be written) and which is free
    or a file; a missing source is refused.  A call that returns has
    renamed the file. *)
Definition shutil_move (src dst : str) : M unit :=
  emit (EMove src dst) ;;
  let* files := get_fs in
  match files !! src with
  | Some f => set_fs (λ m, <[dst := f]> (delete src m))
  | None => raise (FileNotFoundError src)
  end.

(** The name of [path] inside directory [d], when [path] is an entry of
    [d]. *)
Definition entry_name (d path : str) : option str :=
  let name := Py.basename path in
  if decide (name ≠ [] ∧ Py.path_join d name = path) then Some name
  else None.

Definition os_listdir (d : str) : M (list str) :=
  emit (EListdir d) ;;
  let* files := get_fs in
  ret (omap (λ kv, entry_name d kv.1) (map_to_list files)).

(** [open(path, 'rb')] and [f.read(n)] *)
Definition read_bytes (path : str) (n : nat) : M (list Byte.byte) :=
  emit (ERead path) ;;
  let* files := get_fs in
  match files !! path with
  | Some f =>
      if readable f && is_reg f then ret (take n (content f))
      else raise (PermissionError path)
  | None => raise (FileNotFoundError path)
  end.

(** *** Timestamps and [datetime]

    Times are whole seconds since the epoch, and the local time zone is
    UTC.  [datetime_first] and [datetime_max] are the first second of
    year 1 and the last second of year 9999, the bounds of [datetime]
    arithmetic.  [datetime.fromtimestamp] accepts less: it also converts
    the second that lies one day earlier (its probe for a repeated local
    hour), so the whole first day of year 1 is refused; [datetime_min] is
    the first timestamp that it accepts, the start of the second day of
    year 1.  [localtime_min] and [localtime_max] bound what the C library's
    [localtime] can express (a year that fits an [int]), [time_t_min] and
    [time_t_max] what a 64-bit [time_t] holds. *)
Definition datetime_first : Z := -62135596800.
Definition datetime_min : Z := -62135510400.
Definition datetime_max : Z := 253402300799.
Definition localtime_min : Z := -67768040609740800.
Definition localtime_max : Z := 67767976233532799.
Definition time_t_min : Z := - 2 ^ 63.
Definition time_t_max : Z := 2 ^ 63 - 1.

(** [datetime.fromtimestamp(t)]: [OverflowError] for a value that is no
    [time_t], [OSError] when [localtime] fails, [ValueError] for a year
    that is not one of 1 to 9999 (the year of [t], or year 0 for the
    probe of the first day of year 1). *)
Definition fromtimestamp (t : Z) : M Z :=
  if decide (time_t_min ≤ t ≤ time_t_max) then
    if decide (localtime_min ≤ t ≤ localtime_max) then
      if decide (datetime_min ≤ t ≤ datetime_max) then ret t
      else raise (ValueError (lit "year is out of range"))
    else raise (OSError (lit "Value too large for defined data type"))
  else raise (OverflowError (lit "timestamp out of range for platform time_t")).

(** *** The openpyxl calls that touch the world *)

(** [load_workbook(path)] for the source number [file_idx]. *)
Definition load_workbook (file_idx : nat) (path : str) : M workbook :=
  emit (ELoad path) ;;
  let* files := get_fs in
  match files !! path with
  | Some f =>
      match book f with
      | Some wb => emit (EOpened (HSource file_idx)) ;; ret wb
      | None => raise (InvalidFileException path)
      end
  | None => raise (FileNotFoundError path)
  end.

Definition lift {A} (r : result A) : M A :=
  match r with
  | Ok a => ret a
  | Raise e => raise e
  end.

Definition new_workbook : M workbook :=
  emit (EOpened HOutput) ;; ret Workbook.

Definition wb_close (h : handle) : M unit := emit (EClosed h).

(** *** Sheet titles, as [openpyxl.workbook.child] keeps them

    A title given to a sheet goes through the [title] setter of
    [_WorkbookChild]: an empty title and a title with a character of
    [INVALID_TITLE_REGEX] are refused, and a title that equals the title
    of a sheet of the workbook, ignoring case, is changed by
    [avoid_duplicate_name].  That function searches the comma-joined
    titles of the workbook for the title followed by a run of digits and
    an optional comma, without regard to case, and appends to the title
    the successor of the largest number that follows an occurrence.  A title of more than 31
    characters only draws a warning.  Case is that of the ASCII letters. *)

(** The characters of [INVALID_TITLE_REGEX]: backslash, star, question
    mark, colon, slash and the two square brackets. *)
Definition invalid_title_chars : str := lit "\*?:/[]".

Definition is_digit (c : ascii) : bool :=
  bool_decide (48 ≤ nat_of_ascii c ≤ 57)%nat.

(** [int(idx)] for a string of decimal digits. *)
Definition int_of_digits (idx : str) : Z :=
  foldl (λ n c, 10 * n + (Z.of_nat (nat_of_ascii c) - 48)) 0 idx.

(** [",".join(names)] *)
Fixpoint join_comma (names : list str) : str :=
  match names with
  | [] => []
  | n :: rest =>
      match rest with
      | [] => n
      | _ :: _ => n ++ ","%char :: join_comma rest
      end
  end.

(** What follows [value] at the start of [s], when [s] starts with
    [value] ignoring case. *)
Fixpoint strip_prefix_nocase (value s : str) : option str :=
  match value with
  | [] => Some s
  | v :: value' =>
      match s with
      | [] => None
      | c :: s' =>
          if decide (Py.lower_char v = Py.lower_char c)
          then strip_prefix_nocase value' s'
          else None
      end
  end.

(** The digits at the start of [s]. *)
Fixpoint leading_digits (s : str) : str :=
  match s with
  | [] => []
  | c :: s' => if is_digit c then c :: leading_digits s' else []
  end.

(** A match of the pattern at the start of [s]: its group [count] and the
    number of characters that it covers. *)
Definition match_title (value s : str) : option (str * nat) :=
  match strip_prefix_nocase value s with
  | None => None
  | Some rest =>
      let count := leading_digits rest in
      let comma :=
        match drop (length count) rest with
        | ","%char :: _ => 1%nat
        | _ => 0%nat
        end in
      Some (count, (length value + length count + comma)%nat)
  end.

(** [sheet_title_regex.findall(names)], for its [count] groups: the
    matches from left to right, each starting where the one before it
    ended; [skip] counts the characters that still belong to the last
    match. *)
Fixpoint findall_counts (value : str) (skip : nat) (s : str) : list str :=
  match s with
  | [] => []
  | _ :: s' =>
      match skip with
      | S skip' => findall_counts value skip' s'
      | O =>
          match match_title value s with
          | Some (count, covered) =>
              count :: findall_counts value (covered - 1) s'
          | None => findall_counts value 0 s'
          end
      end
  end.

(** [avoid_duplicate_name(names, value)] for a title [value] that is not
    empty. *)
Definition avoid_duplicate_name (names : list str) (value : str) : str :=
  let matching := filter (λ n, Py.lower n = Py.lower value) names in
  if decide (matching = []) then value else
  let matches := findall_counts value 0 (join_comma names) in
  if decide (matches = []) then value else
  let counts := int_of_digits <$> filter (λ idx, idx ≠ []) matches in
  let highest := foldr Z.max 0 counts in
  value ++ Py.str_of_int (highest + 1).

(** The [title] setter for a new sheet of a workbook whose sheets have
    the titles [names]. *)
Definition set_title (names : list str) (value : str) : result str :=
  match value with
  | [] => Raise (ValueError (lit "Title must have at least one character"))
  | _ :: _ =>
      if decide (Exists (λ c, c ∈ invalid_title_chars) value) then
        Raise (ValueError (lit "Invalid character found in sheet title"))
      else Ok (avoid_duplicate_name names value)
  end.

(** [wb.create_sheet(title=t)]: a new empty sheet at the end, which is
    returned; its title is [title or "Sheet"], as the setter leaves it. *)
Definition create_sheet (wb : workbook) (t : str)
  : result (workbook * worksheet) :=
  match set_title (sheetnames wb) (if decide (t = []) then lit "Sheet" else t)
  with
  | Ok t' =>
      let ws := new_worksheet t' in
      Ok ({| worksheets := worksheets wb ++ [ws] |}, ws)
  | Raise e => Raise e
  end.

(** The sheet object at position [i] is replaced by its updated state. *)
Definition set_sheet (wb : workbook) (i : nat) (ws : worksheet) : workbook :=
  {| worksheets := <[i := ws]> (worksheets wb) |}.

(** [wb.remove(sheet)] for the sheet object at position [i]. *)
Definition remove_sheet (wb : workbook) (i : nat) : workbook :=
  {| worksheets := delete i (worksheets wb) |}.


(** ** The file manager *)

Record FileManager := { download_dir : str; screenshot_dir : str }.

Record file_info := {
  fi_path : str;
  fi_filename : str;
  fi_size : Z;
  fi_created_at : Z;
  fi_modified_at : Z
}.

(** [sorted(files, key=..., reverse=True)]: descending and stable. *)
Fixpoint insert_desc (x : file_info) (l : list file_info) : list file_info :=
  match l with
  | [] => [x]
  | y :: l' =>
      if decide (fi_modified_at x < fi_modified_at y) then y :: insert_desc x l'
      else x :: l
  end.

Definition sorted_desc (l : list file_info) : list file_info :=
  foldr insert_desc [] l.

(** The candidate sheet name, lines 272 to 280. *)
Definition candidate_name (sheet_names : option (list str)) (file_idx : nat)
    (file_path : str) (source_wb : workbook) (source_sheet : worksheet) : str :=
  match sheet_names ≫= (λ names, names !! file_idx) with
  | Some prefix =>
      if decide (1 < length (worksheets source_wb))%nat
      then prefix ++ lit "_" ++ title source_sheet
      else prefix
  | None =>
      let base_name := Py.splitext_root (Py.basename file_path) in
      let short_base :=
        if decide (15 < Py.len base_name) then Py.slice_to base_name 15
        else base_name in
      short_base ++ lit "_" ++ title source_sheet
  end.

Section Methods.

Variable self : FileManager.
(** The bytes that [Workbook.save] writes for a workbook. *)
Variable serialize : workbook → list Byte.byte.

Definition get_file_info (filepath : str) : M file_info :=
  let* found := os_path_exists filepath in
  if negb found then raise (FileNotFoundError filepath) else
  let* stat := os_stat filepath in
  let* created := fromtimestamp (st_ctime stat) in
  let* modified := fromtimestamp (st_mtime stat) in
  ret {| fi_path := filepath; fi_filename := Py.basename filepath;
         fi_size := st_size stat; fi_created_at := created;
         fi_modified_at := modified |}.

Fixpoint list_loop (filenames : list str) (files : list file_info)
  : M (list file_info) :=
  match filenames with
  | [] => ret files
  | filename :: rest =>
      let filepath := Py.path_join (download_dir self) filename in
      let* isfile := os_path_isfile filepath in
      let* files :=
        if isfile then
          try_except
            (let* info := get_file_info filepath in ret (files ++ [info]))
            (λ e, logger Warning (lit "Error getting file info") filename ;;
                  ret files)
        else ret files in
      list_loop rest files
  end.

Definition list_downloads : M (list file_info) :=
  let* filenames := os_listdir (download_dir self) in
  let* files := list_loop filenames [] in
  ret (sorted_desc files).

Fixpoint cleanup_loop (cutoff : Z) (filenames : list str) (deleted : Z)
  : M Z :=
  match filenames with
  | [] => ret deleted
  | filename :: rest =>
      let filepath := Py.path_join (download_dir self) filename in
      let* isfile := os_path_isfile filepath in
      let* deleted :=
        if isfile then
          let* stat := os_stat filepath in
          let* mtime := fromtimestamp (st_mtime stat) in
          if decide (mtime < cutoff) then
            os_remove filepath ;;
            logger Info (lit "Deleted old file") filename ;;
            ret (deleted + 1)
          else ret deleted
        else ret deleted in
      cleanup_loop cutoff rest deleted
  end.

(** [timedelta(days=n)] takes at most 999999999 days either way, and
    [datetime.now() - timedelta(...)] must be a [datetime] again; both
    raise [OverflowError] otherwise. *)
Definition cleanup_old_files (max_age_days : Z) : M Z :=
  let* t := get_now in
  if decide (¬ (-999999999 ≤ max_age_days ≤ 999999999)) then
    raise (OverflowError (lit "days must have magnitude <= 999999999"))
  else
  let cutoff := t - max_age_days * 86400 in
  if decide (¬ (datetime_first ≤ cutoff ≤ datetime_max)) then
    raise (OverflowError (lit "date value out of range"))
  else
  let* filenames := os_listdir (download_dir self) in
  cleanup_loop cutoff filenames 0.

Definition rename_download (original_path new_filename : str) : M str :=
  let* found := os_path_exists original_path in
  if negb found then raise (FileNotFoundError original_path) else
  let new_path := Py.path_join (download_dir self) new_filename in
  let* taken := os_path_exists new_path in
  (if taken then
     logger Warning (lit "File already exists, will overwrite") new_path ;;
     os_remove new_path
   else ret ()) ;;
  shutil_move original_path new_path ;;
  logger Info (lit "File renamed") original_path ;;
  ret new_path.

Definition xlsx_magic : list Byte.byte := [Byte.x50; Byte.x4b].

Definition validate_excel_file (filepath : str) : M bool :=
  let* found := os_path_exists filepath in
  if negb found then ret false else
  let* stat := os_stat filepath in
  let size := st_size stat in
  if decide (size < 1000) then
    logger Warning (lit "File too small to be valid Excel") filepath ;;
    ret false
  else
  if negb (Py.endswith (Py.lower filepath) (lit ".xlsx")
           || Py.endswith (Py.lower filepath) (lit ".xls")) then
    logger Warning (lit "File does not have Excel extension") filepath ;;
    ret false
  else
  try_except
    (let* header := read_bytes filepath 4 in
     if decide (take 2 header ≠ xlsx_magic) then
       logger Warning (lit "File does not have valid Excel header") filepath ;;
       ret false
     else ret true)
    (λ e, logger Error (lit "Error reading file") filepath ;; ret false).

(** [output_wb.save(path)] for a path at which a file can be written:
    its directory exists and can be written, and the path is free or a
    file.  The save replaces what is at the path. *)
Definition wb_save (wb : workbook) (path : str) : M unit :=
  emit (ESave path) ;;
  let* t := get_now in
  set_fs (insert path
            {| content := serialize wb; readable := true; is_reg := true;
               can_unlink := true; st_mtime := t; st_ctime := t;
               book := Some wb |}).

(** The body of [for source_sheet in source_wb.worksheets], with the
    loop-carried [output_wb] and [sheet_index]. *)
Definition copy_one_sheet (sheet_names : option (list str)) (file_idx : nat)
    (file_path : str) (source_wb : workbook)
    (acc : workbook * nat) (source_sheet : worksheet) : M (workbook * nat) :=
  let '(output_wb, sheet_index) := acc in
  let new_sheet_name :=
    candidate_name sheet_names file_idx file_path source_wb source_sheet in
  let new_sheet_name := _sanitize_sheet_name new_sheet_name in
  let new_sheet_name := _make_unique_sheet_name output_wb new_sheet_name in
  let new_sheet := length (worksheets output_wb) in
  let* (output_wb, new_ws) := lift (create_sheet output_wb new_sheet_name) in
  let* copied := lift (_copy_sheet_data source_sheet new_ws) in
  let output_wb := set_sheet output_wb new_sheet copied in
  logger Debug (lit "Copied sheet") new_sheet_name ;;
  ret (output_wb, S sheet_index).

Fixpoint sheets_loop (sheet_names : option (list str)) (file_idx : nat)
    (file_path : str) (source_wb : workbook)
    (sheets : list worksheet) (acc : workbook * nat) : M (workbook * nat) :=
  match sheets with
  | [] => ret acc
  | source_sheet :: rest =>
      let* acc := copy_one_sheet sheet_names file_idx file_path source_wb
                                 acc source_sheet in
      sheets_loop sheet_names file_idx file_path source_wb rest acc
  end.

(** [for file_idx, file_path in enumerate(file_paths)] *)
Fixpoint files_loop (sheet_names : option (list str))
    (files : list (nat * str)) (acc : workbook * nat) : M (workbook * nat) :=
  match files with
  | [] => ret acc
  | (file_idx, file_path) :: rest =>
      let* acc :=
        try_except
          (let* source_wb := load_workbook file_idx file_path in
           let* acc := sheets_loop sheet_names file_idx file_path source_wb
                                   (worksheets source_wb) acc in
           wb_close (HSource file_idx) ;;
           ret acc)
          (λ e, logger Error (lit "Error processing file") file_path ;;
                raise e) in
      files_loop sheet_names rest acc
  end.

(** [for path in file_paths: if not os.path.exists(path): raise] *)
Fixpoint check_paths (file_paths : list str) : M unit :=
  match file_paths with
  | [] => ret ()
  | path :: rest =>
      let* found := os_path_exists path in
      if negb found then raise (FileNotFoundError path)
      else check_paths rest
  end.

(** [if sheet_index > 0 and default_sheet.title == "Sheet":
    output_wb.remove(default_sheet)], with the default sheet known by its
    position in the workbook. *)
Definition remove_placeholder (output_wb : workbook) (default_sheet : nat)
    (sheet_index : nat) : workbook :=
  if decide ((0 < sheet_index)%nat ∧
             title <$> worksheets output_wb !! default_sheet
             = Some (lit "Sheet"))
  then remove_sheet output_wb default_sheet
  else output_wb.

Definition consolidate_excel_files (file_paths : list str)
    (output_filename : str) (sheet_names : option (list str)) : M str :=
  if decide (file_paths = []) then
    raise (ValueError (lit "No files provided for consolidation"))
  else
  check_paths file_paths ;;
  logger Info (lit "Consolidating Excel files") output_filename ;;
  let* output_wb := new_workbook in
  let default_sheet := 0%nat in
  let* (output_wb, sheet_index) :=
    files_loop sheet_names (enumerate 0 file_paths) (output_wb, 0%nat) in
  let output_wb := remove_placeholder output_wb default_sheet sheet_index in
  let output_path := Py.path_join (download_dir self) output_filename in
  wb_save output_wb output_path ;;
  wb_close HOutput ;;
  logger Info (lit "Consolidation complete") output_path ;;
  ret output_path.

End Methods.

(** ** Well-formed source sheets *)

(** What [load_workbook] guarantees for every sheet it returns: rows and
    columns count from 1, every cell of a merged range but its first is a
    [MergedCell], and no merged range is recorded twice or lies within
    another one. *)
Definition valid_sheet (ws : worksheet) : Prop :=
  map_Forall (λ pos _, (1 ≤ pos.1 ∧ 1 ≤ pos.2)%nat) (_cells ws) ∧
  Forall (λ rg, Forall (λ pos, _cells ws !! pos = Some MergedCell)
                       (tail (range_cells rg)))
         (merged_cells ws) ∧
  NoDup (merged_cells ws) ∧
  Forall (λ a, Forall (λ b, a = b ∨ range_issubset a b = false)
                      (merged_cells ws))
         (merged_cells ws).

Global Instance valid_sheet_dec ws : Decision (valid_sheet ws).
Proof. unfold valid_sheet. apply _. Defined.

(** ** What the loops of [consolidate_excel_files] compute *)

(** The effect of a computation on the world when it leaves the files
    alone: events [tr] and log entries [lg] are appended. *)
Definition extends (w w' : world) (tr : list io_event) (lg : list log_entry)
  : Prop :=
  fs w' = fs w ∧ now w' = now w ∧ trace w' = trace w ++ tr ∧
  log w' = log w ++ lg.

(** The name under which the sheet loop asks for a new sheet. *)
Definition requested_name (sheet_names : option (list str)) (file_idx : nat)
    (file_path : str) (source_wb output_wb : workbook)
    (source_sheet : worksheet) : str :=
  _make_unique_sheet_name output_wb
    (_sanitize_sheet_name
       (candidate_name sheet_names file_idx file_path source_wb source_sheet)).

(** The title that [create_sheet] gives a new sheet asked for under a
    name without invalid characters. *)
Definition created_title (wb : workbook) (requested : str) : str :=
  avoid_duplicate_name (sheetnames wb)
    (if decide (requested = []) then lit "Sheet" else requested).

(** One round of the sheet loop, without the logger. *)
Definition sheet_step (sheet_names : option (list str)) (file_idx : nat)
    (file_path : str) (source_wb : workbook)
    (acc : workbook * nat) (source_sheet : worksheet) : workbook * nat :=
  let new_title :=
    created_title acc.1
      (requested_name sheet_names file_idx file_path source_wb acc.1
         source_sheet) in
  let copied :=
    match _copy_sheet_data source_sheet (new_worksheet new_title) with
    | Ok copied => copied
    | Raise _ => new_worksheet new_title
    end in
  ({| worksheets := worksheets acc.1 ++ [copied] |}, S acc.2).

(** The file loop over the files [files] as they are on disk: its result
    and the events it emits. *)
Fixpoint files_pure (sheet_names : option (list str))
    (files : gmap str fnode) (todo : list (nat * str)) (acc : workbook * nat)
  : result (workbook * nat) * list io_event :=
  match todo with
  | [] => (Ok acc, [])
  | (file_idx, file_path) :: rest =>
      match files !! file_path with
      | None => (Raise (FileNotFoundError file_path), [ELoad file_path])
      | Some f =>
          match book f with
          | None => (Raise (InvalidFileException file_path), [ELoad file_path])
          | Some source_wb =>
              let acc :=
                foldl (sheet_step sheet_names file_idx file_path source_wb)
                      acc (worksheets source_wb) in
              let '(r, tr) := files_pure sheet_names files rest acc in
              (r, [ELoad file_path; EOpened (HSource file_idx);
                   EClosed (HSource file_idx)] ++ tr)
          end
      end
  end.

(** The existence checks: their result and the events they emit. *)
Fixpoint check_pure (files : gmap str fnode) (file_paths : list str)
  : result unit * list io_event :=
  match file_paths with
  | [] => (Ok (), [])
  | path :: rest =>
      match files !! path with
      | None => (Raise (FileNotFoundError path), [EExists path])
      | Some _ =>
          let '(r, tr) := check_pure files rest in (r, EExists path :: tr)
      end
  end.

(** The file that [Workbook.save] leaves on disk. *)
Definition saved_file (serialize : workbook → list Byte.byte) (wb : workbook)
    (t : Z) : fnode :=
  {| content := serialize wb; readable := true; is_reg := true;
     can_unlink := true; st_mtime := t; st_ctime := t; book := Some wb |}.

(** The workbooks that a sequence of events leaves obtained and without
    a call of [close()]. *)
Fixpoint close_handle (h : handle) (opened : list handle) : list handle :=
  match opened with
  | [] => []
  | h' :: rest => if decide (h' = h) then rest else h' :: close_handle h rest
  end.

Definition handle_step (opened : list handle) (e : io_event) : list handle :=
  match e with
  | EOpened h => opened ++ [h]
  | EClosed h => close_handle h opened
  | _ => opened
  end.

Definition open_handles (tr : list io_event) : list handle :=
  foldl handle_step [] tr.

(** Events that read or write a workbook file. *)
Definition is_document_io (e : io_event) : bool :=
  match e with
  | ELoad _ | ESave _ | EOpened _ | EClosed _ => true
  | _ => false
  end.

Definition is_save (e : io_event) : bool :=
  match e with
  | ESave _ => true
  | _ => false
  end.

(** ** Sample inputs *)

Module Sample.

Definition fm : FileManager :=
  {| download_dir := lit "/app/downloads"; screenshot_dir := lit "/app/screenshots" |}.

(** A stand-in for the bytes of a saved workbook: the ZIP marker and
    padding. *)
Definition serialize (wb : workbook) : list Byte.byte :=
  [Byte.x50; Byte.x4b; Byte.x03; Byte.x04] ++ repeat Byte.x00 1996.

(** A sheet with a text, a number in the first cell of the merged range
    C2:D2, and the placeholder of that range. *)
Definition data_sheet : worksheet :=
  {| title := lit "Data";
     _cells := {[ (1, 1)%nat := Cell (VStr (lit "Total")) default_style;
                  (2, 3)%nat := Cell (VInt 5) default_style;
                  (2, 4)%nat := MergedCell ]};
     merged_cells :=
       [{| min_row := 2; min_col := 3; max_row := 2; max_col := 4 |}];
     column_dimensions := {[ lit "A" := 12 ]};
     row_dimensions := ∅ |}.

Definition xlsx_file (wb : workbook) (mtime : Z) : fnode :=
  {| content := serialize wb; readable := true; is_reg := true;
     can_unlink := true; st_mtime := mtime; st_ctime := mtime;
     book := Some wb |}.

(** A file that is not a workbook. *)
Definition corrupt_file : fnode :=
  {| content := repeat Byte.x00 2000; readable := true; is_reg := true;
     can_unlink := true; st_mtime := 100; st_ctime := 100; book := None |}.

Definition report_a : str := lit "/src/report_a.xlsx".
Definition report_b : str := lit "/src/report_b.xlsx".
Definition broken : str := lit "/src/broken.xlsx".
Definition charts_only : str := lit "/src/charts.xlsx".

Definition world0 : world :=
  {| fs := {[ report_a := xlsx_file {| worksheets := [data_sheet] |} 100;
              report_b := xlsx_file {| worksheets := [data_sheet] |} 200;
              broken := corrupt_file;
              charts_only := xlsx_file {| worksheets := [] |} 300 ]};
     now := 1000; log := []; trace := [] |}.

(** The same files with an older consolidated report already in the
    download directory. *)
Definition world1 : world :=
  {| fs := <[ lit "/app/downloads/out.xlsx"
                := xlsx_file {| worksheets := [data_sheet; data_sheet] |} 50 ]>
             (fs world0);
     now := 1000; log := []; trace := [] |}.

(** Files for the validator: [n] bytes that start with the ZIP marker
    [PK], or with [MZ]. *)
Definition pk_bytes (n : nat) : list Byte.byte :=
  [Byte.x50; Byte.x4b] ++ repeat Byte.x00 (n - 2).

Definition mz_bytes (n : nat) : list Byte.byte :=
  [Byte.x4d; Byte.x5a] ++ repeat Byte.x00 (n - 2).

Definition raw_file (bytes : list Byte.byte) (mtime : Z) : fnode :=
  {| content := bytes; readable := true; is_reg := true; can_unlink := true;
     st_mtime := mtime; st_ctime := mtime; book := None |}.

Definition validator_world : world :=
  {| fs := {[ lit "/app/downloads/small.xlsx" := raw_file (pk_bytes 500) 100;
              lit "/app/downloads/report.txt" := raw_file (pk_bytes 2000) 100;
              lit "/app/downloads/program.xlsx" := raw_file (mz_bytes 2000) 100;
              lit "/app/downloads/report.xlsx" := raw_file (pk_bytes 2000) 100 ]};
     now := 1000; log := []; trace := [] |}.

(** A download directory, 100 days after the epoch: two files that are 40
    days old, one of which cannot be deleted, and a file of yesterday. *)
Definition day : Z := 86400.

Definition locked_file (mtime : Z) : fnode :=
  {| content := pk_bytes 2000; readable := true; is_reg := true;
     can_unlink := false; st_mtime := mtime; st_ctime := mtime;
     book := None |}.

Definition cleanup_world : world :=
  {| fs := {[ lit "/app/downloads/ancient.xlsx" := locked_file (60 * day);
              lit "/app/downloads/old.xlsx" := raw_file (pk_bytes 2000) (60 * day);
              lit "/app/downloads/recent.xlsx" := raw_file (pk_bytes 2000) (99 * day) ]};
     now := 100 * day; log := []; trace := [] |}.

(** The same directory with a file whose modification time is beyond the
    year 9999 in place of the locked one. *)
Definition far_future_world : world :=
  {| fs := {[ lit "/app/downloads/ancient.xlsx"
                := raw_file (pk_bytes 2000) (datetime_max + 1);
              lit "/app/downloads/old.xlsx" := raw_file (pk_bytes 2000) (60 * day);
              lit "/app/downloads/recent.xlsx" := raw_file (pk_bytes 2000) (99 * day) ]};
     now := 100 * day; log := []; trace := [] |}.

(** Files that are 40 days, 20 days and 1 day old. *)
Definition retention_world : world :=
  {| fs := {[ lit "/app/downloads/forty.xlsx"
                := raw_file (pk_bytes 2000) (60 * day);
              lit "/app/downloads/twenty.xlsx"
                := raw_file (pk_bytes 2000) (80 * day);
              lit "/app/downloads/one.xlsx"
                := raw_file (pk_bytes 2000) (99 * day) ]};
     now := 100 * day; log := []; trace := [] |}.

(** A sheet with a styled and protected cell. *)
Definition bold_style : cell_style :=
  {| font := 1; fill := 2; border := 0; alignment := 3;
     number_format := lit "0.00"; protection := 1 |}.

Definition styled_sheet : worksheet :=
  {| title := lit "Summary";
     _cells := {[ (1, 1)%nat := Cell (VStr (lit "Total")) bold_style;
                  (1, 2)%nat := Cell (VInt 42) default_style ]};
     merged_cells := [];
     column_dimensions := {[ lit "A" := 20 ]};
     row_dimensions := {[ 1%nat := 30 ]} |}.

End Sample.

(** ** The naming rule, in the words of the specification *)

(** The candidate name: with a prefix for the source, the prefix followed
    by the sheet name when the source has more than one sheet and the
    prefix alone otherwise; without one, the first 15 characters of the
    base file name followed by the sheet name. *)
Definition spec_candidate (prefix : option str) (sheet_count : nat)
    (base_filename sheet_name : str) : str :=
  match prefix with
  | Some p =>
      if decide (1 < sheet_count)%nat then p ++ lit "_" ++ sheet_name else p
  | None => take 15 base_filename ++ lit "_" ++ sheet_name
  end.

(** Sheet-name sanitization: each of backslash, slash, star, question
    mark, colon and the two square brackets is replaced by an underscore,
    and the name is cut to 31 characters. *)
Definition spec_sheet_name (raw : str) : str :=
  take 31
    ((λ c, if decide (c ∈ ["\"%char; "/"%char; "*"%char; "?"%char; ":"%char;
                           "["%char; "]"%char])
           then "_"%char else c) <$> raw).

(** The candidate with suffix [_k], its base cut so that the whole name
    has at most 31 characters. *)
Definition spec_suffixed (base : str) (k : Z) : str :=
  let suffix := lit "_" ++ Py.str_of_int k in
  take (31 - length suffix) base ++ suffix.

(** Collision resolution: the candidate when it is free, otherwise the
    candidate with the first free suffix among [_1], [_2], ... *)
Definition spec_resolved (existing : list str) (candidate name : str) : Prop :=
  ((candidate ∉ existing) ∧ name = candidate) ∨
  (candidate ∈ existing ∧
   ∃ k, 1 ≤ k ∧ name = spec_suffixed candidate k ∧ (name ∉ existing) ∧
        ∀ j, 1 ≤ j < k → spec_suffixed candidate j ∈ existing).

(** The names [created] are those of the sanitized [candidates], each
    resolved against the names present when it is its turn. *)
Fixpoint spec_names (existing candidates created : list str) : Prop :=
  match candidates, created with
  | [], [] => True
  | c :: candidates', r :: created' =>
      spec_resolved existing c r ∧
      spec_names (existing ++ [r]) candidates' created'
  | _, _ => False
  end.

(** The candidates of a whole job, in the order of the copies. *)
Definition job_candidates (sheet_names : option (list str))
    (files : gmap str fnode) (todo : list (nat * str)) : list str :=
  todo ≫= λ '(file_idx, file_path),
    match files !! file_path ≫= book with
    | Some source_wb =>
        (λ source_sheet,
           spec_candidate (sheet_names ≫= (λ l, l !! file_idx))
             (length (worksheets source_wb))
             (Py.splitext_root (Py.basename file_path))
             (title source_sheet)) <$> worksheets source_wb
    | None => []
    end.

(** ** Further summaries *)

(** The style that [_copy_sheet_data] leaves on a target cell with style
    [tst] for a source cell with style [sst]: font, fill, border,
    alignment and number format of the source when the source has a
    style, and the target's own style otherwise. *)
Definition copy_style (sst tst : cell_style) : cell_style :=
  if bool_decide (sst ≠ default_style) then
    {| font := font sst; fill := fill sst; border := border sst;
       alignment := alignment sst; number_format := number_format sst;
       protection := protection tst |}
  else tst.

(** [cell.style], as far as a [MergedCell] has one. *)
Definition style_of (c : cell) : cell_style :=
  match c with
  | MergedCell => default_style
  | Cell _ st => st
  end.

(** The source sheets of a whole job, in the order of the copies. *)
Definition job_sheets (files : gmap str fnode) (file_paths : list str)
  : list worksheet :=
  file_paths ≫= λ file_path,
    match files !! file_path ≫= book with
    | Some source_wb => worksheets source_wb
    | None => []
    end.


(** The exception of [datetime.fromtimestamp] for a timestamp that it
    refuses. *)
Definition timestamp_error (t : Z) : exn :=
  if decide (¬ (time_t_min ≤ t ≤ time_t_max)) then
    OverflowError (lit "timestamp out of range for platform time_t")
  else if decide (¬ (localtime_min ≤ t ≤ localtime_max)) then
    OSError (lit "Value too large for defined data type")
  else ValueError (lit "year is out of range").


(** ** Report file names *)

(** [c.isalpha()], [c.upper()] and [s.title()] on the ASCII letters: the
    first letter of every run of letters in upper case, the others in
    lower case. *)
Definition is_upper (c : ascii) : bool :=
  bool_decide (65 ≤ nat_of_ascii c ≤ 90)%nat.

Definition is_lower (c : ascii) : bool :=
  bool_decide (97 ≤ nat_of_ascii c ≤ 122)%nat.

Definition upper_char (c : ascii) : ascii :=
  if is_lower c then ascii_of_nat (nat_of_ascii c - 32) else c.

Fixpoint title_from (previous_is_cased : bool) (s : str) : str :=
  match s with
  | [] => []
  | c :: s' =>
      let cased := is_upper c || is_lower c in
      (if previous_is_cased then Py.lower_char c else upper_char c)
        :: title_from cased s'
  end.

Definition py_title (s : str) : str := title_from false s.

Section ReportNames.

(** [datetime.strftime] with the format ["%Y%m%d_%H%M%S"], applied to the
    local time of the clock. *)
Variable strftime : Z → str.

Definition generate_filename (report_type tenant_name : str)
    (period : option str) (extension : str) : M str :=
  let safe_tenant := _sanitize_filename tenant_name in
  let report_name :=
    Py.replace_char " "%char (lit "_")
      (py_title (Py.replace_char "_"%char (lit " ") report_type)) in
  let* t := get_now in
  let timestamp := strftime t in
  match period with
  | Some (c :: p) =>
      ret (report_name ++ lit "_" ++ safe_tenant ++ lit "_" ++ (c :: p)
             ++ lit "_" ++ timestamp ++ lit "." ++ extension)
  | _ =>
      ret (report_name ++ lit "_" ++ safe_tenant ++ lit "_" ++ timestamp
             ++ lit "." ++ extension)
  end.

End ReportNames.

(** * Properties *)

(** Unfolds the [os], [shutil] and logger calls of a method and the monad
    under them, down to the fields of the world. *)
Ltac unfold_calls :=
  unfold os_path_exists, os_path_isfile, os_stat, os_remove, shutil_move,
    os_listdir, read_bytes, try_except;
  unfold emit, get_fs, set_fs, get_now, logger, ret, raise, bind;
  cbn [fs now log trace].

(** ** Timestamps *)

Lemma fromtimestamp_ok (t : Z) (w : world) :
  datetime_min ≤ t ≤ datetime_max → fromtimestamp t w = (Ok t, w).
Proof.
  intros Ht. unfold fromtimestamp.
  rewrite !decide_True; [done|done|..];
    unfold time_t_min, time_t_max, localtime_min, localtime_max,
      datetime_min, datetime_max in *; lia.
Qed.

Lemma fromtimestamp_refused (t : Z) (w : world) :
  ¬ (datetime_min ≤ t ≤ datetime_max) →
  fromtimestamp t w = (Raise (timestamp_error t), w).
Proof.
  intros Ht. unfold fromtimestamp, timestamp_error.
  repeat case_decide; try done; tauto.
Qed.

Lemma fromtimestamp_inv (t t' : Z) (w w' : world) :
  fromtimestamp t w = (Ok t', w') →
  t' = t ∧ w' = w ∧ datetime_min ≤ t ≤ datetime_max.
Proof.
  unfold fromtimestamp. repeat case_decide; try done.
  by intros [= <- <-].
Qed.

(** ** String helpers *)

Section StringFacts.

Implicit Types (s new chars : str) (c d : ascii).

Lemma replace_char_absent_id old new s :
  old ∉ s → Py.replace_char old new s = s.
Proof.
  unfold Py.replace_char. induction s as [|a s IH]; intros Hn; [done|].
  apply not_elem_of_cons in Hn as [Hne Hn].
  rewrite bind_cons, decide_False by done. cbn. by rewrite IH.
Qed.

Lemma replace_char_removes old new s :
  old ∉ new → old ∉ Py.replace_char old new s.
Proof.
  unfold Py.replace_char. intros Hnew Hin.
  apply list_elem_of_bind in Hin as (y & Hy & _).
  destruct (decide (y = old)) as [->|Hne]; [done|].
  apply list_elem_of_singleton in Hy. congruence.
Qed.

Lemma replace_char_keeps_absent old new s d :
  d ∉ s → d ∉ new → d ∉ Py.replace_char old new s.
Proof.
  unfold Py.replace_char. intros Hs Hnew Hin.
  apply list_elem_of_bind in Hin as (y & Hy & Hys).
  destruct (decide (y = old)); [done|].
  apply list_elem_of_singleton in Hy. congruence.
Qed.

Lemma replace_each_keeps_absent chars new s d :
  d ∉ s → d ∉ new → d ∉ Py.replace_each chars new s.
Proof.
  unfold Py.replace_each. revert s.
  induction chars as [|c chars IH]; intros s Hs Hnew; [done|].
  cbn. apply IH; [|done]. by apply replace_char_keeps_absent.
Qed.

Lemma replace_each_removes chars new s c :
  c ∈ chars → c ∉ new → c ∉ Py.replace_each chars new s.
Proof.
  unfold Py.replace_each. revert s.
  induction chars as [|a chars IH]; intros s Hin Hnew.
  - by apply elem_of_nil in Hin.
  - cbn. apply elem_of_cons in Hin as [->|Hin].
    + apply (replace_each_keeps_absent chars); [|done].
      by apply replace_char_removes.
    + by apply IH.
Qed.

Lemma replace_each_absent_id chars new s :
  (∀ c, c ∈ chars → c ∉ s) → Py.replace_each chars new s = s.
Proof.
  unfold Py.replace_each. induction chars as [|a chars IH]; intros H; [done|].
  cbn. rewrite replace_char_absent_id by (apply H; left).
  apply IH. intros c Hc. apply H. by right.
Qed.

Lemma slice_to_nonneg s n : 0 ≤ n → Py.slice_to s n = take (Z.to_nat n) s.
Proof. intros. unfold Py.slice_to. by rewrite decide_False by lia. Qed.

Lemma slice_to_length s n : 0 ≤ n → Py.len (Py.slice_to s n) ≤ n.
Proof.
  intros. rewrite slice_to_nonneg by done. unfold Py.len.
  rewrite length_take. lia.
Qed.

Lemma slice_to_short s n : Py.len s ≤ n → Py.slice_to s n = s.
Proof.
  unfold Py.len. intros. rewrite slice_to_nonneg by lia.
  apply take_ge. lia.
Qed.

Lemma slice_to_keeps_absent s n d : d ∉ s → d ∉ Py.slice_to s n.
Proof.
  unfold Py.slice_to. intros Hs Hin.
  destruct (decide (n < 0)); apply Hs; by eapply subseteq_take.
Qed.

End StringFacts.

(** ** The underscore loop of [_sanitize_filename] *)

Section Dunder.

Implicit Types (s : str) (c d : ascii).

(** Induction that follows the two-character look-ahead of
    [Py.replace_dunder] and [Py.has_dunder]. *)
Lemma str_ind2 (P : str → Prop) :
  P [] → (∀ a, P [a]) →
  (∀ a b s, P s → P (b :: s) → P (a :: b :: s)) →
  ∀ s, P s.
Proof.
  intros H0 H1 H2 s.
  assert (P s ∧ ∀ a, P (a :: s)) as [? _]; [|done].
  induction s as [|b s [IHs IHc]]; [by split|].
  split; [apply IHc|]. intros a. by apply H2.
Qed.

Lemma replace_dunder_cons2 a b s :
  Py.replace_dunder (a :: b :: s) =
  if decide (a = "_"%char ∧ b = "_"%char)
  then "_"%char :: Py.replace_dunder s
  else a :: Py.replace_dunder (b :: s).
Proof. reflexivity. Qed.

Lemma has_dunder_cons2 a b s :
  Py.has_dunder (a :: b :: s) =
  bool_decide (a = "_"%char ∧ b = "_"%char) || Py.has_dunder (b :: s).
Proof. reflexivity. Qed.

Lemma replace_dunder_length_le s :
  (length (Py.replace_dunder s) ≤ length s)%nat.
Proof.
  induction s as [| |a b s IH1 IH2] using str_ind2; [done..|].
  rewrite replace_dunder_cons2.
  destruct (decide (a = "_"%char ∧ b = "_"%char)); cbn [length] in *; lia.
Qed.

Lemma replace_dunder_shrinks s :
  Py.has_dunder s = true →
  (length (Py.replace_dunder s) < length s)%nat.
Proof.
  induction s as [| |a b s IH1 IH2] using str_ind2; [done..|].
  rewrite replace_dunder_cons2, has_dunder_cons2. intros H.
  destruct (decide (a = "_"%char ∧ b = "_"%char)) as [Hd|Hd].
  - pose proof (replace_dunder_length_le s). cbn [length]. lia.
  - rewrite bool_decide_eq_false_2 in H by done.
    cbn [length] in *. apply IH2 in H. lia.
Qed.

Lemma replace_dunder_keeps_absent s d :
  d ∉ s → d ∉ Py.replace_dunder s.
Proof.
  induction s as [| |a b s IH1 IH2] using str_ind2; [done..|].
  rewrite replace_dunder_cons2. intros Hn.
  apply not_elem_of_cons in Hn as [Ha Hn].
  destruct (decide (a = "_"%char ∧ b = "_"%char)) as [Hd|Hd].
  - destruct Hd as [-> _]. apply not_elem_of_cons. split; [done|].
    apply IH1. by apply not_elem_of_cons in Hn as [_ ?].
  - apply not_elem_of_cons. split; [done|]. by apply IH2.
Qed.

Lemma collapse_loop_settled fuel s :
  Py.has_dunder s = false → collapse_loop fuel s = s.
Proof. intros H. destruct fuel; [done|]. cbn. by rewrite H. Qed.

(** The loop leaves only when its condition is false: [length s] rounds
    never run out. *)
Lemma collapse_loop_no_dunder fuel s :
  (length s ≤ fuel)%nat → Py.has_dunder (collapse_loop fuel s) = false.
Proof.
  revert s. induction fuel as [|fuel IH]; intros s Hlen.
  - destruct s; [done | cbn in Hlen; lia].
  - cbn. destruct (Py.has_dunder s) eqn:Hd; [|done].
    apply IH. apply replace_dunder_shrinks in Hd. lia.
Qed.

(** More rounds than [length s] change nothing. *)
Lemma collapse_loop_fuel fuel1 fuel2 s :
  (length s ≤ fuel1)%nat → (length s ≤ fuel2)%nat →
  collapse_loop fuel1 s = collapse_loop fuel2 s.
Proof.
  revert fuel2 s. induction fuel1 as [|fuel1 IH]; intros fuel2 s H1 H2.
  - destruct s; [|cbn in H1; lia]. by destruct fuel2.
  - destruct (Py.has_dunder s) eqn:Hd.
    2: { by rewrite !collapse_loop_settled. }
    pose proof (replace_dunder_shrinks s Hd) as Hlt.
    destruct fuel2 as [|fuel2]; [lia|].
    cbn [collapse_loop]. rewrite Hd. apply IH; lia.
Qed.

Lemma collapse_loop_keeps_absent fuel s d :
  d ∉ s → d ∉ collapse_loop fuel s.
Proof.
  revert s. induction fuel as [|fuel IH]; intros s Hn; [done|].
  cbn. destruct (Py.has_dunder s); [|done].
  apply IH. by apply replace_dunder_keeps_absent.
Qed.

Lemma has_dunder_take n s :
  Py.has_dunder s = false → Py.has_dunder (take n s) = false.
Proof.
  revert n. induction s as [| |a b s IH1 IH2] using str_ind2; intros n H.
  - by destruct n.
  - by destruct n as [|[|n]].
  - rewrite has_dunder_cons2 in H. apply orb_false_elim in H as [Hab Hs].
    destruct n as [|[|n]]; [done..|].
    specialize (IH2 (S n) Hs). cbn [take] in *.
    by rewrite has_dunder_cons2, Hab, IH2.
Qed.

End Dunder.

(** ** Idempotence of the sanitizers *)

Lemma filename_chars_not_in_replacement c :
  c ∈ " "%char :: filename_invalid_chars → c ∉ lit "_".
Proof.
  intros Hc Hu. apply list_elem_of_singleton in Hu as ->.
  revert Hc. apply (bool_decide_unpack _). vm_compute. reflexivity.
Qed.

Lemma sheet_chars_not_in_replacement c :
  c ∈ sheet_invalid_chars → c ∉ lit "_".
Proof.
  intros Hc Hu. apply list_elem_of_singleton in Hu as ->.
  revert Hc. apply (bool_decide_unpack _). vm_compute. reflexivity.
Qed.

Lemma sanitize_filename_clean name :
  let r := _sanitize_filename name in
  (∀ c, c ∈ filename_invalid_chars → c ∉ r) ∧ (" "%char ∉ r) ∧
  Py.has_dunder r = false ∧ Py.len r ≤ 100.
Proof.
  unfold _sanitize_filename. cbn zeta. split_and!.
  - intros c Hc. apply slice_to_keeps_absent, collapse_loop_keeps_absent.
    apply replace_char_keeps_absent.
    + apply replace_each_removes; [done|]. apply not_elem_of_nil.
    + apply filename_chars_not_in_replacement. by right.
  - apply slice_to_keeps_absent, collapse_loop_keeps_absent.
    apply replace_char_removes. apply filename_chars_not_in_replacement. left.
  - rewrite slice_to_nonneg by lia. apply has_dunder_take.
    by apply collapse_loop_no_dunder.
  - by apply slice_to_length.
Qed.

Lemma sanitize_sheet_name_clean name :
  let r := _sanitize_sheet_name name in
  (∀ c, c ∈ sheet_invalid_chars → c ∉ r) ∧ Py.len r ≤ 31.
Proof.
  unfold _sanitize_sheet_name. cbn zeta. split.
  - intros c Hc. apply slice_to_keeps_absent.
    apply replace_each_removes; [done|]. by apply sheet_chars_not_in_replacement.
  - by apply slice_to_length.
Qed.

(** C9: both sanitizers are idempotent: sanitizing an already sanitized
    file name, or an already sanitized sheet name, returns it unchanged. *)
Theorem sanitizers_idempotent (x : str) :
  _sanitize_filename (_sanitize_filename x) = _sanitize_filename x ∧
  _sanitize_sheet_name (_sanitize_sheet_name x) = _sanitize_sheet_name x.
Proof.
  split.
  - destruct (sanitize_filename_clean x) as (Hinv & Hsp & Hd & Hlen).
    set (r := _sanitize_filename x) in *.
    unfold _sanitize_filename at 1. cbn zeta.
    rewrite (replace_each_absent_id _ _ r) by done.
    rewrite (replace_char_absent_id _ _ r) by done.
    rewrite collapse_loop_settled by done.
    by apply slice_to_short.
  - destruct (sanitize_sheet_name_clean x) as (Hinv & Hlen).
    set (r := _sanitize_sheet_name x) in *.
    unfold _sanitize_sheet_name at 1. cbn zeta.
    rewrite (replace_each_absent_id _ _ r) by done.
    by apply slice_to_short.
Qed.

Example sanitize_filename_tenant :
  _sanitize_filename (lit "Acme:  Pty / Ltd?") = lit "Acme_Pty_Ltd".
Proof. vm_compute. reflexivity. Qed.

Example sanitize_sheet_name_brackets :
  _sanitize_sheet_name (lit "a/b[c]:d") = lit "a_b_c__d".
Proof. vm_compute. reflexivity. Qed.

(** ** Decimal numerals *)

Section Decimal.

Lemma digit_char_code d :
  0 ≤ d < 10 → nat_of_ascii (Py.digit_char d) = (48 + Z.to_nat d)%nat.
Proof. intros. unfold Py.digit_char. apply nat_ascii_embedding. lia. Qed.

Lemma digit_char_inj d1 d2 :
  0 ≤ d1 < 10 → 0 ≤ d2 < 10 → Py.digit_char d1 = Py.digit_char d2 → d1 = d2.
Proof.
  intros H1 H2 Heq. apply (f_equal nat_of_ascii) in Heq.
  rewrite !digit_char_code in Heq by done. lia.
Qed.


Lemma digits_fuel_length_pos fuel n :
  (0 < length (Py.digits_fuel (S fuel) n))%nat.
Proof.
  cbn. case_decide; [cbn; lia|]. rewrite length_app. cbn. lia.
Qed.

(** Every character of a numeral is a decimal digit. *)
Lemma digits_fuel_chars fuel n c :
  0 ≤ n → c ∈ Py.digits_fuel fuel n → (48 ≤ nat_of_ascii c ≤ 57)%nat.
Proof.
  revert n. induction fuel as [|fuel IH]; intros n Hn Hc.
  - by apply elem_of_nil in Hc.
  - cbn in Hc. case_decide.
    + apply list_elem_of_singleton in Hc as ->.
      rewrite digit_char_code by lia. lia.
    + apply elem_of_app in Hc as [Hc|Hc].
      * apply (IH (n / 10)); [|done]. apply Z.div_pos; lia.
      * apply list_elem_of_singleton in Hc as ->.
        pose proof (Z.mod_pos_bound n 10).
        rewrite digit_char_code by lia. lia.
Qed.

Lemma digits_fuel_no_underscore fuel n :
  0 ≤ n → "_"%char ∉ Py.digits_fuel fuel n.
Proof.
  intros Hn Hin. apply digits_fuel_chars in Hin; [|done].
  vm_compute in Hin. lia.
Qed.

(** With enough rounds, different numbers have different numerals. *)
Lemma digits_fuel_inj fuel1 fuel2 n m :
  0 ≤ n < Z.of_nat fuel1 → 0 ≤ m < Z.of_nat fuel2 →
  Py.digits_fuel fuel1 n = Py.digits_fuel fuel2 m → n = m.
Proof.
  revert fuel2 n m. induction fuel1 as [|fuel1 IH]; intros fuel2 n m Hn Hm Heq.
  { lia. }
  destruct fuel2 as [|fuel2]; [lia|].
  cbn [Py.digits_fuel] in Heq.
  destruct (decide (n < 10)), (decide (m < 10)).
  - injection Heq as Heq. apply digit_char_inj; [lia..|done].
  - destruct fuel2 as [|fuel2]; [lia|].
    pose proof (digits_fuel_length_pos fuel2 (m / 10)) as Hpos.
    apply (f_equal length) in Heq. rewrite length_app in Heq.
    cbn [length] in Heq. lia.
  - destruct fuel1 as [|fuel1]; [lia|].
    pose proof (digits_fuel_length_pos fuel1 (n / 10)) as Hpos.
    apply (f_equal length) in Heq. rewrite length_app in Heq.
    cbn [length] in Heq. lia.
  - apply app_inj_tail in Heq as [Hq Hr].
    pose proof (Z.mod_pos_bound n 10). pose proof (Z.mod_pos_bound m 10).
    apply digit_char_inj in Hr; [|lia..].
    assert (0 ≤ n / 10 < n) by (split; [apply Z.div_pos|apply Z.div_lt]; lia).
    assert (0 ≤ m / 10 < m) by (split; [apply Z.div_pos|apply Z.div_lt]; lia).
    apply IH in Hq; [|lia..].
    rewrite (Z.div_mod n 10), (Z.div_mod m 10) by lia. lia.
Qed.

(** A number below [10 ^ k] has at most [k] digits. *)
Lemma digits_fuel_length fuel n (k : nat) :
  0 ≤ n < 10 ^ Z.of_nat k → (1 ≤ k)%nat →
  (length (Py.digits_fuel fuel n) ≤ k)%nat.
Proof.
  revert n k. induction fuel as [|fuel IH]; intros n k Hn Hk; [cbn; lia|].
  cbn [Py.digits_fuel]. case_decide; [cbn; lia|].
  destruct k as [|[|k]]; [lia| |].
  - change (10 ^ Z.of_nat 1) with 10 in Hn. lia.
  - rewrite length_app. cbn [length].
    specialize (IH (n / 10) (S k)).
    replace (Z.of_nat (S (S k))) with (Z.succ (Z.of_nat (S k))) in Hn by lia.
    rewrite Z.pow_succ_r in Hn by lia.
    assert (length (Py.digits_fuel fuel (n / 10)) ≤ S k)%nat; [|lia].
    apply IH; [|lia]. split; [apply Z.div_pos; lia|].
    apply Z.div_lt_upper_bound; lia.
Qed.

Lemma str_of_int_inj n m :
  0 ≤ n → 0 ≤ m → Py.str_of_int n = Py.str_of_int m → n = m.
Proof.
  unfold Py.str_of_int. intros Hn Hm.
  rewrite !decide_False by lia. apply digits_fuel_inj; lia.
Qed.

Lemma str_of_int_no_underscore n : 0 ≤ n → "_"%char ∉ Py.str_of_int n.
Proof.
  unfold Py.str_of_int. intros Hn. rewrite decide_False by lia.
  by apply digits_fuel_no_underscore.
Qed.

Lemma str_of_int_length n (k : nat) :
  0 ≤ n < 10 ^ Z.of_nat k → (1 ≤ k)%nat → Py.len (Py.str_of_int n) ≤ Z.of_nat k.
Proof.
  unfold Py.str_of_int, Py.len. intros Hn Hk. rewrite decide_False by lia.
  pose proof (digits_fuel_length (S (Z.to_nat n)) n k Hn Hk). lia.
Qed.

End Decimal.

(** ** Unique sheet names *)

Section UniqueNames.

Implicit Types (name r : str) (existing : list str) (counter : Z).

Lemma first_separator_inj (c : ascii) (a1 a2 b1 b2 : str) :
  c ∉ a1 → c ∉ a2 → a1 ++ c :: b1 = a2 ++ c :: b2 → a1 = a2.
Proof.
  revert a2. induction a1 as [|x a1 IH]; intros [|y a2] H1 H2 Heq; cbn in *.
  - done.
  - injection Heq as -> _. exfalso. apply H2. left.
  - injection Heq as -> _. exfalso. apply H1. left.
  - injection Heq as -> Heq. f_equal.
    apply not_elem_of_cons in H1 as [_ H1].
    apply not_elem_of_cons in H2 as [_ H2]. by apply IH.
Qed.

Lemma last_separator_inj (c : ascii) (p1 p2 d1 d2 : str) :
  c ∉ d1 → c ∉ d2 → p1 ++ c :: d1 = p2 ++ c :: d2 → d1 = d2.
Proof.
  intros H1 H2 Heq. apply (f_equal reverse) in Heq.
  rewrite !reverse_app, !reverse_cons, <- !(assoc_L (++)) in Heq.
  apply first_separator_inj in Heq.
  - by apply (inj reverse).
  - by rewrite elem_of_reverse.
  - by rewrite elem_of_reverse.
Qed.

(** Different counters give different candidate names, whatever the
    truncation of the base does. *)
Lemma suffixed_name_inj name i j :
  0 ≤ i → 0 ≤ j → suffixed_name name i = suffixed_name name j → i = j.
Proof.
  unfold suffixed_name. cbn zeta. intros Hi Hj Heq.
  change (lit "_" ++ ?d) with ("_"%char :: d) in Heq.
  apply last_separator_inj in Heq; try by apply str_of_int_no_underscore.
  by apply str_of_int_inj.
Qed.

Lemma suffixed_name_length name counter :
  0 ≤ counter < 10 ^ 30 → Py.len (suffixed_name name counter) ≤ 31.
Proof.
  intros Hc. unfold suffixed_name. cbn zeta.
  pose proof (str_of_int_length counter 30 Hc ltac:(lia)) as Hd.
  set (suffix := lit "_" ++ Py.str_of_int counter).
  assert (Py.len suffix ≤ 31) as Hs.
  { unfold suffix, Py.len in *. rewrite length_app. cbn [length lit list_ascii_of_string]. lia. }
  pose proof (slice_to_length name (31 - Py.len suffix) ltac:(lia)).
  unfold Py.len in *. rewrite length_app. lia.
Qed.

Lemma unique_loop_Some fuel existing name counter r :
  unique_loop fuel existing name counter = Some r →
  ∃ k, counter ≤ k < counter + Z.of_nat fuel ∧ r = suffixed_name name k ∧
       (r ∉ existing) ∧
       ∀ j, counter ≤ j < k → suffixed_name name j ∈ existing.
Proof.
  revert counter. induction fuel as [|fuel IH]; intros counter H; [done|].
  cbn [unique_loop] in H. cbn zeta in H. case_decide as Hfree.
  - injection H as <-. exists counter. split_and!; try done; lia.
  - apply IH in H as (k & Hk & -> & Hr & Hbelow).
    exists k. split_and!; try done; try lia.
    intros j Hj. destruct (decide (j = counter)) as [->|].
    + done.
    + apply Hbelow. lia.
Qed.

Lemma unique_loop_None fuel existing name counter :
  unique_loop fuel existing name counter = None →
  ∀ j, counter ≤ j < counter + Z.of_nat fuel → suffixed_name name j ∈ existing.
Proof.
  revert counter. induction fuel as [|fuel IH]; intros counter H j Hj; [lia|].
  cbn [unique_loop] in H. cbn zeta in H. case_decide as Hfree; [done|].
  destruct (decide (j = counter)) as [->|].
  - done.
  - apply (IH _ H). lia.
Qed.

(** The candidates of [fuel] successive counters are pairwise different,
    so they cannot all be among fewer than [fuel] existing names. *)
Lemma unique_loop_enough fuel existing name counter :
  0 ≤ counter → (length existing < fuel)%nat →
  is_Some (unique_loop fuel existing name counter).
Proof.
  intros Hc Hlen.
  destruct (unique_loop fuel existing name counter) eqn:Hloop; [by eexists|].
  exfalso. pose proof (unique_loop_None _ _ _ _ Hloop) as Hall.
  set (cands := suffixed_name name <$> seqZ counter (Z.of_nat fuel)).
  assert (NoDup cands) as Hnd.
  { apply NoDup_fmap_2_strong; [|apply NoDup_seqZ].
    intros x y Hx Hy. apply elem_of_seqZ in Hx, Hy.
    apply suffixed_name_inj; lia. }
  assert (cands ⊆+ existing) as Hsub.
  { apply NoDup_submseteq; [done|]. intros x Hx.
    apply list_elem_of_fmap in Hx as (k & -> & Hk).
    apply elem_of_seqZ in Hk. apply Hall. lia. }
  apply submseteq_length in Hsub.
  unfold cands in Hsub. rewrite length_fmap, length_seqZ in Hsub. lia.
Qed.

Lemma unique_loop_mono fuel fuel' existing name counter r :
  unique_loop fuel existing name counter = Some r → (fuel ≤ fuel')%nat →
  unique_loop fuel' existing name counter = Some r.
Proof.
  revert fuel' counter. induction fuel as [|fuel IH]; intros fuel' counter H Hle.
  { done. }
  destruct fuel' as [|fuel']; [lia|]. cbn [unique_loop] in *. cbn zeta in *.
  case_decide; [done|]. apply IH; [done|lia].
Qed.

(** One round more than there are sheets is enough, and any larger number
    of rounds returns the same name. *)
Lemma make_unique_fuel_enough fuel wb name :
  (length (worksheets wb) < fuel)%nat →
  make_unique_fuel fuel wb name = Some (_make_unique_sheet_name wb name).
Proof.
  intros Hfuel. unfold _make_unique_sheet_name, make_unique_fuel.
  case_decide; [done|].
  destruct (unique_loop_enough (S (length (worksheets wb))) (sheetnames wb)
              name 1) as [r Hr]; [lia|unfold sheetnames; rewrite length_fmap; lia|].
  rewrite Hr. cbn. eapply unique_loop_mono; [done|lia].
Qed.

(** What the method returns: the name itself when it is free, otherwise
    the candidate of the first counter, from 1 on, that is free. *)
Lemma make_unique_spec wb name :
  let existing := sheetnames wb in
  let r := _make_unique_sheet_name wb name in
  ((name ∉ existing) ∧ r = name) ∨
  (name ∈ existing ∧
   ∃ k, 1 ≤ k ≤ Z.of_nat (length existing) + 1 ∧ r = suffixed_name name k ∧
        (r ∉ existing) ∧ ∀ j, 1 ≤ j < k → suffixed_name name j ∈ existing).
Proof.
  cbn zeta.
  pose proof (make_unique_fuel_enough (S (length (worksheets wb))) wb name
                ltac:(lia)) as Hrun.
  unfold make_unique_fuel in Hrun. case_decide as Hfree.
  - left. split; [done|]. by injection Hrun.
  - right. split; [done|].
    apply unique_loop_Some in Hrun as (k & Hk & Heq & Hr & Hbelow).
    exists k. unfold sheetnames in *. rewrite length_fmap.
    split_and!; try done; lia.
Qed.

Lemma make_unique_fresh wb name :
  _make_unique_sheet_name wb name ∉ sheetnames wb.
Proof.
  destruct (make_unique_spec wb name) as [[? ->]|(_ & k & _ & _ & ? & _)]; done.
Qed.

Lemma make_unique_length wb name :
  Py.len name ≤ 31 → Py.len (worksheets wb) ≤ Py.sys_maxsize →
  Py.len (_make_unique_sheet_name wb name) ≤ 31.
Proof.
  intros Hname Hsize.
  destruct (make_unique_spec wb name) as [[? ->]|(_ & k & Hk & -> & _)]; [done|].
  apply suffixed_name_length. unfold sheetnames in Hk.
  rewrite length_fmap in Hk. unfold Py.len, Py.sys_maxsize in Hsize. lia.
Qed.

Lemma unique_loop_all_taken fuel existing name counter :
  (∀ j, counter ≤ j < counter + Z.of_nat fuel →
        suffixed_name name j ∈ existing) →
  unique_loop fuel existing name counter = None.
Proof.
  revert counter. induction fuel as [|fuel IH]; intros counter Hall; [done|].
  cbn [unique_loop]. cbn zeta. rewrite decide_False.
  - apply IH. intros j Hj. apply Hall. lia.
  - intros Hfree. apply Hfree, Hall. lia.
Qed.

(** C6, as the code has it: the suffix search has no iteration cap, and
    for every number of rounds there is a workbook on which the search
    needs more; yet it ends on every workbook, within one round more than
    the workbook has sheets, and more rounds return the same name. *)
Theorem unique_name_search_terminates :
  (∀ wb name, ∃ r, ∀ extra,
     make_unique_fuel (S (length (worksheets wb)) + extra) wb name = Some r) ∧
  (∀ rounds, ∃ wb name, make_unique_fuel rounds wb name = None).
Proof.
  split.
  - intros wb name. exists (_make_unique_sheet_name wb name). intros extra.
    apply make_unique_fuel_enough. lia.
  - intros rounds.
    set (name := lit "Sheet").
    set (titles := name :: (suffixed_name name <$> seqZ 1 (Z.of_nat rounds))).
    exists {| worksheets := new_worksheet <$> titles |}, name.
    unfold make_unique_fuel.
    assert (sheetnames {| worksheets := new_worksheet <$> titles |} = titles)
      as ->.
    { unfold sheetnames. cbn [worksheets]. rewrite <- list_fmap_compose.
      apply list_fmap_id. }
    rewrite decide_False by (intros Hn; apply Hn; left).
    apply unique_loop_all_taken. intros j Hj. right.
    apply list_elem_of_fmap_2, elem_of_seqZ. lia.
Qed.

(** Against C6 as stated: no workbook and name make the suffix search run
    for ever. *)
Lemma unique_name_search_never_diverges :
  ¬ ∃ wb name, ∀ fuel, make_unique_fuel fuel wb name = None.
Proof.
  intros (wb & name & Hnever).
  specialize (Hnever (S (length (worksheets wb)))).
  by rewrite make_unique_fuel_enough in Hnever by lia.
Qed.

End UniqueNames.

(** ** Copying a sheet *)

Section CopySheet.

Implicit Types (t src : worksheet) (row : list cell) (rows : list (list cell)).

(** Writing one source cell into a target without merged cells. *)
Lemma write_cell_spec t ridx cidx v st :
  (∀ pos, _cells t !! pos ≠ Some MergedCell) →
  ∃ t', write_cell t ridx cidx (Cell v st) = Ok t' ∧
        (∀ pos, _cells t' !! pos ≠ Some MergedCell) ∧
        title t' = title t ∧ merged_cells t' = merged_cells t ∧
        column_dimensions t' = column_dimensions t ∧
        row_dimensions t' = row_dimensions t ∧
        value_at t' ridx cidx = v ∧
        ∀ r c, (r, c) ≠ (ridx, cidx) → value_at t' r c = value_at t r c.
Proof.
  intros Hnm. unfold write_cell.
  destruct (cell_at t ridx cidx) as [|v0 st0] eqn:Hcell.
  { exfalso. unfold cell_at in Hcell.
    destruct (_cells t !! (ridx, cidx)) as [[|]|] eqn:Hl; try done.
    by apply (Hnm (ridx, cidx)). }
  eexists. split; [done|]. cbn. split_and!; try done.
  - intros pos. rewrite lookup_insert. case_decide; [done|]. apply Hnm.
  - unfold value_at, cell_at. cbn. by rewrite lookup_insert_eq.
  - intros r c Hne. unfold value_at, cell_at. cbn.
    by rewrite lookup_insert_ne.
Qed.

Lemma copy_row_spec row : ∀ k t ridx,
  (∀ pos, _cells t !! pos ≠ Some MergedCell) →
  ∃ t', copy_row t ridx (enumerate k row) = Ok t' ∧
        (∀ pos, _cells t' !! pos ≠ Some MergedCell) ∧
        title t' = title t ∧ merged_cells t' = merged_cells t ∧
        column_dimensions t' = column_dimensions t ∧
        row_dimensions t' = row_dimensions t ∧
        (∀ r c, (r ≠ ridx ∨ c < k ∨ k + length row ≤ c)%nat →
                value_at t' r c = value_at t r c) ∧
        (∀ i cl, row !! i = Some cl →
                 value_at t' ridx (k + i) =
                 match cl with
                 | Cell v _ => v
                 | MergedCell => value_at t ridx (k + i)
                 end).
Proof.
  induction row as [|c0 row IH]; intros k t ridx Hnm.
  { exists t. cbn. split_and!; try done. }
  cbn [enumerate copy_row]. destruct c0 as [|v st].
  - destruct (IH (S k) t ridx Hnm)
      as (t' & Hrun & Hnm' & Ht & Hm & Hc & Hr & Hout & Hin).
    exists t'. split_and!; try done.
    + intros r c Hrc. apply Hout. cbn [length] in Hrc. lia.
    + intros [|i] cl Hi; cbn in Hi.
      * injection Hi as <-. apply Hout. lia.
      * replace (k + S i)%nat with (S k + i)%nat by lia. by apply Hin.
  - destruct (write_cell_spec t ridx k v st Hnm)
      as (t1 & Hw & Hnm1 & Ht1 & Hm1 & Hc1 & Hr1 & Hv1 & Ho1).
    rewrite Hw.
    destruct (IH (S k) t1 ridx Hnm1)
      as (t' & Hrun & Hnm' & Ht & Hm & Hc & Hr & Hout & Hin).
    exists t'. split_and!; try done; try congruence.
    + intros r c Hrc. cbn [length] in Hrc.
      rewrite Hout by lia. apply Ho1. intros [= -> ->]. lia.
    + intros [|i] cl Hi; cbn in Hi.
      * injection Hi as <-. rewrite Hout by lia.
        by replace (k + 0)%nat with k by lia.
      * replace (k + S i)%nat with (S k + i)%nat by lia.
        rewrite (Hin i cl Hi). destruct cl; [|done].
        apply Ho1. intros [= ?]. lia.
Qed.

Lemma copy_rows_spec rows : ∀ k t,
  (∀ pos, _cells t !! pos ≠ Some MergedCell) →
  ∃ t', copy_rows t (enumerate k rows) = Ok t' ∧
        (∀ pos, _cells t' !! pos ≠ Some MergedCell) ∧
        title t' = title t ∧ merged_cells t' = merged_cells t ∧
        column_dimensions t' = column_dimensions t ∧
        row_dimensions t' = row_dimensions t ∧
        (∀ r c, (r < k ∨ k + length rows ≤ r)%nat →
                value_at t' r c = value_at t r c) ∧
        (∀ i row, rows !! i = Some row →
           (∀ c, (c < 1 ∨ 1 + length row ≤ c)%nat →
                 value_at t' (k + i) c = value_at t (k + i) c) ∧
           (∀ j cl, row !! j = Some cl →
                    value_at t' (k + i) (1 + j) =
                    match cl with
                    | Cell v _ => v
                    | MergedCell => value_at t (k + i) (1 + j)
                    end)).
Proof.
  induction rows as [|row rows IH]; intros k t Hnm.
  { exists t. cbn. split_and!; try done. }
  cbn [enumerate copy_rows].
  destruct (copy_row_spec row 1 t k Hnm)
    as (t1 & Hw & Hnm1 & Ht1 & Hm1 & Hc1 & Hr1 & Ho1 & Hi1).
  rewrite Hw.
  destruct (IH (S k) t1 Hnm1)
    as (t' & Hrun & Hnm' & Ht & Hm & Hc & Hr & Hout & Hin).
  exists t'. split_and!; try done; try congruence.
  - intros r c Hrc. cbn [length] in Hrc.
    rewrite Hout by lia. apply Ho1. lia.
  - intros [|i] row' Hi; cbn in Hi.
    + injection Hi as <-. replace (k + 0)%nat with k by lia. split.
      * intros c Hc'. rewrite Hout by lia. apply Ho1. lia.
      * intros j cl Hj. rewrite Hout by lia. by apply Hi1.
    + replace (k + S i)%nat with (S k + i)%nat by lia.
      destruct (Hin i row' Hi) as [Ha Hb]. split.
      * intros c Hc'. rewrite Ha by done. apply Ho1. lia.
      * intros j cl Hj. rewrite (Hb j cl Hj). destruct cl; [|done].
        apply Ho1. lia.
Qed.


Lemma max_list_fmap_le {A} (f : A → nat) (l : list A) x :
  x ∈ l → (f x ≤ max_list (1%nat :: (f <$> l)))%nat.
Proof.
  intros Hx. apply max_list_elem_of_le. right. by apply list_elem_of_fmap_2.
Qed.

Lemma ws_max_bounds src r c x :
  _cells src !! (r, c) = Some x →
  (r ≤ ws_max_row src ∧ c ≤ ws_max_column src)%nat.
Proof.
  intros Hl. apply elem_of_map_to_list in Hl. split.
  - apply (max_list_fmap_le (λ kv : nat * nat * cell, kv.1.1) _ _ Hl).
  - apply (max_list_fmap_le (λ kv : nat * nat * cell, kv.1.2) _ _ Hl).
Qed.

Lemma iter_rows_lookup src i :
  _cells src ≠ ∅ →
  (i < ws_max_row src)%nat →
  iter_rows src !! i =
  Some ((λ col, cell_at src (1 + i) col) <$> seq 1 (ws_max_column src)).
Proof.
  intros Hcells Hi. unfold iter_rows. rewrite decide_False by done.
  rewrite list_lookup_fmap. by rewrite lookup_seq_lt.
Qed.

Lemma iter_rows_length src :
  _cells src ≠ ∅ → length (iter_rows src) = ws_max_row src.
Proof.
  intros Hcells. unfold iter_rows. rewrite decide_False by done.
  by rewrite length_fmap, length_seq.
Qed.

Lemma iter_rows_no_cells src : _cells src = ∅ → iter_rows src = [].
Proof. intros Hcells. unfold iter_rows. by rewrite decide_True. Qed.

(** After the cell loop, a fresh target shows the values of the source
    everywhere, provided the source counts its rows and columns from 1. *)
Lemma copy_rows_fresh src name :
  ∃ t', copy_rows (new_worksheet name) (enumerate 1 (iter_rows src)) = Ok t' ∧
        title t' = name ∧ merged_cells t' = [] ∧
        column_dimensions t' = ∅ ∧ row_dimensions t' = ∅ ∧
        (map_Forall (λ pos _, (1 ≤ pos.1 ∧ 1 ≤ pos.2)%nat) (_cells src) →
         ∀ r c, value_at t' r c = value_at src r c).
Proof.
  destruct (copy_rows_spec (iter_rows src) 1 (new_worksheet name))
    as (t' & Hrun & _ & Ht & Hm & Hc & Hr & Hout & Hin).
  { intros pos. cbn. by rewrite lookup_empty. }
  exists t'. split_and!; try done.
  intros Hkeys r c.
  assert (∀ r c, value_at (new_worksheet name) r c = VNone) as Hfresh.
  { intros r' c'. unfold value_at, cell_at. cbn. by rewrite lookup_empty. }
  destruct (decide (_cells src = ∅)) as [Hcells|Hcells].
  { rewrite (iter_rows_no_cells src Hcells) in Hrun. cbn in Hrun.
    injection Hrun as <-. rewrite Hfresh.
    unfold value_at, cell_at. by rewrite Hcells, lookup_empty. }
  rewrite iter_rows_length in Hout by done.
  assert ((1 ≤ r ≤ ws_max_row src ∧ 1 ≤ c ≤ ws_max_column src)%nat ∨
          _cells src !! (r, c) = None) as [[Hr' Hc']|Hnone].
  { destruct (_cells src !! (r, c)) as [x|] eqn:Hl; [left|by right].
    pose proof (ws_max_bounds _ _ _ _ Hl). apply Hkeys in Hl. cbn in Hl. lia. }
  - destruct (Hin (r - 1)%nat _ (iter_rows_lookup src (r - 1)%nat Hcells ltac:(lia)))
      as [_ Hcell].
    specialize (Hcell (c - 1)%nat (cell_at src r c)).
    replace (1 + (r - 1))%nat with r in Hcell by lia.
    replace (1 + (c - 1))%nat with c in Hcell by lia.
    rewrite Hcell.
    + unfold value_at at 2. destruct (cell_at src r c); [apply Hfresh|done].
    + rewrite list_lookup_fmap, lookup_seq_lt by lia. cbn.
      do 2 f_equal. lia.
  - transitivity VNone.
    2: { unfold value_at, cell_at. by rewrite Hnone. }
    destruct (decide (1 ≤ r ≤ ws_max_row src)%nat) as [Hr'|Hr'].
    2: { rewrite Hout by lia. apply Hfresh. }
    destruct (Hin (r - 1)%nat _ (iter_rows_lookup src (r - 1)%nat Hcells ltac:(lia)))
      as [Hcout Hcell].
    replace (1 + (r - 1))%nat with r in * by lia.
    destruct (decide (1 ≤ c ≤ ws_max_column src)%nat) as [Hc'|Hc'].
    2: { rewrite Hcout; [apply Hfresh|]. rewrite length_fmap, length_seq. lia. }
    specialize (Hcell (c - 1)%nat (cell_at src r c)).
    replace (1 + (c - 1))%nat with c in Hcell by lia.
    rewrite Hcell.
    + unfold cell_at. rewrite Hnone. done.
    + rewrite list_lookup_fmap, lookup_seq_lt by lia. cbn.
      do 2 f_equal. lia.
Qed.


Lemma foldl_insert_lookup {K} `{Countable K} {V} (x : V) (l : list K)
    (m : gmap K V) k :
  foldl (λ m p, <[p := x]> m) m l !! k =
  if decide (k ∈ l) then Some x else m !! k.
Proof.
  revert m. induction l as [|p l IH]; intros m; cbn.
  - rewrite decide_False; [done|]. apply not_elem_of_nil.
  - rewrite IH. destruct (decide (k ∈ l)) as [Hin|Hnin].
    + rewrite decide_True; [done|]. by right.
    + destruct (decide (k = p)) as [->|Hne].
      * rewrite lookup_insert_eq, decide_True; [done|]. left.
      * rewrite lookup_insert_ne by done. rewrite decide_False; [done|].
        by intros [?|?]%elem_of_cons.
Qed.

Lemma merge_cells_lookup t rg pos :
  _cells (merge_cells t rg) !! pos =
  if decide (pos ∈ tail (range_cells rg)) then Some MergedCell
  else _cells t !! pos.
Proof. unfold merge_cells. cbn. apply foldl_insert_lookup. Qed.

(** After the merge loop, the cells of the merged ranges other than their
    first cells have no value, and every other cell keeps its value. *)
Lemma merge_fold_value rgs : ∀ t r c,
  value_at (foldl merge_cells t rgs) r c =
  if decide (Exists (λ rg, (r, c) ∈ tail (range_cells rg)) rgs) then VNone
  else value_at t r c.
Proof.
  induction rgs as [|rg rgs IH]; intros t r c; cbn [foldl].
  - rewrite decide_False; [done|]. by intros ?%Exists_nil.
  - rewrite IH. destruct (decide (Exists _ rgs)) as [Hex|Hnex].
    + rewrite decide_True; [done|]. by right.
    + unfold value_at at 1, cell_at. rewrite merge_cells_lookup.
      destruct (decide ((r, c) ∈ tail (range_cells rg))) as [Hin|Hnin].
      * rewrite decide_True; [done|]. by left.
      * rewrite decide_False; [done|]. by intros [?|?]%Exists_cons.
Qed.

Lemma merge_fold_frame rgs : ∀ t,
  title (foldl merge_cells t rgs) = title t ∧
  column_dimensions (foldl merge_cells t rgs) = column_dimensions t ∧
  row_dimensions (foldl merge_cells t rgs) = row_dimensions t.
Proof.
  induction rgs as [|rg rgs IH]; intros t; cbn [foldl]; [done|].
  destruct (IH (merge_cells t rg)) as (-> & -> & ->). done.
Qed.

(** Every range of the source is recorded in the target when none of them
    is covered by a range recorded before it. *)
Lemma merge_fold_ranges rgs : ∀ t,
  (∀ a b, a ∈ merged_cells t → b ∈ rgs → range_issubset b a = false) →
  NoDup rgs →
  (∀ a b, a ∈ rgs → b ∈ rgs → a = b ∨ range_issubset a b = false) →
  merged_cells (foldl merge_cells t rgs) = merged_cells t ++ rgs.
Proof.
  induction rgs as [|rg rgs IH]; intros t Hold Hnd Hpair; cbn [foldl].
  { by rewrite app_nil_r. }
  apply NoDup_cons in Hnd as [Hnin Hnd].
  assert (merged_cells (merge_cells t rg) = merged_cells t ++ [rg]) as Hstep.
  { unfold merge_cells. cbn.
    destruct (existsb (range_issubset rg) (merged_cells t)) eqn:Hex; [|done].
    apply existsb_exists in Hex as (a & Ha & Hsub).
    apply list_elem_of_In in Ha. rewrite (Hold a rg Ha) in Hsub; [done|left]. }
  rewrite IH, Hstep, <- (assoc_L (++)); [done| |done|].
  - intros a b Ha Hb. rewrite Hstep in Ha.
    apply elem_of_app in Ha as [Ha|Ha].
    + apply Hold; [done|]. by right.
    + apply list_elem_of_singleton in Ha as ->.
      destruct (Hpair b rg) as [->|?]; [by right|left|done|done].
  - intros a b Ha Hb. apply Hpair; by right.
Qed.

Lemma dims_fold_frame t cols rws :
  let t' := foldl set_row_height (foldl set_column_width t cols) rws in
  title t' = title t ∧ _cells t' = _cells t ∧ merged_cells t' = merged_cells t.
Proof.
  cbn zeta. revert t cols. induction rws as [|rw rws IH] using rev_ind.
  - intros t cols. cbn. revert t.
    induction cols as [|cl cols IH] using rev_ind; intros t; [done|].
    rewrite foldl_app. cbn. apply IH.
  - intros t cols. rewrite foldl_app. cbn. apply IH.
Qed.

(** Copying into a new sheet never raises, and the copy keeps the title it
    was created with. *)
Lemma copy_sheet_data_fresh src name :
  ∃ t', _copy_sheet_data src (new_worksheet name) = Ok t' ∧ title t' = name ∧
        (valid_sheet src →
         (∀ r c, value_at t' r c = value_at src r c) ∧
         merged_cells t' = merged_cells src).
Proof.
  unfold _copy_sheet_data.
  destruct (copy_rows_fresh src name)
    as (t1 & -> & Ht1 & Hm1 & _ & _ & Hval).
  eexists. split; [done|].
  match goal with |- title ?t = _ ∧ _ => set (t' := t) end.
  destruct (dims_fold_frame (foldl merge_cells t1 (merged_cells src))
              (map_to_list (column_dimensions src))
              (map_to_list (row_dimensions src))) as (Ht & Hc & Hm).
  fold t' in Ht, Hc, Hm.
  destruct (merge_fold_frame (merged_cells src) t1) as (Ht2 & _ & _).
  split; [congruence|].
  intros (Hkeys & Hmerged & Hnd & Hpair). split.
  - intros r c. unfold value_at at 1, cell_at. rewrite Hc.
    fold (cell_at (foldl merge_cells t1 (merged_cells src)) r c).
    fold (value_at (foldl merge_cells t1 (merged_cells src)) r c).
    rewrite merge_fold_value. case_decide as Hex; [|by apply Hval].
    apply Exists_exists in Hex as (rg & Hrg & Hpos).
    rewrite Forall_forall in Hmerged. specialize (Hmerged rg Hrg).
    rewrite Forall_forall in Hmerged. specialize (Hmerged _ Hpos).
    unfold value_at, cell_at. by rewrite Hmerged.
  - rewrite Hm, merge_fold_ranges, Hm1; [done| |done|].
    + intros a b Ha. rewrite Hm1 in Ha. by apply elem_of_nil in Ha.
    + intros a b Ha Hb. rewrite Forall_forall in Hpair.
      specialize (Hpair a Ha). rewrite Forall_forall in Hpair. by apply Hpair.
Qed.

End CopySheet.

(** ** Sheet titles *)

Lemma invalid_title_chars_sheet (c : ascii) :
  c ∈ invalid_title_chars ↔ c ∈ sheet_invalid_chars.
Proof.
  assert (Forall (λ x, x ∈ sheet_invalid_chars) invalid_title_chars) as H1.
  { apply (bool_decide_unpack _). vm_compute. exact I. }
  assert (Forall (λ x, x ∈ invalid_title_chars) sheet_invalid_chars) as H2.
  { apply (bool_decide_unpack _). vm_compute. exact I. }
  rewrite Forall_forall in H1. rewrite Forall_forall in H2. split; auto.
Qed.

Lemma str_of_int_digits (n : Z) (c : ascii) :
  0 ≤ n → c ∈ Py.str_of_int n → (48 ≤ nat_of_ascii c ≤ 57)%nat.
Proof.
  intros Hn Hc. unfold Py.str_of_int in Hc. rewrite decide_False in Hc by lia.
  by apply digits_fuel_chars in Hc.
Qed.

Lemma str_of_int_nonempty (n : Z) : Py.str_of_int n ≠ [].
Proof.
  unfold Py.str_of_int. case_decide; [done|].
  cbn [Py.digits_fuel]. case_decide; [done|].
  intros Hnil. by apply app_eq_nil in Hnil as [_ ?].
Qed.

Lemma make_unique_keeps_valid wb name c :
  c ∈ sheet_invalid_chars → c ∉ name → c ∉ _make_unique_sheet_name wb name.
Proof.
  intros Hc Hname.
  destruct (make_unique_spec wb name) as [[_ ->]|(_ & k & Hk & -> & _)]; [done|].
  unfold suffixed_name. cbn zeta. intros Hin.
  apply elem_of_app in Hin as [Hin|Hin].
  { by apply slice_to_keeps_absent in Hin. }
  change (lit "_" ++ ?d) with ("_"%char :: d) in Hin.
  apply elem_of_cons in Hin as [->|Hin].
  { revert Hc. apply (bool_decide_unpack _). vm_compute. exact I. }
  apply str_of_int_digits in Hin; [|lia].
  assert (Forall (λ x, ¬ (48 ≤ nat_of_ascii x ≤ 57)%nat) sheet_invalid_chars)
    as Hcodes.
  { apply (bool_decide_unpack _). vm_compute. exact I. }
  rewrite Forall_forall in Hcodes. by apply (Hcodes c).
Qed.

(** [avoid_duplicate_name] returns the title or the title with a positive
    number appended. *)
Lemma avoid_duplicate_name_cases names value :
  avoid_duplicate_name names value = value ∨
  ∃ n, 1 ≤ n ∧ avoid_duplicate_name names value = value ++ Py.str_of_int n.
Proof.
  unfold avoid_duplicate_name. cbn zeta.
  case_decide; [by left|]. case_decide; [by left|]. right.
  eexists. split; [|reflexivity].
  set (counts := int_of_digits <$> _).
  assert (0 ≤ foldr Z.max 0 counts); [|lia].
  clear. induction counts as [|x counts IH]; cbn; lia.
Qed.

(** A title that differs from the titles present, also in its case, is
    kept. *)
Lemma avoid_duplicate_name_free names value :
  Py.lower value ∉ Py.lower <$> names →
  avoid_duplicate_name names value = value.
Proof.
  intros Hfree. unfold avoid_duplicate_name. cbn zeta.
  rewrite decide_True; [done|].
  induction names as [|n names IH]; [done|].
  rewrite fmap_cons in Hfree. apply not_elem_of_cons in Hfree as [Hne Hfree].
  rewrite filter_cons, decide_False by done. by apply IH.
Qed.

Lemma strip_prefix_nocase_app value s :
  strip_prefix_nocase value (value ++ s) = Some s.
Proof.
  induction value as [|v value IH]; [done|].
  cbn. by rewrite decide_True.
Qed.

(** The pattern is found when the joined titles start with the title. *)
Lemma findall_counts_head value s :
  value ≠ [] → findall_counts value 0 (value ++ s) ≠ [].
Proof.
  intros Hv. destruct value as [|v value]; [done|].
  change ((v :: value) ++ s) with (v :: (value ++ s)).
  cbn [findall_counts]. unfold match_title.
  change (v :: (value ++ s)) with ((v :: value) ++ s).
  by rewrite strip_prefix_nocase_app.
Qed.

Lemma join_comma_head n names :
  ∃ s, join_comma (n :: names) = n ++ s.
Proof.
  destruct names as [|m names]; cbn.
  - exists []. by rewrite app_nil_r.
  - by eexists.
Qed.

(** A title that a sheet of the workbook has is never kept, when that
    sheet is the first one. *)
Lemma avoid_duplicate_name_head value names :
  value ≠ [] →
  ∃ n, 1 ≤ n ∧
       avoid_duplicate_name (value :: names) value = value ++ Py.str_of_int n.
Proof.
  intros Hv.
  destruct (avoid_duplicate_name_cases (value :: names) value)
    as [Hsame|?]; [|done].
  exfalso. revert Hsame. unfold avoid_duplicate_name. cbn zeta.
  rewrite filter_cons.
  rewrite (decide_True (P := Py.lower value = Py.lower value)) by done.
  rewrite decide_False by done.
  destruct (join_comma_head value names) as [s ->].
  rewrite decide_False by (by apply findall_counts_head).
  intros Heq. apply (f_equal length) in Heq. rewrite length_app in Heq.
  pose proof (str_of_int_nonempty
                (foldr Z.max 0
                   (int_of_digits <$>
                      filter (λ idx, idx ≠ [])
                        (findall_counts value 0 (value ++ s))) + 1)) as Hne.
  destruct (Py.str_of_int _); [done|]. cbn [length] in Heq. lia.
Qed.

Lemma created_title_valid wb requested c :
  c ∈ sheet_invalid_chars → c ∉ requested → c ∉ created_title wb requested.
Proof.
  intros Hc Hreq. unfold created_title.
  set (value := if decide (requested = []) then lit "Sheet" else requested).
  assert (c ∉ value) as Hvalue.
  { unfold value. case_decide; [|done].
    assert (Forall (λ x, x ∉ sheet_invalid_chars) (lit "Sheet")) as Hsheet.
    { apply (bool_decide_unpack _). vm_compute. exact I. }
    rewrite Forall_forall in Hsheet. intros Hin. by apply (Hsheet c). }
  destruct (avoid_duplicate_name_cases (sheetnames wb) value)
    as [->|(n & Hn & ->)]; [done|].
  apply not_elem_of_app. split; [done|]. intros Hin.
  apply str_of_int_digits in Hin; [|lia].
  assert (Forall (λ x, ¬ (48 ≤ nat_of_ascii x ≤ 57)%nat) sheet_invalid_chars)
    as Hcodes.
  { apply (bool_decide_unpack _). vm_compute. exact I. }
  rewrite Forall_forall in Hcodes. by apply (Hcodes c).
Qed.

(** No new sheet gets the title of the placeholder while the placeholder
    is the first sheet. *)
Lemma created_title_not_placeholder wb requested :
  head (sheetnames wb) = Some (lit "Sheet") →
  requested ∉ sheetnames wb →
  created_title wb requested ≠ lit "Sheet".
Proof.
  intros Hhead Hfree. unfold created_title.
  destruct (sheetnames wb) as [|first names] eqn:Hnames; [done|].
  assert (first = lit "Sheet") as -> by (by injection Hhead).
  clear Hhead.
  assert (∀ value n, 1 ≤ n → value ++ Py.str_of_int n ≠ lit "Sheet") as Hdigit.
  { intros value n Hn Heq.
    assert (last (value ++ Py.str_of_int n) = Some "t"%char) as Hlast
      by (by rewrite Heq).
    pose proof (str_of_int_nonempty n) as Hne.
    destruct (Py.str_of_int n) as [|d ds] eqn:Hd using rev_ind; [done|].
    rewrite (assoc_L (++)), last_snoc in Hlast. injection Hlast as ->.
    assert ("t"%char ∈ Py.str_of_int n) as Hin.
    { rewrite Hd. apply elem_of_app. right. left. }
    apply str_of_int_digits in Hin; [|lia]. vm_compute in Hin. lia. }
  case_decide as Hreq.
  - destruct (avoid_duplicate_name_head (lit "Sheet") names ltac:(done))
      as (n & Hn & ->). by apply Hdigit.
  - destruct (avoid_duplicate_name_cases (lit "Sheet" :: names) requested)
      as [->|(n & Hn & ->)]; [|by apply Hdigit].
    intros ->. apply Hfree. left.
Qed.

(** [create_sheet] does not raise for a name without invalid characters;
    the new sheet is empty and has the title that the setter gives. *)
Lemma create_sheet_valid wb requested :
  (∀ c, c ∈ sheet_invalid_chars → c ∉ requested) →
  create_sheet wb requested =
  Ok ({| worksheets := worksheets wb
                       ++ [new_worksheet (created_title wb requested)] |},
      new_worksheet (created_title wb requested)).
Proof.
  intros Hvalid. unfold create_sheet, created_title, set_title.
  set (value := if decide (requested = []) then lit "Sheet" else requested).
  assert (value ≠ []) as Hne by (unfold value; by case_decide).
  assert (∀ c, c ∈ sheet_invalid_chars → c ∉ value) as Hvalue.
  { intros c Hc. unfold value. case_decide; [|by apply Hvalid].
    assert (Forall (λ x, x ∉ sheet_invalid_chars) (lit "Sheet")) as Hsheet.
    { apply (bool_decide_unpack _). vm_compute. exact I. }
    rewrite Forall_forall in Hsheet. intros Hin. by apply (Hsheet c). }
  destruct value as [|v value]; [done|].
  rewrite decide_False; [done|].
  intros (c & Hin & Hc)%Exists_exists.
  apply invalid_title_chars_sheet in Hc. by apply (Hvalue c).
Qed.

Lemma requested_name_valid names idx path swb wb src c :
  c ∈ sheet_invalid_chars → c ∉ requested_name names idx path swb wb src.
Proof.
  intros Hc. apply make_unique_keeps_valid; [done|].
  by apply sanitize_sheet_name_clean.
Qed.

(** ** Running the loops *)

Section Runs.

Variable self : FileManager.
Variable serialize : workbook → list Byte.byte.

Lemma extends_refl w : extends w w [] [].
Proof. unfold extends. by rewrite !app_nil_r. Qed.

Lemma extends_trans w1 w2 w3 tr1 tr2 lg1 lg2 :
  extends w1 w2 tr1 lg1 → extends w2 w3 tr2 lg2 →
  extends w1 w3 (tr1 ++ tr2) (lg1 ++ lg2).
Proof.
  intros (? & ? & Ht1 & Hl1) (? & ? & Ht2 & Hl2). unfold extends.
  rewrite Ht2, Ht1, Hl2, Hl1, !(assoc_L (++)). split_and!; congruence.
Qed.

Lemma sheet_step_sheets names idx path swb acc src :
  ∃ copied,
    worksheets (sheet_step names idx path swb acc src).1 =
      worksheets acc.1 ++ [copied] ∧
    (sheet_step names idx path swb acc src).2 = S acc.2 ∧
    title copied =
      created_title acc.1 (requested_name names idx path swb acc.1 src) ∧
    (valid_sheet src →
     (∀ r c, value_at copied r c = value_at src r c) ∧
     merged_cells copied = merged_cells src).
Proof.
  unfold sheet_step. cbn zeta.
  set (name := created_title _ _).
  destruct (copy_sheet_data_fresh src name) as (t' & -> & Ht & Hv).
  exists t'. cbn. by split_and!.
Qed.

Lemma copy_one_sheet_run names idx path swb acc src w :
  ∃ w' lg,
    copy_one_sheet names idx path swb acc src w =
      (Ok (sheet_step names idx path swb acc src), w') ∧
    extends w w' [] lg ∧ Forall (λ e, lvl e = Debug) lg.
Proof.
  destruct acc as [wb n]. unfold copy_one_sheet, sheet_step. cbn zeta.
  fold (requested_name names idx path swb wb src). cbn [fst snd].
  rewrite create_sheet_valid
    by (intros c Hc; by apply requested_name_valid).
  set (name := created_title _ _).
  destruct (copy_sheet_data_fresh src name) as (t' & Hcopy & _).
  unfold lift at 1, ret at 1, bind at 1. unfold bind at 1. rewrite Hcopy.
  unfold lift, ret, bind, logger. cbn [fst snd].
  eexists _, [_]. split.
  { f_equal. f_equal. unfold set_sheet. cbn [worksheets]. f_equal.
    rewrite insert_app_r_alt by lia. by rewrite Nat.sub_diag. }
  split.
  - unfold extends. cbn. by rewrite app_nil_r.
  - by repeat constructor.
Qed.

Lemma sheets_loop_run names idx path swb sheets : ∀ acc w,
  ∃ w' lg,
    sheets_loop names idx path swb sheets acc w =
      (Ok (foldl (sheet_step names idx path swb) acc sheets), w') ∧
    extends w w' [] lg ∧ Forall (λ e, lvl e = Debug) lg.
Proof.
  induction sheets as [|src sheets IH]; intros acc w.
  { exists w, []. split; [done|]. split; [apply extends_refl|done]. }
  destruct (copy_one_sheet_run names idx path swb acc src w)
    as (w1 & lg1 & Hrun1 & Hext1 & Hlg1).
  destruct (IH (sheet_step names idx path swb acc src) w1)
    as (w2 & lg2 & Hrun2 & Hext2 & Hlg2).
  exists w2, (lg1 ++ lg2). split_and!.
  - cbn [sheets_loop foldl]. unfold bind at 1. by rewrite Hrun1.
  - apply (extends_trans _ _ _ [] [] _ _ Hext1 Hext2).
  - by apply Forall_app.
Qed.


Lemma load_workbook_run idx path w :
  ∃ w',
    match fs w !! path with
    | None =>
        load_workbook idx path w = (Raise (FileNotFoundError path), w') ∧
        extends w w' [ELoad path] []
    | Some f =>
        match book f with
        | None =>
            load_workbook idx path w = (Raise (InvalidFileException path), w') ∧
            extends w w' [ELoad path] []
        | Some wb =>
            load_workbook idx path w = (Ok wb, w') ∧
            extends w w' [ELoad path; EOpened (HSource idx)] []
        end
    end.
Proof.
  unfold load_workbook, bind, emit, get_fs, raise, ret, extends. cbn.
  destruct (fs w !! path) as [f|]; [destruct (book f)|];
    eexists; (split; [reflexivity|]); cbn;
    rewrite ?app_nil_r, <- ?(assoc_L (++)); done.
Qed.

Lemma files_loop_run names todo : ∀ acc w,
  ∃ w' lg,
    files_loop names todo acc w = ((files_pure names (fs w) todo acc).1, w') ∧
    extends w w' (files_pure names (fs w) todo acc).2 lg ∧
    Forall (λ e, lvl e = Debug ∨ lvl e = Error) lg ∧
    (is_ok (files_pure names (fs w) todo acc).1 = true →
     Forall (λ e, lvl e = Debug) lg).
Proof.
  induction todo as [|[idx path] todo IH]; intros acc w.
  { exists w, []. cbn. split_and!; try done. apply extends_refl. }
  cbn [files_loop files_pure].
  destruct (load_workbook_run idx path w) as (w1 & Hload).
  destruct (fs w !! path) as [f|] eqn:Hf; [destruct (book f) as [swb|] eqn:Hb|].
  - destruct Hload as [Hload Hext1].
    destruct (sheets_loop_run names idx path swb (worksheets swb) acc w1)
      as (w2 & lg2 & Hrun2 & Hext2 & Hlg2).
    set (acc' := foldl _ acc _) in *.
    pose (w2' := {| fs := fs w2; now := now w2; log := log w2;
                    trace := trace w2 ++ [EClosed (HSource idx)] |}).
    destruct (IH acc' w2') as (w3 & lg3 & Hrun3 & Hext3 & Hlg3 & Hok3).
    assert (fs w2' = fs w) as Hfs.
    { destruct Hext1 as (? & _), Hext2 as (? & _). cbn. congruence. }
    rewrite Hfs in Hrun3, Hext3, Hok3.
    destruct (files_pure names (fs w) todo acc') as [r tr] eqn:Hpure.
    exists w3, (lg2 ++ lg3). cbn [fst snd] in *. split_and!.
    + unfold bind at 1, try_except. unfold bind at 1. rewrite Hload.
      unfold bind at 1. rewrite Hrun2. unfold bind at 1, wb_close, emit, ret.
      cbn. exact Hrun3.
    + destruct Hext1 as (? & ? & Ht1 & Hl1), Hext2 as (? & ? & Ht2 & Hl2),
        Hext3 as (? & ? & Ht3 & Hl3). subst w2'. cbn in *. unfold extends.
      rewrite Ht3, Ht2, Ht1, Hl3, Hl2, Hl1, ?app_nil_r, <- !(assoc_L (++)).
      cbn. split_and!; congruence.
    + apply Forall_app. split; [|done].
      eapply Forall_impl; [done|]. intros; by left.
    + intros Hok. apply Forall_app. split; [done|]. by apply Hok3.
  - destruct Hload as [Hload Hext1].
    eexists _, [_]. cbn [fst snd]. split_and!.
    + unfold bind at 1, try_except. unfold bind at 1. rewrite Hload.
      unfold bind, logger, raise. cbn. reflexivity.
    + destruct Hext1 as (? & ? & Ht1 & Hl1). unfold extends. cbn.
      rewrite Hl1, app_nil_r. done.
    + apply Forall_singleton. by right.
    + done.
  - destruct Hload as [Hload Hext1].
    eexists _, [_]. cbn [fst snd]. split_and!.
    + unfold bind at 1, try_except. unfold bind at 1. rewrite Hload.
      unfold bind, logger, raise. cbn. reflexivity.
    + destruct Hext1 as (? & ? & Ht1 & Hl1). unfold extends. cbn.
      rewrite Hl1, app_nil_r. done.
    + apply Forall_singleton. by right.
    + done.
Qed.

Lemma check_paths_run paths : ∀ w,
  ∃ w',
    check_paths paths w = ((check_pure (fs w) paths).1, w') ∧
    extends w w' (check_pure (fs w) paths).2 [].
Proof.
  induction paths as [|path paths IH]; intros w.
  { exists w. split; [done|apply extends_refl]. }
  cbn [check_paths check_pure].
  destruct (IH {| fs := fs w; now := now w; log := log w;
                  trace := trace w ++ [EExists path] |})
    as (w1 & Hrun1 & Hext1). cbn [fs] in *.
  unfold bind, os_path_exists, emit, get_fs, ret, raise. cbn.
  destruct (fs w !! path) as [f|] eqn:Hf.
  - rewrite bool_decide_eq_true_2 by (by eexists). cbn.
    destruct (check_pure (fs w) paths) as [r tr]. cbn [fst snd] in *.
    exists w1. split; [done|].
    destruct Hext1 as (? & ? & Ht & Hl). unfold extends. cbn in *.
    rewrite Ht, <- (assoc_L (++)). done.
  - rewrite bool_decide_eq_false_2 by (by intros [? ?]). cbn.
    eexists. split; [reflexivity|]. unfold extends. cbn.
    by rewrite app_nil_r.
Qed.


(** What [consolidate_excel_files] does, case by case: the existence checks
    fail, or a source fails to load, or the output is saved. *)
Lemma consolidate_run paths out names w :
  paths ≠ [] →
  let outp := Py.path_join (download_dir self) out in
  match check_pure (fs w) paths with
  | (Raise e, tr) =>
      ∃ w', consolidate_excel_files self serialize paths out names w
              = (Raise e, w') ∧
            extends w w' tr []
  | (Ok _, tr1) =>
      match files_pure names (fs w) (enumerate 0 paths) (Workbook, 0%nat) with
      | (Raise e, tr2) =>
          ∃ w' lg, consolidate_excel_files self serialize paths out names w
                     = (Raise e, w') ∧
                   extends w w' (tr1 ++ EOpened HOutput :: tr2) lg
      | (Ok (wb, n), tr2) =>
          ∃ w' lg, consolidate_excel_files self serialize paths out names w
                     = (Ok outp, w') ∧
                   fs w' = <[outp := saved_file serialize
                                       (remove_placeholder wb 0 n) (now w)]>
                             (fs w) ∧
                   now w' = now w ∧
                   trace w' = trace w ++ tr1 ++ EOpened HOutput :: tr2 ++
                                [ESave outp; EClosed HOutput] ∧
                   log w' = log w ++ lg ∧
                   Forall (λ e, lvl e = Debug ∨ lvl e = Info) lg
      end
  end.
Proof.
  intros Hne outp. unfold consolidate_excel_files.
  rewrite decide_False by done.
  destruct (check_paths_run paths w) as (w1 & Hrun1 & Hext1).
  pose (w1' := {| fs := fs w1; now := now w1;
                  log := log w1 ++ [{| lvl := Info;
                                       event := lit "Consolidating Excel files";
                                       subject := out |}];
                  trace := trace w1 ++ [EOpened HOutput] |}).
  destruct (files_loop_run names (enumerate 0 paths) (Workbook, 0%nat) w1')
    as (w2 & lg2 & Hrun2 & Hext2 & Hlg2 & Hok2).
  destruct Hext1 as (Hfs1 & Hnow1 & Ht1 & Hl1).
  destruct Hext2 as (Hfs2 & Hnow2 & Ht2 & Hl2).
  assert (fs w1' = fs w) as Hfs by done.
  rewrite Hfs in Hrun2, Ht2, Hok2.
  assert (∀ B (k : () → M B), bind (check_paths paths) k w
               = match (check_pure (fs w) paths).1 with
                 | Ok a => k a w1
                 | Raise e => (Raise e, w1)
                 end) as Hbind1.
  { intros B k. unfold bind. by rewrite Hrun1. }
  rewrite Hbind1. clear Hbind1 Hrun1.
  destruct (check_pure (fs w) paths) as [[[]|e] tr1]; cbn [fst snd] in *.
  2: { exists w1. split; [done|]. unfold extends. by rewrite Hl1. }
  assert (∀ B (k : workbook * nat → M B),
            bind (logger Info (lit "Consolidating Excel files") out)
                 (λ _, bind new_workbook
                         (λ output_wb,
                            bind (files_loop names (enumerate 0 paths)
                                    (output_wb, 0%nat)) k)) w1
               = match (files_pure names (fs w) (enumerate 0 paths)
                          (Workbook, 0%nat)).1 with
                 | Ok a => k a w2
                 | Raise e => (Raise e, w2)
                 end) as Hbind2.
  { intros B k.
    transitivity
      (match files_loop names (enumerate 0 paths) (Workbook, 0%nat) w1' with
       | (Ok a, w') => k a w'
       | (Raise e, w') => (Raise e, w')
       end); [reflexivity|].
    by rewrite Hrun2. }
  rewrite Hbind2. clear Hbind2 Hrun2.
  cbn in Hfs2, Hnow2, Ht2, Hl2.
  destruct (files_pure names (fs w) (enumerate 0 paths) (Workbook, 0%nat))
    as [[[wb n]|e] tr2]; cbn [fst snd] in *.
  - unfold bind, wb_save, wb_close, emit, get_now, set_fs, logger, ret. cbn.
    eexists _, (_ :: lg2 ++ [_]). split; [reflexivity|]. cbn.
    rewrite Hfs2, Hfs1, Hnow2, Hnow1, Ht2, Ht1, Hl2, Hl1.
    rewrite ?app_nil_r, <- ?(assoc_L (++)). cbn.
    split; [done|]. split; [done|]. split; [done|]. split; [reflexivity|].
    apply Forall_cons. split; [by right|]. apply Forall_app. split.
    + eapply Forall_impl; [by apply Hok2|]. intros; by left.
    + apply Forall_singleton. by right.
  - eexists _, (_ :: lg2). split; [reflexivity|].
    unfold extends. rewrite Hfs2, Hnow2, Ht2, Hl2, Ht1, Hl1.
    rewrite ?app_nil_r, <- ?(assoc_L (++)). cbn.
    split; [done|]. split; [done|]. split; [done|]. reflexivity.
Qed.


Lemma consolidate_empty out names w :
  consolidate_excel_files self serialize [] out names w
  = (Raise (ValueError (lit "No files provided for consolidation")), w).
Proof. reflexivity. Qed.

(** A successful run: the checks passed, every source loaded, and the
    output was saved last. *)
Lemma consolidate_ok_inv paths out names w p w' :
  consolidate_excel_files self serialize paths out names w = (Ok p, w') →
  let outp := Py.path_join (download_dir self) out in
  ∃ wb n tr1 tr2 lg,
    paths ≠ [] ∧ p = outp ∧
    check_pure (fs w) paths = (Ok (), tr1) ∧
    files_pure names (fs w) (enumerate 0 paths) (Workbook, 0%nat)
      = (Ok (wb, n), tr2) ∧
    fs w' = <[outp := saved_file serialize (remove_placeholder wb 0 n) (now w)]>
              (fs w) ∧
    trace w' = trace w ++ tr1 ++ EOpened HOutput :: tr2 ++
                 [ESave outp; EClosed HOutput] ∧
    log w' = log w ++ lg ∧
    Forall (λ e, lvl e = Debug ∨ lvl e = Info) lg.
Proof.
  intros Hrun outp.
  destruct paths as [|path paths]; [by rewrite consolidate_empty in Hrun|].
  pose proof (consolidate_run (path :: paths) out names w ltac:(done)) as Hc.
  cbn zeta in Hc.
  destruct (check_pure (fs w) (path :: paths)) as [[[]|e] tr1].
  2: { destruct Hc as (? & Hc & _). congruence. }
  destruct (files_pure names (fs w) (enumerate 0 (path :: paths))
              (Workbook, 0%nat)) as [[[wb n]|e] tr2].
  2: { destruct Hc as (? & ? & Hc & _). congruence. }
  destruct Hc as (w2 & lg & Hc & Hfs & _ & Htr & Hlog & Hlg).
  rewrite Hrun in Hc. injection Hc as -> ->.
  exists wb, n, tr1, tr2, lg. split_and!; done.
Qed.

(** A failed run leaves the files as they were. *)
Lemma consolidate_raise_inv paths out names w e w' :
  consolidate_excel_files self serialize paths out names w = (Raise e, w') →
  fs w' = fs w ∧
  ∃ tr, trace w' = trace w ++ tr ∧
        ((paths = [] ∧ tr = []) ∨
         (check_pure (fs w) paths = (Raise e, tr)) ∨
         (∃ tr1 tr2, check_pure (fs w) paths = (Ok (), tr1) ∧
                     files_pure names (fs w) (enumerate 0 paths)
                       (Workbook, 0%nat) = (Raise e, tr2) ∧
                     tr = tr1 ++ EOpened HOutput :: tr2)).
Proof.
  intros Hrun.
  destruct paths as [|path paths].
  { rewrite consolidate_empty in Hrun. injection Hrun as <- <-.
    split; [done|]. exists []. rewrite app_nil_r. split; [done|]. by left. }
  pose proof (consolidate_run (path :: paths) out names w ltac:(done)) as Hc.
  cbn zeta in Hc.
  destruct (check_pure (fs w) (path :: paths)) as [[[]|e1] tr1].
  2: { destruct Hc as (w2 & Hc & Hfs & _ & Htr & _).
       rewrite Hrun in Hc. injection Hc as -> ->.
       split; [done|]. exists tr1. split; [done|]. right. by left. }
  destruct (files_pure names (fs w) (enumerate 0 (path :: paths))
              (Workbook, 0%nat)) as [[[wb n]|e2] tr2].
  { destruct Hc as (? & ? & Hc & _). congruence. }
  destruct Hc as (w2 & lg & Hc & Hfs & _ & Htr & _).
  rewrite Hrun in Hc. injection Hc as -> ->.
  split; [done|]. eexists. split; [done|]. right. right. by eexists _, _.
Qed.

End Runs.

(** ** Round trip of a single sheet *)

Section RoundTrip.

Variable self : FileManager.
Variable serialize : workbook → list Byte.byte.

(** C1: consolidating one valid source document that has exactly one sheet
    succeeds, and the output document then holds exactly one sheet, which
    shows the same value as the source sheet at every (row, column) and
    has the same merged ranges. *)
Theorem consolidate_single_sheet_roundtrip
    (path out : str) (names : option (list str)) (w : world)
    (f : fnode) (src : worksheet) :
  fs w !! path = Some f →
  book f = Some {| worksheets := [src] |} →
  valid_sheet src →
  ∃ w' copied,
    consolidate_excel_files self serialize [path] out names w
      = (Ok (Py.path_join (download_dir self) out), w') ∧
    (fs w' !! Py.path_join (download_dir self) out) ≫= book
      = Some {| worksheets := [copied] |} ∧
    (∀ r c, value_at copied r c = value_at src r c) ∧
    (∀ rg, rg ∈ merged_cells copied ↔ rg ∈ merged_cells src).
Proof.
  intros Hf Hbook Hvalid.
  pose proof (consolidate_run self serialize [path] out names w
                ltac:(done)) as Hrun.
  cbn [check_pure enumerate files_pure] in Hrun. cbn zeta in Hrun.
  rewrite Hf, Hbook in Hrun. cbn [worksheets foldl] in Hrun.
  destruct (sheet_step_sheets names 0 path {| worksheets := [src] |}
              (Workbook, 0%nat) src) as (copied & Hws & Hn & _ & Hcopy).
  destruct (sheet_step names 0 path {| worksheets := [src] |}
              (Workbook, 0%nat) src) as [wb n].
  cbn [fst snd] in Hws, Hn.
  destruct Hrun as (w' & lg & Hrun & Hfs & _).
  destruct (Hcopy Hvalid) as [Hval Hmerged].
  exists w', copied. split; [done|]. split; [|split; [done|]].
  - rewrite Hfs, lookup_insert_eq. cbn. f_equal.
    unfold remove_placeholder. destruct wb as [sheets]. cbn in *.
    subst sheets n. rewrite decide_True by (split; [lia|done]). done.
  - intros rg. by rewrite Hmerged.
Qed.

End RoundTrip.

Lemma consolidate_single_sheet_roundtrip_witness :
  ∃ w' copied,
    consolidate_excel_files Sample.fm Sample.serialize [Sample.report_a]
      (lit "out.xlsx") None Sample.world0
      = (Ok (lit "/app/downloads/out.xlsx"), w') ∧
    (fs w' !! lit "/app/downloads/out.xlsx") ≫= book
      = Some {| worksheets := [copied] |} ∧
    (∀ r c, value_at copied r c = value_at Sample.data_sheet r c) ∧
    (∀ rg, rg ∈ merged_cells copied ↔ rg ∈ merged_cells Sample.data_sheet).
Proof.
  apply (consolidate_single_sheet_roundtrip Sample.fm Sample.serialize
           Sample.report_a (lit "out.xlsx") None Sample.world0
           (Sample.xlsx_file {| worksheets := [Sample.data_sheet] |} 100)
           Sample.data_sheet).
  - vm_compute. reflexivity.
  - reflexivity.
  - apply (bool_decide_unpack _). vm_compute. exact I.
Defined.

(** ** Sheet names of a consolidated workbook *)

Section SheetNames.

Variable self : FileManager.
Variable serialize : workbook → list Byte.byte.

(** The sheet loop appends one sheet per source sheet; no new sheet has
    the title of the placeholder or a character that a title must not
    have. *)
Lemma sheets_fold_names names idx path swb0 sheets : ∀ acc,
  let acc' := foldl (sheet_step names idx path swb0) acc sheets in
  ∃ created,
    worksheets acc'.1 = worksheets acc.1 ++ created ∧
    acc'.2 = (acc.2 + length created)%nat ∧
    length created = length sheets ∧
    (head (sheetnames acc.1) = Some (lit "Sheet") →
     lit "Sheet" ∉ title <$> created) ∧
    Forall (λ t, ∀ c, c ∈ sheet_invalid_chars → c ∉ t) (title <$> created).
Proof.
  induction sheets as [|src sheets IH]; intros acc; cbn zeta.
  { exists []. cbn. rewrite app_nil_r, Nat.add_0_r. split_and!; try done.
    intros _. apply not_elem_of_nil. }
  cbn [foldl].
  destruct (sheet_step_sheets names idx path swb0 acc src)
    as (copied & Hws & Hn & Ht & _).
  set (acc1 := sheet_step names idx path swb0 acc src) in *.
  destruct (IH acc1) as (created & Hws' & Hn' & Hlen' & Hph' & Hvalid').
  exists (copied :: created).
  assert (sheetnames acc1.1 = sheetnames acc.1 ++ [title copied]) as Hnames.
  { unfold sheetnames. by rewrite Hws, fmap_app. }
  split_and!.
  - by rewrite Hws', Hws, <- (assoc_L (++)).
  - rewrite Hn', Hn. cbn [length]. lia.
  - cbn [length]. by rewrite Hlen'.
  - intros Hhead. rewrite fmap_cons. apply not_elem_of_cons. split.
    + rewrite Ht. intros Heq. symmetry in Heq. revert Heq.
      apply created_title_not_placeholder; [done|].
      apply make_unique_fresh.
    + apply Hph'. rewrite Hnames.
      by destruct (sheetnames acc.1).
  - rewrite fmap_cons. apply Forall_cons. split; [|done].
    intros c Hc. rewrite Ht. apply created_title_valid; [done|].
    by apply requested_name_valid.
Qed.

Lemma files_pure_names names files todo : ∀ acc r tr,
  files_pure names files todo acc = (Ok r, tr) →
  ∃ created,
    worksheets r.1 = worksheets acc.1 ++ created ∧
    r.2 = (acc.2 + length created)%nat ∧
    length created = length (job_candidates names files todo) ∧
    (head (sheetnames acc.1) = Some (lit "Sheet") →
     lit "Sheet" ∉ title <$> created) ∧
    Forall (λ t, ∀ c, c ∈ sheet_invalid_chars → c ∉ t) (title <$> created).
Proof.
  induction todo as [|[idx path] todo IH]; intros acc r tr Hrun.
  { cbn in Hrun. injection Hrun as <- <-. exists []. cbn.
    rewrite app_nil_r, Nat.add_0_r. split_and!; try done.
    intros _. apply not_elem_of_nil. }
  cbn [files_pure] in Hrun. unfold job_candidates. rewrite bind_cons.
  fold (job_candidates names files todo).
  destruct (files !! path) as [f|]; [|done]. cbn [mbind option_bind].
  destruct (book f) as [swb|]; [|done].
  destruct (sheets_fold_names names idx path swb (worksheets swb) acc)
    as (created1 & Hws1 & Hn1 & Hlen1 & Hph1 & Hvalid1).
  set (acc1 := foldl _ acc _) in *.
  destruct (files_pure names files todo acc1) as [r2 tr2] eqn:Hrest.
  injection Hrun as -> <-.
  destruct (IH acc1 r tr2 Hrest)
    as (created2 & Hws2 & Hn2 & Hlen2 & Hph2 & Hvalid2).
  exists (created1 ++ created2). split_and!.
  - by rewrite Hws2, Hws1, <- (assoc_L (++)).
  - rewrite Hn2, Hn1, length_app. lia.
  - by rewrite !length_app, length_fmap, Hlen1, Hlen2.
  - intros Hhead. rewrite fmap_app. apply not_elem_of_app. split; [auto|].
    apply Hph2. unfold sheetnames. rewrite Hws1, fmap_app.
    unfold sheetnames in Hhead. by destruct (title <$> worksheets acc.1).
  - rewrite fmap_app. by apply Forall_app.
Qed.

Lemma remove_placeholder_spec wb created :
  worksheets wb = new_worksheet (lit "Sheet") :: created →
  worksheets (remove_placeholder wb 0 (length created)) =
  if decide (created = []) then [new_worksheet (lit "Sheet")] else created.
Proof.
  intros Hws. unfold remove_placeholder. rewrite Hws. cbn.
  destruct created as [|x created]; cbn.
  - rewrite decide_False by lia. by rewrite decide_True.
  - rewrite decide_True by (split; [lia|done]).
    rewrite decide_False by done. cbn. by rewrite Hws.
Qed.

End SheetNames.

(** C2 fails for names that differ only in their case, and for an empty
    name.  With the prefixes [Quarterly/Activity:Statement_AU_2026] and
    [quarterly_activity_statement_au] for two sources of one sheet each,
    the rule gives the names [Quarterly_Activity_Statement_AU] and
    [quarterly_activity_statement_au]: the second is free among the names
    present.  [_make_unique_sheet_name] agrees and asks for it, but the
    workbook compares titles without regard to case and appends a digit
    on its own: the second sheet of the output is
    [quarterly_activity_statement_au1], a name of 32 characters.  With an
    empty prefix for a source of one sheet the rule gives the empty name,
    and the sheet of the output is [Sheet1]. *)
Theorem case_collision_breaks_sheet_names :
  let prefixes := [lit "Quarterly/Activity:Statement_AU_2026";
                   lit "quarterly_activity_statement_au"] in
  let job := consolidate_excel_files Sample.fm Sample.serialize
               [Sample.report_a; Sample.report_b] (lit "out.xlsx")
               (Some prefixes) Sample.world0 in
  let unnamed := consolidate_excel_files Sample.fm Sample.serialize
                   [Sample.report_a] (lit "out.xlsx") (Some [[]])
                   Sample.world0 in
  job.1 = Ok (lit "/app/downloads/out.xlsx") ∧
  spec_names [lit "Sheet"]
    (spec_sheet_name <$>
       job_candidates (Some prefixes) (fs Sample.world0)
         (enumerate 0 [Sample.report_a; Sample.report_b]))
    [lit "Quarterly_Activity_Statement_AU";
     lit "quarterly_activity_statement_au"] ∧
  sheetnames <$> ((fs job.2 !! lit "/app/downloads/out.xlsx") ≫= book)
  = Some [lit "Quarterly_Activity_Statement_AU";
          lit "quarterly_activity_statement_au1"] ∧
  Py.len (lit "quarterly_activity_statement_au1") = 32 ∧
  unnamed.1 = Ok (lit "/app/downloads/out.xlsx") ∧
  spec_names [lit "Sheet"]
    (spec_sheet_name <$>
       job_candidates (Some [[]]) (fs Sample.world0)
         (enumerate 0 [Sample.report_a]))
    [[]] ∧
  sheetnames <$> ((fs unnamed.2 !! lit "/app/downloads/out.xlsx") ≫= book)
  = Some [lit "Sheet1"].
Proof.
  cbn zeta. split_and!.
  - vm_compute. reflexivity.
  - match goal with
    | |- spec_names _ ?c _ =>
        let c' := eval vm_compute in c in change c with c'
    end.
    cbn [spec_names]. split; [|split; [|exact I]]; left.
    + split; [|reflexivity]. apply (bool_decide_unpack _). vm_compute. exact I.
    + split; [|reflexivity]. apply (bool_decide_unpack _). vm_compute. exact I.
  - vm_compute. reflexivity.
  - vm_compute. reflexivity.
  - vm_compute. reflexivity.
  - match goal with
    | |- spec_names _ ?c _ =>
        let c' := eval vm_compute in c in change c with c'
    end.
    cbn [spec_names]. split; [|exact I]. left.
    split; [|reflexivity]. apply (bool_decide_unpack _). vm_compute. exact I.
  - vm_compute. reflexivity.
Qed.

(** The scenario of two reports with a sheet [Data] each: without
    prefixes the output has the sheets [report_a_Data] and
    [report_b_Data]; with the prefix [Data] for both, the second copy
    gets the first free suffix. *)
Example two_reports_without_prefixes :
  let run := consolidate_excel_files Sample.fm Sample.serialize
               [Sample.report_a; Sample.report_b] (lit "out.xlsx") None
               Sample.world0 in
  sheetnames <$> ((fs run.2 !! lit "/app/downloads/out.xlsx") ≫= book)
  = Some [lit "report_a_Data"; lit "report_b_Data"].
Proof. vm_compute. reflexivity. Qed.

Example two_reports_with_equal_prefixes :
  let run := consolidate_excel_files Sample.fm Sample.serialize
               [Sample.report_a; Sample.report_b] (lit "out.xlsx")
               (Some [lit "Data"; lit "Data"]) Sample.world0 in
  sheetnames <$> ((fs run.2 !! lit "/app/downloads/out.xlsx") ≫= book)
  = Some [lit "Data"; lit "Data_1"].
Proof. vm_compute. reflexivity. Qed.

Example suffixed_name_cuts_base :
  suffixed_name (lit "abcdefghijabcdefghijabcdefghijk") 12
  = lit "abcdefghijabcdefghijabcdefgh_12".
Proof. vm_compute. reflexivity. Qed.

(** ** Failures of a consolidation job *)

Section Failures.

Variable self : FileManager.
Variable serialize : workbook → list Byte.byte.

Lemma check_pure_all files paths :
  (∀ q, q ∈ paths → is_Some (files !! q)) →
  check_pure files paths = (Ok (), EExists <$> paths).
Proof.
  induction paths as [|path paths IH]; intros Hall; [done|].
  cbn. destruct (Hall path) as [f ->]; [left|].
  rewrite IH; [done|]. intros q Hq. apply Hall. by right.
Qed.

Lemma check_pure_missing files before p after :
  (∀ q, q ∈ before → is_Some (files !! q)) → files !! p = None →
  check_pure files (before ++ p :: after)
  = (Raise (FileNotFoundError p), EExists <$> before ++ [p]).
Proof.
  induction before as [|path before IH]; intros Hall Hp; cbn.
  { by rewrite Hp. }
  destruct (Hall path) as [f ->]; [left|].
  rewrite IH; [done| |done]. intros q Hq. apply Hall. by right.
Qed.

Lemma check_pure_trace files paths :
  Forall (λ e, is_document_io e = false) (check_pure files paths).2.
Proof.
  induction paths as [|path paths IH]; cbn; [done|].
  destruct (files !! path); [|by apply Forall_singleton].
  destruct (check_pure files paths) as [r tr]. cbn in *.
  by apply Forall_cons.
Qed.

(** The file loop saves nothing, and it closes every source that it
    opened, whether it ends well or not. *)
Lemma files_pure_trace names files todo : ∀ acc,
  Forall (λ e, is_save e = false ∧ is_document_io e = true)
         (files_pure names files todo acc).2 ∧
  ∀ opened, (∀ i, HSource i ∉ opened) →
            foldl handle_step opened (files_pure names files todo acc).2
            = opened.
Proof.
  induction todo as [|[idx path] todo IH]; intros acc; [done|].
  cbn [files_pure].
  destruct (files !! path) as [f|]; [|split; [by apply Forall_singleton|done]].
  destruct (book f) as [swb|]; [|split; [by apply Forall_singleton|done]].
  set (acc1 := foldl _ acc _).
  destruct (IH acc1) as [Hsave Hopen].
  destruct (files_pure names files todo acc1) as [r tr]. cbn [snd] in *.
  split.
  - by repeat (apply Forall_cons; split; [done|]).
  - intros opened Hfree. cbn [foldl app handle_step].
    assert (close_handle (HSource idx) (opened ++ [HSource idx]) = opened)
      as ->; [|by apply Hopen].
    clear -Hfree. induction opened as [|h opened IH]; cbn.
    + by rewrite decide_True.
    + rewrite decide_False.
      * f_equal. apply IH. intros i Hi. apply (Hfree i). by right.
      * intros ->. apply (Hfree idx). left.
Qed.

Lemma files_pure_corrupt names files before p f after : ∀ k acc,
  (∀ q, q ∈ before → ∃ g, files !! q = Some g ∧ is_Some (book g)) →
  files !! p = Some f → book f = None →
  (files_pure names files (enumerate k (before ++ p :: after)) acc).1
  = Raise (InvalidFileException p).
Proof.
  induction before as [|path before IH]; intros k acc Hall Hp Hb.
  { cbn. by rewrite Hp, Hb. }
  cbn [app enumerate files_pure].
  destruct (Hall path) as (g & -> & [swb ->]); [left|].
  set (acc1 := foldl _ acc _).
  specialize (IH (S k) acc1).
  destruct (files_pure names files (enumerate (S k) (before ++ p :: after)) acc1)
    as [r tr]. cbn [fst] in *. apply IH; [|done..].
  intros q Hq. apply Hall. by right.
Qed.

Lemma open_handles_checks paths tr :
  foldl handle_step [] ((EExists <$> paths) ++ tr) = foldl handle_step [] tr.
Proof.
  rewrite foldl_app. f_equal. induction paths as [|p paths IH]; [done|].
  cbn. apply IH.
Qed.


(** C3: a job without sources fails with [ValueError] and touches nothing;
    a job with a missing source fails with [FileNotFoundError] for the
    first missing path after existence checks only; a job whose sources
    all exist fails with the load error of the first source that cannot
    be parsed; and no failed job writes a file: the files are as before
    and nothing was saved. *)
Theorem consolidate_failure_modes :
  (∀ out names w,
     consolidate_excel_files self serialize [] out names w
     = (Raise (ValueError (lit "No files provided for consolidation")), w)) ∧
  (∀ before p after out names w,
     Forall (λ q, is_Some (fs w !! q)) before → fs w !! p = None →
     ∃ w', consolidate_excel_files self serialize (before ++ p :: after)
             out names w = (Raise (FileNotFoundError p), w') ∧
           fs w' = fs w ∧
           trace w' = trace w ++ (EExists <$> before ++ [p])) ∧
  (∀ before p after out names w,
     Forall (λ q, is_Some (fs w !! q)) (before ++ p :: after) →
     Forall (λ q, is_Some (fs w !! q ≫= book)) before →
     fs w !! p ≫= book = None →
     ∃ w' tr, consolidate_excel_files self serialize (before ++ p :: after)
                out names w = (Raise (InvalidFileException p), w') ∧
              fs w' = fs w ∧
              trace w' = trace w ++ (EExists <$> before ++ p :: after) ++ tr ∧
              Forall (λ e, is_save e = false) tr) ∧
  (∀ paths out names w e w',
     consolidate_excel_files self serialize paths out names w = (Raise e, w') →
     fs w' = fs w ∧
     ∃ tr, trace w' = trace w ++ tr ∧ Forall (λ e, is_save e = false) tr).
Proof.
  split_and!.
  - intros. apply consolidate_empty.
  - intros before p after out names w Hall Hp.
    rewrite Forall_forall in Hall.
    pose proof (consolidate_run self serialize (before ++ p :: after) out
                  names w ltac:(by destruct before)) as Hrun.
    cbn zeta in Hrun. rewrite (check_pure_missing _ _ _ _ Hall Hp) in Hrun.
    destruct Hrun as (w' & Hrun & Hfs & _ & Htr & _). by exists w'.
  - intros before p after out names w Hall Hparse Hp.
    rewrite Forall_forall in Hall. rewrite Forall_forall in Hparse.
    pose proof (consolidate_run self serialize (before ++ p :: after) out
                  names w ltac:(by destruct before)) as Hrun.
    cbn zeta in Hrun. rewrite (check_pure_all _ _ Hall) in Hrun.
    destruct (Hall p) as [f Hf]; [apply elem_of_app; right; left|].
    rewrite Hf in Hp. cbn in Hp.
    pose proof (files_pure_corrupt names (fs w) before p f after 0
                  (Workbook, 0%nat)) as Hpure.
    destruct (files_pure_trace names (fs w)
                (enumerate 0 (before ++ p :: after)) (Workbook, 0%nat))
      as [Hsave _].
    apply (Forall_impl _ (λ e, is_save e = false)) in Hsave; [|by intros ? []].
    destruct (files_pure names (fs w) (enumerate 0 (before ++ p :: after))
                (Workbook, 0%nat)) as [r tr2]. cbn [fst snd] in *.
    rewrite Hpure in Hrun; [|by intros q Hq; destruct (Hparse q Hq) as [b Hb];
      destruct (fs w !! q) as [g|]; [exists g; split; [done|by exists b]|]
      |done..].
    destruct Hrun as (w' & lg & Hrun & Hfs & _ & Htr & _).
    exists w', (EOpened HOutput :: tr2). split_and!; try done.
    by apply Forall_cons.
  - intros paths out names w e w' Hrun.
    destruct (consolidate_raise_inv self serialize _ _ _ _ _ _ Hrun)
      as (Hfs & tr & Htr & Hcase).
    split; [done|]. exists tr. split; [done|].
    destruct Hcase as [[_ ->]|[Hc|(tr1 & tr2 & Hc & Hp & ->)]]; [done| |].
    + pose proof (check_pure_trace (fs w) paths) as Ht. rewrite Hc in Ht.
      eapply Forall_impl; [exact Ht|]. by intros [].
    + pose proof (check_pure_trace (fs w) paths) as Ht. rewrite Hc in Ht.
      destruct (files_pure_trace names (fs w) (enumerate 0 paths)
                  (Workbook, 0%nat)) as [Hsave _].
      apply (Forall_impl _ (λ e, is_save e = false)) in Hsave;
        [|by intros ? []].
      rewrite Hp in Hsave. apply Forall_app. split.
      * eapply Forall_impl; [exact Ht|]. by intros [].
      * by apply Forall_cons.
Qed.

End Failures.

Lemma consolidate_failure_modes_witness :
  (∃ w', consolidate_excel_files Sample.fm Sample.serialize
           ([Sample.report_a] ++ lit "/src/missing.xlsx" :: [Sample.report_b])
           (lit "out.xlsx") None Sample.world0
         = (Raise (FileNotFoundError (lit "/src/missing.xlsx")), w') ∧
         fs w' = fs Sample.world0 ∧
         trace w' = trace Sample.world0 ++
           (EExists <$> [Sample.report_a] ++ [lit "/src/missing.xlsx"])) ∧
  (∃ w' tr, consolidate_excel_files Sample.fm Sample.serialize
              ([Sample.report_a] ++ Sample.broken :: [Sample.report_b])
              (lit "out.xlsx") None Sample.world0
            = (Raise (InvalidFileException Sample.broken), w') ∧
            fs w' = fs Sample.world0 ∧
            trace w' = trace Sample.world0 ++
              (EExists <$> [Sample.report_a] ++ Sample.broken
                             :: [Sample.report_b]) ++ tr ∧
            Forall (λ e, is_save e = false) tr).
Proof.
  destruct (consolidate_failure_modes Sample.fm Sample.serialize)
    as (_ & Hmissing & Hcorrupt & _).
  split.
  - apply Hmissing.
    + apply (bool_decide_unpack _). vm_compute. exact I.
    + vm_compute. reflexivity.
  - apply Hcorrupt.
    + apply (bool_decide_unpack _). vm_compute. exact I.
    + apply (bool_decide_unpack _). vm_compute. exact I.
    + vm_compute. reflexivity.
Defined.

(** ** The placeholder sheet, the handles and the output file *)

Section Outcome.

Variable self : FileManager.
Variable serialize : workbook → list Byte.byte.

Lemma files_pure_empty_sources names files paths : ∀ k acc,
  Forall (λ q, files !! q ≫= book = Some {| worksheets := [] |}) paths →
  (files_pure names files (enumerate k paths) acc).1 = Ok acc.
Proof.
  induction paths as [|path paths IH]; intros k acc Hall; [done|].
  apply Forall_cons in Hall as [Hp Hall]. cbn [enumerate files_pure].
  destruct (files !! path) as [f|]; [|done]. cbn in Hp. rewrite Hp.
  cbn [worksheets foldl]. specialize (IH (S k) acc Hall).
  by destruct (files_pure names files (enumerate (S k) paths) acc).
Qed.

(** C4, as the code has it: in the output of a successful job the
    placeholder sheet is gone exactly when at least one sheet was copied,
    and the output then holds the copied sheets only; a job whose sources
    have no sheets at all still succeeds, and its output holds the
    placeholder alone. *)
Theorem placeholder_removed_iff_copied :
  (∀ paths out names w p w',
     consolidate_excel_files self serialize paths out names w = (Ok p, w') →
     ∃ copied,
       (fs w' !! p) ≫= book =
       Some {| worksheets := if decide (copied = [])
                             then [new_worksheet (lit "Sheet")]
                             else copied |} ∧
       (lit "Sheet" ∉ title <$> copied) ∧
       length copied =
         length (job_candidates names (fs w) (enumerate 0 paths))) ∧
  (∀ paths out names w,
     paths ≠ [] →
     Forall (λ q, fs w !! q ≫= book = Some {| worksheets := [] |}) paths →
     ∃ w', consolidate_excel_files self serialize paths out names w
             = (Ok (Py.path_join (download_dir self) out), w') ∧
           (fs w' !! Py.path_join (download_dir self) out) ≫= book
             = Some Workbook).
Proof.
  split.
  - intros paths out names w p w' Hrun.
    destruct (consolidate_ok_inv self serialize _ _ _ _ _ _ Hrun)
      as (wb & n & tr1 & tr2 & lg & _ & -> & _ & Hpure & Hfs & _).
    destruct (files_pure_names _ _ _ _ _ _ Hpure)
      as (created & Hws & Hn & Hlen & Hnd & _).
    cbn [fst snd] in Hws, Hn, Hnd. cbn in Hn. subst n.
    change (worksheets Workbook ++ created)
      with (new_worksheet (lit "Sheet") :: created) in Hws.
    pose proof (remove_placeholder_spec wb created Hws) as Hfinal.
    exists created. split_and!.
    + rewrite Hfs, lookup_insert_eq. cbn.
      destruct (remove_placeholder wb 0 (length created)) as [sheets].
      cbn in Hfinal. by rewrite Hfinal.
    + by apply Hnd.
    + done.
  - intros paths out names w Hne Hall.
    pose proof (consolidate_run self serialize paths out names w Hne) as Hrun.
    cbn zeta in Hrun. rewrite check_pure_all in Hrun.
    2: { rewrite Forall_forall in Hall. intros q Hq.
         specialize (Hall q Hq). destruct (fs w !! q); [by eexists|done]. }
    pose proof (files_pure_empty_sources names (fs w) paths 0
                  (Workbook, 0%nat) Hall) as Hpure.
    destruct (files_pure names (fs w) (enumerate 0 paths) (Workbook, 0%nat))
      as [r tr2]. cbn [fst] in Hpure. subst r.
    destruct Hrun as (w' & lg & Hrun & Hfs & _).
    exists w'. split; [done|]. by rewrite Hfs, lookup_insert_eq.
Qed.


Lemma open_handles_run paths tr2 tail :
  (∀ opened, (∀ i, HSource i ∉ opened) → foldl handle_step opened tr2 = opened) →
  open_handles ((EExists <$> paths) ++ EOpened HOutput :: tr2 ++ tail)
  = foldl handle_step [HOutput] tail.
Proof.
  intros Htr2. unfold open_handles. rewrite open_handles_checks.
  cbn [foldl handle_step app]. rewrite foldl_app, Htr2; [done|].
  intros i Hi. by apply list_elem_of_singleton in Hi.
Qed.

Lemma check_pure_ok_trace files paths tr :
  check_pure files paths = (Ok (), tr) → tr = EExists <$> paths.
Proof.
  revert tr. induction paths as [|path paths IH]; intros tr H; cbn in H.
  { by injection H as <-. }
  destruct (files !! path); [|done].
  destruct (check_pure files paths) as [[[]|e] tr']; [|done].
  injection H as <-. cbn. f_equal. by apply IH.
Qed.

Lemma check_pure_raise_trace files paths e tr :
  check_pure files paths = (Raise e, tr) → open_handles tr = [].
Proof.
  intros H. pose proof (check_pure_trace files paths) as Ht. rewrite H in Ht.
  cbn in Ht. unfold open_handles. clear H.
  induction tr as [|ev tr IH]; [done|].
  apply Forall_cons in Ht as [Hev Ht]. cbn [foldl].
  destruct ev; try done; by apply IH.
Qed.

(** C5 fails on the failure path.  The code calls [close()] on a source
    workbook right after the sheets of the source are copied and on the
    output workbook right after the save, and its [except] clause logs
    and raises again without closing anything.  Hence, when a job
    returns, [close()] has been called on every workbook that it
    obtained; when a job raises after its existence checks have passed,
    that is when a source cannot be loaded, the sources loaded before
    have been closed, but [close()] has not been called on the output
    workbook; when a job raises earlier, it had obtained no workbook. *)
Theorem close_skipped_when_job_fails (paths : list str) (out : str)
    (names : option (list str)) (w w' : world) (r : result str) :
  consolidate_excel_files self serialize paths out names w = (r, w') →
  ∃ tr, trace w' = trace w ++ tr ∧
        open_handles tr =
        match r, check_pure (fs w) paths with
        | Ok _, _ => []
        | Raise _, (Ok _, _) => if decide (paths = []) then [] else [HOutput]
        | Raise _, (Raise _, _) => []
        end.
Proof.
  intros Hrun. destruct r as [p|e].
  - destruct (consolidate_ok_inv self serialize _ _ _ _ _ _ Hrun)
      as (wb & n & tr1 & tr2 & lg & _ & _ & Hcheck & Hpure & _ & Htr & _).
    eexists. split; [exact Htr|].
    apply check_pure_ok_trace in Hcheck as ->.
    destruct (files_pure_trace names (fs w) (enumerate 0 paths)
                (Workbook, 0%nat)) as [_ Hopen].
    rewrite Hpure in Hopen. cbn [snd] in Hopen.
    rewrite open_handles_run by done. cbn. by rewrite decide_True.
  - destruct (consolidate_raise_inv self serialize _ _ _ _ _ _ Hrun)
      as (_ & tr & Htr & Hcase).
    exists tr. split; [done|].
    destruct Hcase as [[-> ->]|[Hc|(tr1 & tr2 & Hc & Hp & ->)]].
    + done.
    + rewrite Hc. by eapply check_pure_raise_trace.
    + rewrite Hc. apply check_pure_ok_trace in Hc as ->.
      destruct (files_pure_trace names (fs w) (enumerate 0 paths)
                  (Workbook, 0%nat)) as [_ Hopen].
      rewrite Hp in Hopen. cbn [snd] in Hopen.
      pose proof (open_handles_run paths tr2 [] Hopen) as Ho.
      rewrite app_nil_r in Ho. rewrite Ho. cbn.
      destruct paths; [|done]. cbn in Hp. done.
Qed.

(** C10: a successful job replaces whatever file was at the output path:
    the file there is the saved workbook, the only existence checks of the
    run are those of the sources at its start, nothing but debug and info
    entries is logged; [rename_download] in the same situation logs a
    warning first. *)
Theorem consolidate_overwrites_silently (paths : list str) (out : str)
    (names : option (list str)) (w w' : world) (p : str) (old : fnode) :
  fs w !! Py.path_join (download_dir self) out = Some old →
  consolidate_excel_files self serialize paths out names w = (Ok p, w') →
  p = Py.path_join (download_dir self) out ∧
  (∃ wb, fs w' !! p = Some (saved_file serialize wb (now w)) ∧
         ∀ q, q ≠ p → fs w' !! q = fs w !! q) ∧
  (∃ tr, trace w' = trace w ++ (EExists <$> paths) ++ tr ++
                      [ESave p; EClosed HOutput] ∧
         ∀ q, EExists q ∉ tr) ∧
  (∃ lg, log w' = log w ++ lg ∧ Forall (λ e, lvl e = Debug ∨ lvl e = Info) lg) ∧
  (∀ original f,
     fs w !! original = Some f →
     ∃ r w2 lg, rename_download self original out w = (r, w2) ∧
                log w2 = log w ++ lg ∧
                {| lvl := Warning;
                   event := lit "File already exists, will overwrite";
                   subject := p |} ∈ lg).
Proof.
  intros Hold Hrun.
  destruct (consolidate_ok_inv self serialize _ _ _ _ _ _ Hrun)
    as (wb & n & tr1 & tr2 & lg & _ & -> & Hcheck & Hpure & Hfs & Htr & Hlog & Hlg).
  split; [done|]. split_and!.
  - eexists. split; [by rewrite Hfs, lookup_insert_eq|].
    intros q Hq. by rewrite Hfs, lookup_insert_ne.
  - exists (EOpened HOutput :: tr2). split.
    + apply check_pure_ok_trace in Hcheck as ->. by rewrite Htr.
    + intros q. destruct (files_pure_trace names (fs w) (enumerate 0 paths)
                            (Workbook, 0%nat)) as [Hio _].
      rewrite Hpure in Hio. cbn [snd] in Hio.
      intros [?|Hin]%elem_of_cons; [done|].
      rewrite Forall_forall in Hio. by destruct (Hio _ Hin) as [_ ?].
  - by exists lg.
  - intros original f Hf. clear Hfs Hrun.
    unfold rename_download.
    set (np := Py.path_join (download_dir self) out) in *.
    unfold_calls.
    repeat first
      [ rewrite Hf | rewrite Hold
      | rewrite bool_decide_eq_true_2 by (by eexists)
      | progress cbn [negb fs now log trace] ].
    destruct (is_reg old); cbn [fs now log trace].
    2: { eexists _, _, [_]. split; [reflexivity|]. cbn [log].
         split; [done|]. left. }
    destruct (can_unlink old); cbn [fs now log trace].
    2: { eexists _, _, [_]. split; [reflexivity|]. cbn [log].
         split; [done|]. left. }
    destruct (decide (original = np)) as [->|Hne].
    + rewrite lookup_delete_eq. eexists _, _, [_].
      split; [reflexivity|]. cbn [log]. split; [done|]. left.
    + rewrite lookup_delete_ne by done. rewrite Hf. cbn [fs now log trace].
      eexists _, _, [_; _]. split; [reflexivity|]. cbn [log].
      rewrite <- (assoc_L (++)). split; [done|]. left.
Qed.

End Outcome.

Lemma placeholder_removed_iff_copied_witness :
  (let run := consolidate_excel_files Sample.fm Sample.serialize
                [Sample.report_a] (lit "out.xlsx") None Sample.world0 in
   ∃ copied,
     (fs run.2 !! lit "/app/downloads/out.xlsx") ≫= book =
     Some {| worksheets := if decide (copied = [])
                           then [new_worksheet (lit "Sheet")]
                           else copied |} ∧
     (lit "Sheet" ∉ title <$> copied) ∧
     length copied =
       length (job_candidates None (fs Sample.world0)
                 (enumerate 0 [Sample.report_a]))) ∧
  (∃ w', consolidate_excel_files Sample.fm Sample.serialize
           [Sample.charts_only] (lit "out.xlsx") None Sample.world0
         = (Ok (lit "/app/downloads/out.xlsx"), w') ∧
         (fs w' !! lit "/app/downloads/out.xlsx") ≫= book = Some Workbook).
Proof.
  split.
  - apply (proj1 (placeholder_removed_iff_copied Sample.fm Sample.serialize)
             [Sample.report_a] (lit "out.xlsx") None Sample.world0).
    vm_compute. reflexivity.
  - apply (proj2 (placeholder_removed_iff_copied Sample.fm Sample.serialize)
             [Sample.charts_only] (lit "out.xlsx") None Sample.world0).
    + done.
    + apply (bool_decide_unpack _). vm_compute. exact I.
Defined.

Lemma close_skipped_when_job_fails_witness :
  let run := consolidate_excel_files Sample.fm Sample.serialize
               [Sample.report_a; Sample.broken] (lit "out.xlsx") None
               Sample.world0 in
  ∃ tr, trace run.2 = trace Sample.world0 ++ tr ∧
        open_handles tr =
        match Raise (InvalidFileException Sample.broken) : result str,
              check_pure (fs Sample.world0)
                [Sample.report_a; Sample.broken] with
        | Ok _, _ => []
        | Raise _, (Ok _, _) =>
            if decide ([Sample.report_a; Sample.broken] = []) then []
            else [HOutput]
        | Raise _, (Raise _, _) => []
        end.
Proof.
  apply (close_skipped_when_job_fails Sample.fm Sample.serialize
           [Sample.report_a; Sample.broken] (lit "out.xlsx") None
           Sample.world0).
  vm_compute. reflexivity.
Defined.

Lemma consolidate_overwrites_silently_witness :
  let run := consolidate_excel_files Sample.fm Sample.serialize
               [Sample.report_a] (lit "out.xlsx") None Sample.world1 in
  ∃ wb, fs run.2 !! lit "/app/downloads/out.xlsx"
        = Some (saved_file Sample.serialize wb (now Sample.world1)) ∧
        ∀ q, q ≠ lit "/app/downloads/out.xlsx" →
             fs run.2 !! q = fs Sample.world1 !! q.
Proof.
  refine (proj1 (proj2 (consolidate_overwrites_silently Sample.fm
            Sample.serialize [Sample.report_a] (lit "out.xlsx") None
            Sample.world1 _ (lit "/app/downloads/out.xlsx")
            (Sample.xlsx_file
               {| worksheets := [Sample.data_sheet; Sample.data_sheet] |} 50)
            _ _))).
  - vm_compute. reflexivity.
  - vm_compute. reflexivity.
Defined.

(** Against C4 as stated: a job whose only source has no sheets does not
    fail; it returns the
    output path, and the output holds the placeholder sheet alone. *)
Lemma job_without_sheets_succeeds :
  let run := consolidate_excel_files Sample.fm Sample.serialize
               [Sample.charts_only] (lit "out.xlsx") None Sample.world0 in
  run.1 = Ok (lit "/app/downloads/out.xlsx") ∧
  (fs run.2 !! lit "/app/downloads/out.xlsx") ≫= book = Some Workbook.
Proof. vm_compute. split; reflexivity. Qed.

(** The job of the report and the broken file: it raises for the broken
    file, the report has been closed and the output workbook has not. *)
Example broken_source_leaves_output_open :
  let run := consolidate_excel_files Sample.fm Sample.serialize
               [Sample.report_a; Sample.broken] (lit "out.xlsx") None
               Sample.world0 in
  run.1 = Raise (InvalidFileException Sample.broken) ∧
  EClosed (HSource 0) ∈ trace run.2 ∧
  (EClosed HOutput ∉ trace run.2) ∧
  open_handles (trace run.2) = [HOutput].
Proof.
  cbn zeta. split_and!.
  - vm_compute. reflexivity.
  - apply (bool_decide_unpack _). vm_compute. exact I.
  - apply (bool_decide_unpack _). vm_compute. exact I.
  - vm_compute. reflexivity.
Qed.

(** ** Validation *)

Section Validation.

(** C7: [validate_excel_file] never raises; it returns [True] exactly when
    the path exists, the file has at least 1000 bytes, the lower-cased
    path ends in [.xlsx] or [.xls], the file can be read and its first two
    bytes are [PK].  A 500-byte [.xlsx] file with [PK], a 2000-byte [.txt]
    file with [PK] and a 2000-byte [.xlsx] file with [MZ] are rejected, a
    2000-byte [.xlsx] file with [PK] is accepted, a missing file is
    rejected. *)
Theorem validate_excel_file_spec :
  (∀ path w,
     ∃ b w', validate_excel_file path w = (Ok b, w') ∧ fs w' = fs w ∧
       (b = true ↔
        ∃ f, fs w !! path = Some f ∧ 1000 ≤ st_size f ∧
             (Py.endswith (Py.lower path) (lit ".xlsx") = true ∨
              Py.endswith (Py.lower path) (lit ".xls") = true) ∧
             readable f && is_reg f = true ∧
             take 2 (content f) = [Byte.x50; Byte.x4b])) ∧
  (validate_excel_file (lit "/app/downloads/small.xlsx") Sample.validator_world).1
    = Ok false ∧
  (validate_excel_file (lit "/app/downloads/report.txt") Sample.validator_world).1
    = Ok false ∧
  (validate_excel_file (lit "/app/downloads/program.xlsx") Sample.validator_world).1
    = Ok false ∧
  (validate_excel_file (lit "/app/downloads/report.xlsx") Sample.validator_world).1
    = Ok true ∧
  (validate_excel_file (lit "/app/downloads/missing.xlsx") Sample.validator_world).1
    = Ok false.
Proof.
  split; [|vm_compute; by repeat split].
  intros path w. unfold validate_excel_file.
  unfold_calls.
  destruct (fs w !! path) as [f|] eqn:Hf.
  2: { rewrite bool_decide_eq_false_2 by (by intros [? ?]). cbn [negb].
       eexists _, _. split; [reflexivity|]. split; [done|].
       split; [done|]. by intros (? & ? & _). }
  rewrite bool_decide_eq_true_2 by (by eexists).
  cbn [negb fs now log trace]. rewrite Hf. cbn [fs now log trace].
  destruct (decide (st_size f < 1000)) as [Hsmall|Hsize].
  { eexists _, _. split; [reflexivity|]. split; [done|].
    split; [done|]. intros (f' & [= <-] & ? & _). lia. }
  destruct (Py.endswith (Py.lower path) (lit ".xlsx")
            || Py.endswith (Py.lower path) (lit ".xls")) eqn:Hext;
    cbn [negb fs now log trace].
  2: { eexists _, _. split; [reflexivity|]. split; [done|].
       split; [done|]. intros (f' & _ & _ & Hor & _).
       apply orb_false_elim in Hext as [? ?]. destruct Hor; congruence. }
  rewrite Hf.
  destruct (readable f && is_reg f) eqn:Hread; cbn [fs now log trace].
  2: { eexists _, _. split; [reflexivity|]. split; [done|].
       split; [done|]. intros (f' & [= <-] & _ & _ & ? & _). congruence. }
  assert (take 2 (take 4 (content f)) = take 2 (content f)) as Htake.
  { by rewrite take_take. }
  destruct (decide (take 2 (take 4 (content f)) ≠ xlsx_magic)) as [Hbad|Hgood];
    cbn [fs now log trace].
  - eexists _, _. split; [reflexivity|]. split; [done|].
    split; [done|]. intros (f' & [= <-] & _ & _ & _ & Hpk).
    exfalso. apply Hbad. by rewrite Htake.
  - eexists _, _. split; [reflexivity|]. split; [done|].
    split; [|done]. intros _. exists f. split_and!; try done; try lia.
    + by apply orb_true_iff.
    + rewrite <- Htake. by apply dec_stable.
Qed.

End Validation.

(** ** Listing and cleanup *)

Section Lifecycle.

Variable self : FileManager.

(** A file whose metadata cannot be read does not stop the listing. *)
Lemma list_loop_never_raises filenames : ∀ files w,
  ∃ r w', list_loop self filenames files w = (Ok r, w').
Proof.
  induction filenames as [|filename filenames IH]; intros files w.
  { by eexists _, _. }
  cbn [list_loop]. unfold_calls.
  destruct (match fs w !! _ with Some f => is_reg f | None => false end).
  - destruct (get_file_info _ _) as [[info|e] w1]; apply IH.
  - apply IH.
Qed.

Lemma list_downloads_never_raises w :
  ∃ files w', list_downloads self w = (Ok files, w').
Proof.
  unfold list_downloads. unfold_calls.
  match goal with
  | |- context [list_loop self ?l ?acc ?w0] =>
      destruct (list_loop_never_raises l acc w0) as (r & w' & ->)
  end.
  by eexists _, _.
Qed.

End Lifecycle.

(** C8 fails for the cleanup: with a 40-day-old file that cannot be
    deleted in the download directory, [cleanup_old_files] raises the
    [PermissionError] of that file and returns no count, and the other
    40-day-old file is still there; with a file whose modification time is
    out of range it raises as well, whereas [list_downloads] logs a warning
    for that file and lists the other two. *)
Theorem cleanup_aborts_on_one_bad_file :
  let locked := cleanup_old_files Sample.fm 30 Sample.cleanup_world in
  let far := cleanup_old_files Sample.fm 30 Sample.far_future_world in
  let listing := list_downloads Sample.fm Sample.far_future_world in
  locked.1 = Raise (PermissionError (lit "/app/downloads/ancient.xlsx")) ∧
  is_Some (fs locked.2 !! lit "/app/downloads/old.xlsx") ∧
  far.1 = Raise (ValueError (lit "year is out of range")) ∧
  fi_filename <$> match listing.1 with Ok files => files | Raise _ => [] end
    = [lit "recent.xlsx"; lit "old.xlsx"] ∧
  log listing.2 = [{| lvl := Warning; event := lit "Error getting file info";
                      subject := lit "ancient.xlsx" |}].
Proof. vm_compute. split_and!; try reflexivity. by eexists. Qed.

(** With a retention of 30 days, only the 40-day-old file is deleted. *)
Example cleanup_deletes_only_old_files :
  let run := cleanup_old_files Sample.fm 30 Sample.retention_world in
  run.1 = Ok 1 ∧
  fs run.2 !! lit "/app/downloads/forty.xlsx" = None ∧
  is_Some (fs run.2 !! lit "/app/downloads/twenty.xlsx") ∧
  is_Some (fs run.2 !! lit "/app/downloads/one.xlsx").
Proof. vm_compute. split_and!; try reflexivity; by eexists. Qed.

(** * Further properties *)

(** ** What the sanitizers keep and remove *)

Section SanitizerFacts.

Implicit Types (s chars : str) (c u : ascii).

Lemma replace_char_remove old s :
  Py.replace_char old [] s = filter (λ c, c ≠ old) s.
Proof.
  unfold Py.replace_char. induction s as [|a s IH]; [done|].
  rewrite bind_cons, IH, filter_cons.
  destruct (decide (a = old)) as [->|Hne].
  - by rewrite decide_False by (by intros ?).
  - by rewrite decide_True by done.
Qed.

Lemma replace_char_map old u s :
  Py.replace_char old [u] s = (λ c, if decide (c = old) then u else c) <$> s.
Proof.
  unfold Py.replace_char. induction s as [|a s IH]; [done|].
  rewrite bind_cons, IH, fmap_cons. by destruct (decide (a = old)).
Qed.

Lemma replace_each_remove chars s :
  Py.replace_each chars [] s = filter (λ c, c ∉ chars) s.
Proof.
  unfold Py.replace_each. revert s.
  induction chars as [|a chars IH]; intros s; cbn [foldl].
  - induction s as [|x s IHs]; [done|].
    rewrite filter_cons_True by apply not_elem_of_nil. by rewrite <- IHs.
  - rewrite IH, replace_char_remove, list_filter_filter.
    apply list_filter_iff. intros x. rewrite not_elem_of_cons. tauto.
Qed.

Lemma replace_each_map chars u s :
  u ∉ chars →
  Py.replace_each chars [u] s
  = (λ c, if decide (c ∈ chars) then u else c) <$> s.
Proof.
  unfold Py.replace_each. revert s.
  induction chars as [|a chars IH]; intros s Hu; cbn [foldl].
  - rewrite <- (list_fmap_id s) at 1. apply list_fmap_ext. intros i x _.
    rewrite decide_False; [done|]. apply not_elem_of_nil.
  - apply not_elem_of_cons in Hu as [Hua Hu].
    rewrite IH, replace_char_map, <- list_fmap_compose by done.
    apply list_fmap_ext. intros i x _. cbn.
    destruct (decide (x = a)) as [->|Hne].
    + rewrite decide_False by done. rewrite decide_True; [done|left].
    + destruct (decide (x ∈ chars)) as [Hin|Hnin].
      * rewrite decide_True; [done|by right].
      * rewrite decide_False; [done|]. by intros [?|?]%elem_of_cons.
Qed.

Lemma replace_dunder_filter (P : ascii → Prop) `{∀ c, Decision (P c)} s :
  ¬ P "_"%char → filter P (Py.replace_dunder s) = filter P s.
Proof.
  intros Hu. induction s as [| |a b s IH1 IH2] using str_ind2; [done..|].
  rewrite replace_dunder_cons2.
  destruct (decide (a = "_"%char ∧ b = "_"%char)) as [[-> ->]|Hd].
  - by rewrite !filter_cons_False, IH1 by done.
  - by rewrite !(filter_cons _ a), IH2.
Qed.

Lemma collapse_loop_filter (P : ascii → Prop) `{∀ c, Decision (P c)} fuel s :
  ¬ P "_"%char → filter P (collapse_loop fuel s) = filter P s.
Proof.
  intros Hu. revert s. induction fuel as [|fuel IH]; intros s; [done|].
  cbn. destruct (Py.has_dunder s); [|done].
  by rewrite IH, replace_dunder_filter.
Qed.

Lemma collapse_loop_length fuel s :
  (length (collapse_loop fuel s) ≤ length s)%nat.
Proof.
  revert s. induction fuel as [|fuel IH]; intros s; [done|].
  cbn. destruct (Py.has_dunder s); [|done].
  pose proof (IH (Py.replace_dunder s)).
  pose proof (replace_dunder_length_le s). lia.
Qed.

Lemma filter_take_prefix (P : ascii → Prop) `{∀ c, Decision (P c)} n s :
  filter P (take n s) `prefix_of` filter P s.
Proof.
  rewrite <- (take_drop n s) at 2. rewrite filter_app. by eexists.
Qed.

End SanitizerFacts.

(** X1: the result of [_sanitize_filename] has none of the nine invalid
    characters, no space and no two underscores in a row; it has at most
    100 characters and is never longer than the input. *)
Theorem sanitize_filename_safe (name : str) :
  let r := _sanitize_filename name in
  (∀ c, c ∈ " "%char :: filename_invalid_chars → c ∉ r) ∧
  Py.has_dunder r = false ∧
  Py.len r ≤ 100 ∧
  Py.len r ≤ Py.len name.
Proof.
  destruct (sanitize_filename_clean name) as (Hinv & Hsp & Hd & Hlen).
  cbn zeta. split_and!; try done.
  - intros c [->|Hc]%elem_of_cons; [done|by apply Hinv].
  - unfold _sanitize_filename, Py.len. cbn zeta.
    rewrite slice_to_nonneg by lia. rewrite length_take.
    etrans; [apply inj_le, Nat.le_min_r|]. apply inj_le.
    etrans; [apply collapse_loop_length|].
    change (lit "_") with ["_"%char].
    rewrite replace_char_map, length_fmap, replace_each_remove.
    apply length_filter.
Qed.

(** X2: the names that [_sanitize_filename] leaves unchanged are exactly
    the names that are already safe. *)
Theorem sanitize_filename_fixed_points (name : str) :
  _sanitize_filename name = name ↔
  (∀ c, c ∈ " "%char :: filename_invalid_chars → c ∉ name) ∧
  Py.has_dunder name = false ∧ Py.len name ≤ 100.
Proof.
  split.
  - intros Heq. destruct (sanitize_filename_clean name) as (Hinv & Hsp & Hd & Hlen).
    cbn zeta in *. rewrite Heq in *. split_and!; try done.
    intros c [->|Hc]%elem_of_cons; [done|by apply Hinv].
  - intros (Hchars & Hd & Hlen). unfold _sanitize_filename. cbn zeta.
    rewrite (replace_each_absent_id _ _ name)
      by (intros c Hc; apply Hchars; by right).
    rewrite (replace_char_absent_id _ _ name) by (apply Hchars; left).
    rewrite collapse_loop_settled by done. by apply slice_to_short.
Qed.

(** X3: [_sanitize_filename] neither drops nor reorders the other
    characters: those of the result are the leading ones of the input, and
    all of them when the input has at most 100 characters. *)
Theorem sanitize_filename_keeps_ordinary (name : str) :
  let ordinary := λ c, c ∉ "_"%char :: " "%char :: filename_invalid_chars in
  filter ordinary (_sanitize_filename name) `prefix_of` filter ordinary name ∧
  (Py.len name ≤ 100 →
   filter ordinary (_sanitize_filename name) = filter ordinary name).
Proof.
  cbn zeta.
  set (ordinary := λ c, c ∉ "_"%char :: " "%char :: filename_invalid_chars).
  assert (¬ ordinary "_"%char) as Hund.
  { intros Hn. apply Hn. left. }
  assert (∀ s, filter ordinary
                 (collapse_loop
                    (length (Py.replace_char " "%char (lit "_")
                               (Py.replace_each filename_invalid_chars [] s)))
                    (Py.replace_char " "%char (lit "_")
                       (Py.replace_each filename_invalid_chars [] s)))
               = filter ordinary s) as Hbody.
  { intros s. rewrite collapse_loop_filter by done.
    change (lit "_") with ["_"%char].
    rewrite replace_char_map, replace_each_remove.
    induction s as [|a s IH]; [done|].
    rewrite (filter_cons _ a s), (filter_cons ordinary a s).
    destruct (decide (a ∉ filename_invalid_chars)) as [Hin|Hin].
    - rewrite fmap_cons, filter_cons, IH.
      destruct (decide (a = " "%char)) as [->|Hsp].
      + rewrite decide_False by done. rewrite decide_False; [done|].
        intros Hn. apply Hn. right. left.
      + destruct (decide (ordinary a)) as [Ho|Ho]; [done|done].
    - rewrite IH. rewrite decide_False; [done|].
      intros Hn. apply Hin. intros Hi. apply Hn. by do 2 right. }
  split.
  - unfold _sanitize_filename. cbn zeta. rewrite slice_to_nonneg by lia.
    rewrite <- (Hbody name). by apply filter_take_prefix.
  - intros Hlen. unfold _sanitize_filename. cbn zeta.
    rewrite slice_to_short; [apply Hbody|].
    unfold Py.len in *.
    etrans; [apply inj_le, collapse_loop_length|].
    change (lit "_") with ["_"%char].
    rewrite replace_char_map, length_fmap, replace_each_remove.
    pose proof (length_filter (λ c, c ∉ filename_invalid_chars) name). lia.
Qed.

(** X4: [_sanitize_sheet_name] works character by character: each of
    [\ / * ? : [ ]] becomes an underscore, every other character stays, and
    the first 31 characters are kept. *)
Theorem sanitize_sheet_name_pointwise (name : str) :
  _sanitize_sheet_name name =
  take 31 ((λ c, if decide (c ∈ sheet_invalid_chars) then "_"%char else c)
             <$> name).
Proof.
  unfold _sanitize_sheet_name. cbn zeta. rewrite slice_to_nonneg by lia.
  change (lit "_") with ["_"%char]. rewrite replace_each_map; [done|].
  apply (bool_decide_unpack _). vm_compute. exact I.
Qed.

(** ** What a copied sheet carries over *)

Section CopyDetails.

Implicit Types (t src : worksheet) (row : list cell) (rows : list (list cell)).

Lemma write_cell_cell t ridx cidx v st :
  (∀ pos, _cells t !! pos ≠ Some MergedCell) →
  ∃ t', write_cell t ridx cidx (Cell v st) = Ok t' ∧
        cell_at t' ridx cidx
          = Cell v (copy_style st (style_of (cell_at t ridx cidx))) ∧
        ∀ r c, (r, c) ≠ (ridx, cidx) → cell_at t' r c = cell_at t r c.
Proof.
  intros Hnm. unfold write_cell.
  destruct (cell_at t ridx cidx) as [|v0 st0] eqn:Hcell.
  { exfalso. unfold cell_at in Hcell.
    destruct (_cells t !! (ridx, cidx)) as [[|]|] eqn:Hl; try done.
    by apply (Hnm (ridx, cidx)). }
  eexists. split; [done|]. split.
  - unfold cell_at. cbn. by rewrite lookup_insert_eq.
  - intros r c Hne. unfold cell_at. cbn. by rewrite lookup_insert_ne.
Qed.

Lemma copy_row_cells row : ∀ k t ridx,
  (∀ pos, _cells t !! pos ≠ Some MergedCell) →
  ∃ t', copy_row t ridx (enumerate k row) = Ok t' ∧
        (∀ r c, (r ≠ ridx ∨ c < k ∨ k + length row ≤ c)%nat →
                cell_at t' r c = cell_at t r c) ∧
        (∀ i cl, row !! i = Some cl →
                 cell_at t' ridx (k + i) =
                 match cl with
                 | Cell v st =>
                     Cell v (copy_style st (style_of (cell_at t ridx (k + i))))
                 | MergedCell => cell_at t ridx (k + i)
                 end).
Proof.
  induction row as [|c0 row IH]; intros k t ridx Hnm.
  { exists t. cbn. split_and!; try done. }
  cbn [enumerate copy_row]. destruct c0 as [|v st].
  - destruct (IH (S k) t ridx Hnm) as (t' & Hrun & Hout & Hin).
    exists t'. split_and!; try done.
    + intros r c Hrc. apply Hout. cbn [length] in Hrc. lia.
    + intros [|i] cl Hi; cbn in Hi.
      * injection Hi as <-. apply Hout. lia.
      * replace (k + S i)%nat with (S k + i)%nat by lia. by apply Hin.
  - destruct (write_cell_spec t ridx k v st Hnm) as (t1 & Hw & Hnm1 & _).
    destruct (write_cell_cell t ridx k v st Hnm) as (t1' & Hw' & Hv1 & Ho1).
    rewrite Hw in Hw'. injection Hw' as <-. rewrite Hw.
    destruct (IH (S k) t1 ridx Hnm1) as (t' & Hrun & Hout & Hin).
    exists t'. split_and!; try done.
    + intros r c Hrc. cbn [length] in Hrc.
      rewrite Hout by lia. apply Ho1. intros [= -> ->]. lia.
    + intros [|i] cl Hi; cbn in Hi.
      * injection Hi as <-. rewrite Hout by lia.
        by replace (k + 0)%nat with k by lia.
      * replace (k + S i)%nat with (S k + i)%nat by lia.
        rewrite (Hin i cl Hi). rewrite Ho1; [done|]. intros [= ?]. lia.
Qed.

Lemma copy_rows_cells rows : ∀ k t,
  (∀ pos, _cells t !! pos ≠ Some MergedCell) →
  ∃ t', copy_rows t (enumerate k rows) = Ok t' ∧
        (∀ r c, (r < k ∨ k + length rows ≤ r)%nat →
                cell_at t' r c = cell_at t r c) ∧
        (∀ i row, rows !! i = Some row →
           ∀ j cl, row !! j = Some cl →
                   cell_at t' (k + i) (1 + j) =
                   match cl with
                   | Cell v st =>
                       Cell v (copy_style st
                                 (style_of (cell_at t (k + i) (1 + j))))
                   | MergedCell => cell_at t (k + i) (1 + j)
                   end).
Proof.
  induction rows as [|row rows IH]; intros k t Hnm.
  { exists t. cbn. split_and!; try done. }
  cbn [enumerate copy_rows].
  destruct (copy_row_spec row 1 t k Hnm) as (t1 & Hw & Hnm1 & _).
  destruct (copy_row_cells row 1 t k Hnm) as (t1' & Hw' & Ho1 & Hi1).
  rewrite Hw in Hw'. injection Hw' as <-. rewrite Hw.
  destruct (IH (S k) t1 Hnm1) as (t' & Hrun & Hout & Hin).
  exists t'. split_and!; try done.
  - intros r c Hrc. cbn [length] in Hrc.
    rewrite Hout by lia. apply Ho1. lia.
  - intros [|i] row' Hi; cbn in Hi.
    + injection Hi as <-. replace (k + 0)%nat with k by lia.
      intros j cl Hj. rewrite Hout by lia. by apply Hi1.
    + replace (k + S i)%nat with (S k + i)%nat by lia.
      intros j cl Hj. rewrite (Hin i row' Hi j cl Hj).
      rewrite Ho1; [done|]. lia.
Qed.

Lemma foldl_insert_pairs {K} `{Countable K} {V} (l : list (K * V)) :
  ∀ (m : gmap K V) k,
    NoDup (l.*1) →
    foldl (λ acc kv, <[kv.1 := kv.2]> acc) m l !! k =
    match (list_to_map l : gmap K V) !! k with
    | Some v => Some v
    | None => m !! k
    end.
Proof.
  induction l as [|[i x] l IH]; intros m k Hnd; cbn [foldl].
  { change (list_to_map [] : gmap K V) with (∅ : gmap K V).
    by rewrite lookup_empty. }
  cbn in Hnd. apply NoDup_cons in Hnd as [Hnin Hnd].
  rewrite IH by done. cbn [list_to_map foldr fst snd].
  destruct (decide (k = i)) as [->|Hne].
  - rewrite (not_elem_of_list_to_map_1 l i) by done.
    by rewrite !lookup_insert_eq.
  - by rewrite !lookup_insert_ne by done.
Qed.

Lemma foldl_insert_map_to_list {K} `{Countable K} {V} (m : gmap K V) :
  foldl (λ acc kv, <[kv.1 := kv.2]> acc) ∅ (map_to_list m) = m.
Proof.
  apply map_eq. intros k.
  rewrite foldl_insert_pairs by apply NoDup_fst_map_to_list.
  rewrite list_to_map_to_list, lookup_empty. by destruct (m !! k).
Qed.

Lemma column_fold_dims cols : ∀ t,
  column_dimensions (foldl set_column_width t cols)
  = foldl (λ acc kv, <[kv.1 := kv.2]> acc) (column_dimensions t) cols ∧
  row_dimensions (foldl set_column_width t cols) = row_dimensions t.
Proof.
  induction cols as [|kv cols IH]; intros t; [done|].
  cbn [foldl]. by destruct (IH (set_column_width t kv)) as [-> ->].
Qed.

Lemma row_fold_dims rws : ∀ t,
  row_dimensions (foldl set_row_height t rws)
  = foldl (λ acc kv, <[kv.1 := kv.2]> acc) (row_dimensions t) rws ∧
  column_dimensions (foldl set_row_height t rws) = column_dimensions t.
Proof.
  induction rws as [|kv rws IH]; intros t; [done|].
  cbn [foldl]. by destruct (IH (set_row_height t kv)) as [-> ->].
Qed.

Lemma copy_fresh_dims (src : worksheet) (name : str) :
  ∃ t', _copy_sheet_data src (new_worksheet name) = Ok t' ∧
        title t' = name ∧
        column_dimensions t' = column_dimensions src ∧
        row_dimensions t' = row_dimensions src.
Proof.
  unfold _copy_sheet_data.
  destruct (copy_rows_fresh src name) as (t1 & -> & Ht1 & _ & Hc1 & Hr1 & _).
  eexists. split; [done|].
  destruct (merge_fold_frame (merged_cells src) t1) as (Ht2 & Hc2 & Hr2).
  set (t2 := foldl merge_cells t1 (merged_cells src)) in *.
  destruct (column_fold_dims (map_to_list (column_dimensions src)) t2)
    as [Hc3 Hr3].
  set (t3 := foldl set_column_width t2 _) in *.
  destruct (row_fold_dims (map_to_list (row_dimensions src)) t3) as [Hr4 Hc4].
  destruct (dims_fold_frame t2 (map_to_list (column_dimensions src))
              (map_to_list (row_dimensions src))) as (Ht & _).
  fold t3 in Ht. split_and!.
  - congruence.
  - rewrite Hc4, Hc3, Hc2, Hc1. apply foldl_insert_map_to_list.
  - rewrite Hr4, Hr3, Hr2, Hr1. apply foldl_insert_map_to_list.
Qed.

(** X6: a copy into a new sheet has the column widths and the row heights
    of the source, and the title it was created with. *)
Theorem copy_sheet_data_dimensions (src : worksheet) (name : str) :
  ∃ t', _copy_sheet_data src (new_worksheet name) = Ok t' ∧
        title t' = name ∧
        column_dimensions t' = column_dimensions src ∧
        row_dimensions t' = row_dimensions src.
Proof. apply copy_fresh_dims. Qed.

(** X7: in a copy of a well-formed sheet into a new sheet, every cell of
    the source that is not a merged placeholder is there with its value,
    font, fill, border, alignment and number format; its protection is
    never copied: the copy has the default protection. *)
Theorem copy_sheet_data_styles (src : worksheet) (name : str)
    (r c : nat) (v : cell_value) (st : cell_style) :
  valid_sheet src →
  _cells src !! (r, c) = Some (Cell v st) →
  ∃ t', _copy_sheet_data src (new_worksheet name) = Ok t' ∧
        cell_at t' r c =
        Cell v {| font := font st; fill := fill st; border := border st;
                  alignment := alignment st;
                  number_format := number_format st;
                  protection := protection default_style |}.
Proof.
  intros (Hkeys & Hmerged & _ & _) Hcell. unfold _copy_sheet_data.
  destruct (copy_rows_fresh src name) as (t1 & Hrun & _).
  destruct (copy_rows_cells (iter_rows src) 1 (new_worksheet name))
    as (t1' & Hrun' & _ & Hin).
  { intros pos. cbn. by rewrite lookup_empty. }
  rewrite Hrun in Hrun'. injection Hrun' as <-. rewrite Hrun.
  eexists. split; [done|].
  unfold cell_at at 1.
  destruct (dims_fold_frame (foldl merge_cells t1 (merged_cells src))
              (map_to_list (column_dimensions src))
              (map_to_list (row_dimensions src))) as (_ & -> & _).
  pose proof (ws_max_bounds _ _ _ _ Hcell) as [Hr Hc].
  pose proof (Hkeys _ _ Hcell) as [Hr1 Hc1]. cbn in Hr1, Hc1.
  assert (_cells src ≠ ∅) as Hcells.
  { intros He. rewrite He in Hcell. by rewrite lookup_empty in Hcell. }
  specialize (Hin (r - 1)%nat _ (iter_rows_lookup src (r - 1)%nat Hcells ltac:(lia))
                (c - 1)%nat (Cell v st)).
  replace (1 + (r - 1))%nat with r in Hin by lia.
  replace (1 + (c - 1))%nat with c in Hin by lia.
  assert (cell_at t1 r c = Cell v (copy_style st default_style)) as Ht1.
  { rewrite Hin.
    - unfold cell_at at 1. cbn. by rewrite lookup_empty.
    - assert (cell_at src r c = Cell v st) as <-
        by (unfold cell_at; by rewrite Hcell).
      rewrite list_lookup_fmap, lookup_seq_lt by lia. cbn.
      do 2 f_equal. lia. }
  assert (∀ rgs t, Forall (λ rg, (r, c) ∉ tail (range_cells rg)) rgs →
                   _cells (foldl merge_cells t rgs) !! (r, c)
                   = _cells t !! (r, c)) as Hfold.
  { induction rgs as [|rg rgs IH]; intros t Hall; [done|].
    apply Forall_cons in Hall as [Hrg Hall]. cbn [foldl].
    rewrite IH by done. rewrite merge_cells_lookup. by rewrite decide_False. }
  rewrite Hfold.
  - fold (cell_at t1 r c). rewrite Ht1. f_equal. unfold copy_style.
    case_bool_decide as Hst; [done|]. by rewrite Hst.
  - eapply Forall_impl; [exact Hmerged|]. intros rg Hrg Hpos.
    rewrite Forall_forall in Hrg. specialize (Hrg _ Hpos). congruence.
Qed.

End CopyDetails.

Lemma copy_sheet_data_styles_witness :
  ∃ t', _copy_sheet_data Sample.styled_sheet (new_worksheet (lit "Copy"))
          = Ok t' ∧
        cell_at t' 1 1 =
        Cell (VStr (lit "Total"))
             {| font := 1; fill := 2; border := 0; alignment := 3;
                number_format := lit "0.00"; protection := 0 |}.
Proof.
  apply (copy_sheet_data_styles Sample.styled_sheet (lit "Copy") 1 1
           (VStr (lit "Total")) Sample.bold_style).
  - apply (bool_decide_unpack _). vm_compute. exact I.
  - vm_compute. reflexivity.
Defined.

(** ** Whole jobs *)

Section Jobs.

Variable self : FileManager.
Variable serialize : workbook → list Byte.byte.

Lemma sheet_step_copy names idx path swb acc src :
  ∃ copied,
    worksheets (sheet_step names idx path swb acc src).1 =
      worksheets acc.1 ++ [copied] ∧
    _copy_sheet_data src (new_worksheet (title copied)) = Ok copied.
Proof.
  unfold sheet_step. cbn zeta.
  set (name := created_title _ _).
  destruct (copy_sheet_data_fresh src name) as (t' & Hcopy & Ht & _).
  rewrite Hcopy. exists t'. cbn. split; [done|]. by rewrite Ht.
Qed.

Lemma sheets_fold_steps names idx path swb sheets : ∀ acc,
  ∃ created,
    worksheets (foldl (sheet_step names idx path swb) acc sheets).1 =
      worksheets acc.1 ++ created ∧
    Forall2 (λ src copied,
               _copy_sheet_data src (new_worksheet (title copied)) = Ok copied)
            sheets created.
Proof.
  induction sheets as [|src sheets IH]; intros acc.
  { exists []. cbn. by rewrite app_nil_r. }
  cbn [foldl].
  destruct (sheet_step_copy names idx path swb acc src)
    as (copied & Hws & Hcopy).
  destruct (IH (sheet_step names idx path swb acc src))
    as (created & Hws' & Hall).
  exists (copied :: created). split.
  - by rewrite Hws', Hws, <- (assoc_L (++)).
  - by apply Forall2_cons.
Qed.

Lemma files_pure_steps names files paths : ∀ k acc r tr,
  files_pure names files (enumerate k paths) acc = (Ok r, tr) →
  Forall (λ q, is_Some (files !! q ≫= book)) paths ∧
  ∃ created,
    worksheets r.1 = worksheets acc.1 ++ created ∧
    Forall2 (λ src copied,
               _copy_sheet_data src (new_worksheet (title copied)) = Ok copied)
            (job_sheets files paths) created.
Proof.
  induction paths as [|path paths IH]; intros k acc r tr Hrun.
  { cbn in Hrun. injection Hrun as <- <-. split; [done|].
    exists []. cbn. by rewrite app_nil_r. }
  cbn [enumerate files_pure] in Hrun. unfold job_sheets. rewrite bind_cons.
  fold (job_sheets files paths).
  destruct (files !! path) as [f|] eqn:Hf; [|done]. cbn [mbind option_bind].
  destruct (book f) as [swb|] eqn:Hbook; [|done].
  destruct (sheets_fold_steps names k path swb (worksheets swb) acc)
    as (created1 & Hws1 & Hall1).
  set (acc1 := foldl _ acc _) in *.
  destruct (files_pure names files (enumerate (S k) paths) acc1)
    as [r2 tr2] eqn:Hrest.
  injection Hrun as -> <-.
  destruct (IH (S k) acc1 r tr2 Hrest) as (Hparse & created2 & Hws2 & Hall2).
  split.
  - apply Forall_cons. split; [rewrite Hf; cbn; rewrite Hbook; by eexists|done].
  - exists (created1 ++ created2). split.
    + by rewrite Hws2, Hws1, <- (assoc_L (++)).
    + by apply Forall2_app.
Qed.

Lemma files_pure_total names files paths : ∀ k acc,
  Forall (λ q, is_Some (files !! q ≫= book)) paths →
  ∃ r tr, files_pure names files (enumerate k paths) acc = (Ok r, tr).
Proof.
  induction paths as [|path paths IH]; intros k acc Hall.
  { by eexists _, _. }
  apply Forall_cons in Hall as [[swb Hp] Hall]. cbn [enumerate files_pure].
  destruct (files !! path) as [f|]; [|done]. cbn in Hp. rewrite Hp.
  set (acc1 := foldl _ acc _).
  destruct (IH (S k) acc1 Hall) as (r & tr & ->). by eexists _, _.
Qed.

(** X5: no sheet name of a consolidated workbook contains one of the
    characters that a sheet name must not have. *)
Theorem consolidated_sheet_names_valid (paths : list str) (out : str)
    (names : option (list str)) (w w' : world) (p : str) :
  consolidate_excel_files self serialize paths out names w = (Ok p, w') →
  ∃ wb, (fs w' !! p) ≫= book = Some wb ∧
        Forall (λ t, ∀ c, c ∈ sheet_invalid_chars → c ∉ t) (sheetnames wb).
Proof.
  intros Hrun.
  destruct (consolidate_ok_inv self serialize _ _ _ _ _ _ Hrun)
    as (wb & n & tr1 & tr2 & lg & _ & -> & _ & Hpure & Hfs & _).
  destruct (files_pure_names _ _ _ _ _ _ Hpure)
    as (created & Hws & Hn & _ & _ & Hcreated).
  cbn [fst snd] in Hws, Hn. cbn in Hn. subst n.
  change (worksheets Workbook ++ created)
    with (new_worksheet (lit "Sheet") :: created) in Hws.
  exists (remove_placeholder wb 0 (length created)). split.
  { by rewrite Hfs, lookup_insert_eq. }
  unfold sheetnames. rewrite (remove_placeholder_spec wb created Hws).
  case_decide; [|done]. apply Forall_singleton. intros c Hc Hin.
  assert (Forall (λ x, x ∉ sheet_invalid_chars) (lit "Sheet")) as Hsheet.
  { apply (bool_decide_unpack _). vm_compute. exact I. }
  rewrite Forall_forall in Hsheet. by apply (Hsheet c).
Qed.


(** X8: a successful job copies every sheet of every source, in the order
    of the sources and of their sheets; when the sources are well-formed,
    each copy shows the values, merged ranges, column widths and row
    heights of its source sheet.  The placeholder is the only sheet when
    the sources have no sheets. *)
Theorem consolidate_copies_all_sheets (paths : list str) (out : str)
    (names : option (list str)) (w w' : world) (p : str) :
  consolidate_excel_files self serialize paths out names w = (Ok p, w') →
  Forall valid_sheet (job_sheets (fs w) paths) →
  ∃ wb copies,
    (fs w' !! p) ≫= book = Some wb ∧
    worksheets wb = (if decide (copies = []) then [new_worksheet (lit "Sheet")]
                     else copies) ∧
    Forall2 (λ src copied,
               (∀ r c, value_at copied r c = value_at src r c) ∧
               merged_cells copied = merged_cells src ∧
               column_dimensions copied = column_dimensions src ∧
               row_dimensions copied = row_dimensions src)
            (job_sheets (fs w) paths) copies.
Proof.
  intros Hrun Hvalid.
  destruct (consolidate_ok_inv self serialize _ _ _ _ _ _ Hrun)
    as (wb & n & tr1 & tr2 & lg & _ & -> & _ & Hpure & Hfs & _).
  destruct (files_pure_names _ _ _ _ _ _ Hpure)
    as (created & Hws & Hn & _). cbn [fst snd] in Hws, Hn. cbn in Hn. subst n.
  destruct (files_pure_steps _ _ _ _ _ _ _ Hpure) as (_ & created' & Hws' & Hall).
  cbn [fst] in Hws'. rewrite Hws in Hws'. apply app_inv_head in Hws' as <-.
  change (worksheets Workbook ++ created)
    with (new_worksheet (lit "Sheet") :: created) in Hws.
  exists (remove_placeholder wb 0 (length created)), created. split_and!.
  - by rewrite Hfs, lookup_insert_eq.
  - by apply remove_placeholder_spec.
  - clear -Hall Hvalid. induction Hall as [|src copied srcs copies Hstep Hall IH].
    { constructor. }
    apply Forall_cons in Hvalid as [Hv Hvalid].
    constructor; [|by apply IH].
    rename Hstep into Hcopy.
    destruct (copy_sheet_data_fresh src (title copied)) as (t1 & Hc1 & _ & Hval).
    destruct (copy_fresh_dims src (title copied)) as (t2 & Hc2 & _ & Hcol & Hrow).
    rewrite Hcopy in Hc1, Hc2. injection Hc1 as <-. injection Hc2 as <-.
    destruct (Hval Hv) as [? ?]. done.
Qed.

(** X9: a job gets as far as saving its output exactly when it has at
    least one source and every source exists and can be parsed.  Nothing
    else stops a job before the save: neither the names asked for nor the
    copying of the sheets raises.  In particular a job that returns had
    sources that all exist and can be parsed. *)
Theorem consolidate_reaches_save_iff (paths : list str) (out : str)
    (names : option (list str)) (w : world) :
  let run := consolidate_excel_files self serialize paths out names w in
  ∃ calls,
    trace run.2 = trace w ++ calls ∧
    (ESave (Py.path_join (download_dir self) out) ∈ calls ↔
     paths ≠ [] ∧ Forall (λ q, is_Some (fs w !! q ≫= book)) paths) ∧
    (is_ok run.1 = true →
     paths ≠ [] ∧ Forall (λ q, is_Some (fs w !! q ≫= book)) paths).
Proof.
  cbn zeta.
  destruct (decide (paths = [])) as [->|Hne].
  { rewrite consolidate_empty. exists []. cbn [fst snd].
    rewrite app_nil_r. split; [done|]. split; [|done]. split.
    - by intros ?%elem_of_nil.
    - by intros [? _]. }
  pose proof (consolidate_run self serialize paths out names w Hne) as Hrun.
  cbn zeta in Hrun.
  pose proof (check_pure_trace (fs w) paths) as Hchecks.
  destruct (files_pure_trace names (fs w) (enumerate 0 paths)
              (Workbook, 0%nat)) as [Hloads _].
  assert (∀ tr p, Forall (λ e, is_document_io e = false) tr → ESave p ∉ tr)
    as Hnosave1.
  { intros tr p Hall Hin. rewrite Forall_forall in Hall.
    by specialize (Hall _ Hin). }
  assert (∀ tr p, Forall (λ e, is_save e = false ∧ is_document_io e = true) tr
                  → ESave p ∉ tr) as Hnosave2.
  { intros tr p Hall Hin. rewrite Forall_forall in Hall.
    by destruct (Hall _ Hin). }
  destruct (check_pure (fs w) paths) as [[[]|e] tr1] eqn:Hcheck.
  2: { destruct Hrun as (w' & -> & _ & _ & Htr & _). cbn [fst snd] in *.
       exists tr1. split; [done|].
       assert (¬ Forall (λ q, is_Some (fs w !! q ≫= book)) paths) as Hmissing.
       { intros Hall. rewrite check_pure_all in Hcheck; [done|].
         rewrite Forall_forall in Hall. intros q Hq.
         destruct (Hall q Hq) as [b Hb].
         destruct (fs w !! q); [by eexists|done]. }
       split; [|done]. split.
       - intros Hin. by apply Hnosave1 in Hin.
       - by intros [_ ?]. }
  destruct (files_pure names (fs w) (enumerate 0 paths) (Workbook, 0%nat))
    as [[[wb n]|e] tr2] eqn:Hpure.
  - destruct Hrun as (w' & lg & -> & _ & _ & Htr & _). cbn [fst snd] in *.
    eexists. split; [exact Htr|].
    assert (Forall (λ q, is_Some (fs w !! q ≫= book)) paths) as Hall
      by (by destruct (files_pure_steps _ _ _ _ _ _ _ Hpure)).
    split; [|done]. split; [done|]. intros _.
    apply elem_of_app. right. right. apply elem_of_app. right. left.
  - destruct Hrun as (w' & lg & -> & _ & _ & Htr & _). cbn [fst snd] in *.
    eexists. split; [exact Htr|].
    assert (¬ Forall (λ q, is_Some (fs w !! q ≫= book)) paths) as Hbroken.
    { intros Hall.
      destruct (files_pure_total names (fs w) paths 0 (Workbook, 0%nat) Hall)
        as (r & tr & Htotal). congruence. }
    split; [|done]. split; [|by intros [_ ?]].
    intros [Hin|Hin]%elem_of_app; [by apply Hnosave1 in Hin|].
    apply elem_of_cons in Hin as [?|Hin]; [done|].
    by apply Hnosave2 in Hin.
Qed.

(** X10: a successful job changes no file but the one at the path it
    returns, where it leaves the saved workbook; [get_file_info] on that
    path then reports the size of the saved bytes and the time of the
    job, provided that time is one that [datetime.fromtimestamp]
    accepts. *)
Theorem consolidate_then_file_info (paths : list str) (out : str)
    (names : option (list str)) (w w' : world) (p : str) :
  consolidate_excel_files self serialize paths out names w = (Ok p, w') →
  ∃ wb,
    fs w' !! p = Some (saved_file serialize wb (now w)) ∧
    (∀ q, q ≠ p → fs w' !! q = fs w !! q) ∧
    (datetime_min ≤ now w ≤ datetime_max →
     ∃ w'', get_file_info p w' =
              (Ok {| fi_path := p; fi_filename := Py.basename p;
                     fi_size := Py.len (serialize wb);
                     fi_created_at := now w; fi_modified_at := now w |}, w'') ∧
            fs w'' = fs w').
Proof.
  intros Hrun.
  destruct (consolidate_ok_inv self serialize _ _ _ _ _ _ Hrun)
    as (wb & n & tr1 & tr2 & lg & _ & -> & _ & _ & Hfs & _).
  eexists. split_and!.
  - by rewrite Hfs, lookup_insert_eq.
  - intros q Hq. by rewrite Hfs, lookup_insert_ne.
  - intros Hrange. unfold get_file_info. unfold_calls.
    rewrite Hfs, lookup_insert_eq.
    rewrite bool_decide_eq_true_2 by (by eexists).
    cbn [negb fs now log trace st_ctime st_mtime saved_file].
    rewrite lookup_insert_eq. cbn [fs now log trace st_ctime st_mtime saved_file].
    rewrite !fromtimestamp_ok by done. cbn [fs now log trace].
    eexists. split; [reflexivity|]. done.
Qed.

End Jobs.

Lemma consolidated_sheet_names_valid_witness :
  let run := consolidate_excel_files Sample.fm Sample.serialize
               [Sample.report_a; Sample.report_b] (lit "out.xlsx")
               (Some [lit "Q1/2026"; lit "Q1/2026"]) Sample.world0 in
  ∃ wb, (fs run.2 !! lit "/app/downloads/out.xlsx") ≫= book = Some wb ∧
        Forall (λ t, ∀ c, c ∈ sheet_invalid_chars → c ∉ t) (sheetnames wb).
Proof.
  apply (consolidated_sheet_names_valid Sample.fm Sample.serialize
           [Sample.report_a; Sample.report_b] (lit "out.xlsx")
           (Some [lit "Q1/2026"; lit "Q1/2026"]) Sample.world0).
  vm_compute. reflexivity.
Defined.

Lemma consolidate_copies_all_sheets_witness :
  let run := consolidate_excel_files Sample.fm Sample.serialize
               [Sample.report_a; Sample.charts_only; Sample.report_b]
               (lit "out.xlsx") None Sample.world0 in
  ∃ wb copies,
    (fs run.2 !! lit "/app/downloads/out.xlsx") ≫= book = Some wb ∧
    worksheets wb = (if decide (copies = []) then [new_worksheet (lit "Sheet")]
                     else copies) ∧
    Forall2 (λ src copied,
               (∀ r c, value_at copied r c = value_at src r c) ∧
               merged_cells copied = merged_cells src ∧
               column_dimensions copied = column_dimensions src ∧
               row_dimensions copied = row_dimensions src)
            (job_sheets (fs Sample.world0)
               [Sample.report_a; Sample.charts_only; Sample.report_b])
            copies.
Proof.
  apply (consolidate_copies_all_sheets Sample.fm Sample.serialize
           [Sample.report_a; Sample.charts_only; Sample.report_b]
           (lit "out.xlsx") None Sample.world0).
  - vm_compute. reflexivity.
  - apply (bool_decide_unpack _). vm_compute. exact I.
Defined.

Lemma consolidate_then_file_info_witness :
  let run := consolidate_excel_files Sample.fm Sample.serialize
               [Sample.report_a] (lit "out.xlsx") None Sample.world0 in
  ∃ wb,
    fs run.2 !! lit "/app/downloads/out.xlsx"
      = Some (saved_file Sample.serialize wb (now Sample.world0)) ∧
    (∀ q, q ≠ lit "/app/downloads/out.xlsx" →
          fs run.2 !! q = fs Sample.world0 !! q) ∧
    ∃ w'', get_file_info (lit "/app/downloads/out.xlsx") run.2 =
             (Ok {| fi_path := lit "/app/downloads/out.xlsx";
                    fi_filename := Py.basename (lit "/app/downloads/out.xlsx");
                    fi_size := Py.len (Sample.serialize wb);
                    fi_created_at := now Sample.world0;
                    fi_modified_at := now Sample.world0 |}, w'') ∧
           fs w'' = fs run.2.
Proof.
  intros run.
  destruct (consolidate_then_file_info Sample.fm Sample.serialize
              [Sample.report_a] (lit "out.xlsx") None Sample.world0 run.2
              (lit "/app/downloads/out.xlsx")) as (wb & Hsaved & Hother & Hinfo).
  { vm_compute. reflexivity. }
  exists wb. split; [done|]. split; [done|]. apply Hinfo.
  vm_compute. split; discriminate.
Defined.

(** ** Renaming and file information *)

Section Renaming.

Variable self : FileManager.


(** X12: renaming a download to the name it already has in the download
    directory destroys it: the file is removed as the occupant of the new
    path, the move then finds no original, the call raises
    [FileNotFoundError] and the file is gone. *)
Theorem rename_download_onto_itself (new_filename : str) (w : world)
    (f : fnode) :
  let original := Py.path_join (download_dir self) new_filename in
  fs w !! original = Some f →
  can_unlink f && is_reg f = true →
  ∃ w', rename_download self original new_filename w
          = (Raise (FileNotFoundError original), w') ∧
        fs w' = delete original (fs w).
Proof.
  intros original Hf [Hdel Hreg]%andb_prop. unfold rename_download.
  fold original. unfold_calls.
  repeat first
    [ rewrite Hf | rewrite Hdel | rewrite Hreg
    | rewrite bool_decide_eq_true_2 by (by eexists)
    | progress cbn [negb fs now log trace] ].
  rewrite lookup_delete_eq.
  eexists. split; [reflexivity|]. done.
Qed.

(** X13: a call of [rename_download] that raises before it reaches
    [shutil.move] has changed no file.  It raises [FileNotFoundError] of
    the original when the original is missing; otherwise the new path is
    taken by something that [os.remove] refuses, a directory
    ([IsADirectoryError]) or a file that may not be unlinked
    ([PermissionError]), and the overwrite warning has been logged. *)
Theorem rename_download_failure (original new_filename : str) (w w' : world)
    (e : exn) (calls : list io_event) :
  let new_path := Py.path_join (download_dir self) new_filename in
  rename_download self original new_filename w = (Raise e, w') →
  trace w' = trace w ++ calls →
  EMove original new_path ∉ calls →
  fs w' = fs w ∧
  (fs w !! original = None ∧ e = FileNotFoundError original ∧
   log w' = log w ∨
   ∃ g, is_Some (fs w !! original) ∧ fs w !! new_path = Some g ∧
        (is_reg g = false ∧ e = IsADirectoryError new_path ∨
         is_reg g = true ∧ can_unlink g = false ∧
         e = PermissionError new_path) ∧
        log w' = log w ++
                 [{| lvl := Warning;
                     event := lit "File already exists, will overwrite";
                     subject := new_path |}]).
Proof.
  intros new_path Hrun Htrace Hmove. revert Hrun Htrace.
  unfold rename_download. fold new_path. unfold_calls.
  destruct (fs w !! original) as [f|] eqn:Hf.
  2: { rewrite bool_decide_eq_false_2 by (by intros [? ?]). cbn [negb].
       intros [= <- <-] _. split; [done|]. by left. }
  rewrite bool_decide_eq_true_2 by (by eexists). cbn [negb fs now log trace].
  assert (∀ tr, trace w ++ tr ++ [EMove original new_path] = trace w ++ calls →
                False) as Hreached.
  { intros tr Heq. apply app_inv_head in Heq. apply Hmove. rewrite <- Heq.
    apply elem_of_app. right. left. }
  destruct (fs w !! new_path) as [g|] eqn:Hg.
  - rewrite bool_decide_eq_true_2 by (by eexists). cbn [fs now log trace].
    rewrite Hg. destruct (is_reg g) eqn:Hreg.
    2: { intros [= <- <-] _. split; [done|]. right. exists g.
         split; [by eexists|]. split; [done|]. split; [by left|done]. }
    destruct (can_unlink g) eqn:Hdel; cbn [fs now log trace].
    2: { intros [= <- <-] _. split; [done|]. right. exists g.
         split; [by eexists|]. split; [done|]. split; [by right|done]. }
    destruct (delete new_path (fs w) !! original);
      cbn [fs now log trace]; [done|].
    intros [= <- <-]. cbn [trace]. intros Heq. exfalso.
    apply (Hreached [EExists original; EExists new_path; ERemove new_path]).
    rewrite <- Heq. by rewrite <- !(assoc_L (++)).
  - rewrite bool_decide_eq_false_2 by (by intros [? ?]).
    cbn [fs now log trace]. rewrite Hf. cbn [fs now log trace]. done.
Qed.

End Renaming.


Lemma rename_download_onto_itself_witness :
  ∃ w', rename_download Sample.fm (lit "/app/downloads/out.xlsx")
          (lit "out.xlsx") Sample.world1
          = (Raise (FileNotFoundError (lit "/app/downloads/out.xlsx")), w') ∧
        fs w' = delete (lit "/app/downloads/out.xlsx") (fs Sample.world1).
Proof.
  apply (rename_download_onto_itself Sample.fm (lit "out.xlsx") Sample.world1
           (Sample.xlsx_file
              {| worksheets := [Sample.data_sheet; Sample.data_sheet] |} 50)).
  - vm_compute. reflexivity.
  - reflexivity.
Defined.

Lemma rename_download_failure_witness :
  let original := lit "/app/downloads/old.xlsx" in
  let new_path := lit "/app/downloads/ancient.xlsx" in
  let run := rename_download Sample.fm original (lit "ancient.xlsx")
               Sample.cleanup_world in
  fs run.2 = fs Sample.cleanup_world ∧
  (fs Sample.cleanup_world !! original = None ∧
   PermissionError new_path = FileNotFoundError original ∧
   log run.2 = log Sample.cleanup_world ∨
   ∃ g, is_Some (fs Sample.cleanup_world !! original) ∧
        fs Sample.cleanup_world !! new_path = Some g ∧
        (is_reg g = false ∧
         PermissionError new_path = IsADirectoryError new_path ∨
         is_reg g = true ∧ can_unlink g = false ∧
         PermissionError new_path = PermissionError new_path) ∧
        log run.2 = log Sample.cleanup_world ++
                 [{| lvl := Warning;
                     event := lit "File already exists, will overwrite";
                     subject := new_path |}]).
Proof.
  apply (rename_download_failure Sample.fm (lit "/app/downloads/old.xlsx")
           (lit "ancient.xlsx") Sample.cleanup_world _ _
           [EExists (lit "/app/downloads/old.xlsx");
            EExists (lit "/app/downloads/ancient.xlsx");
            ERemove (lit "/app/downloads/ancient.xlsx")]).
  - vm_compute. reflexivity.
  - vm_compute. reflexivity.
  - apply (bool_decide_unpack _). vm_compute. exact I.
Defined.

(** X14: [_make_unique_sheet_name] returns its argument exactly when no
    sheet of the workbook has that name, and what it returns is never the
    name of a sheet of the workbook. *)
Theorem make_unique_unchanged_iff_free (wb : workbook) (name : str) :
  (_make_unique_sheet_name wb name = name ↔ name ∉ sheetnames wb) ∧
  _make_unique_sheet_name wb name ∉ sheetnames wb.
Proof.
  destruct (make_unique_spec wb name)
    as [[Hfree Heq]|(Hin & k & _ & Heq & Hnew & _)]; cbn zeta in *.
  - rewrite Heq. split; [done|done].
  - split; [|done]. split; [|done]. intros Hsame. by rewrite Hsame in Hnew.
Qed.

(** ** Listing the download directory *)

Section Listing.

Variable self : FileManager.








Lemma entry_name_path d path name :
  entry_name d path = Some name → Py.path_join d name = path.
Proof.
  unfold entry_name. case_decide as Hd; [|done]. intros [= <-]. by destruct Hd.
Qed.





End Listing.

(** ** Cleanup *)

Section Cleanup.

Variable self : FileManager.

(** One round of the cleanup loop on the file at [path]: what it returns
    and what it does to the files. *)
Lemma cleanup_loop_spec cutoff filenames : ∀ deleted w r w',
  cleanup_loop self cutoff filenames deleted w = (r, w') →
  (∀ path,
     fs w' !! path = fs w !! path ∨
     fs w' !! path = None ∧
     path ∈ Py.path_join (download_dir self) <$> filenames ∧
     ∃ f, fs w !! path = Some f ∧ is_reg f = true ∧ st_mtime f < cutoff) ∧
  (∀ n, r = Ok n →
     (∀ path f, path ∈ Py.path_join (download_dir self) <$> filenames →
                fs w !! path = Some f → is_reg f = true →
                st_mtime f < cutoff → fs w' !! path = None) ∧
     n = deleted + Z.of_nat (size (fs w)) - Z.of_nat (size (fs w'))).
Proof.
  induction filenames as [|filename filenames IH]; intros deleted w r w' Hrun.
  { cbn in Hrun. injection Hrun as <- <-. split; [by left|].
    intros n [= <-]. split; [|lia]. intros path f Hin. by apply elem_of_nil in Hin. }
  cbn [cleanup_loop] in Hrun.
  set (filepath := Py.path_join (download_dir self) filename) in *.
  revert Hrun. unfold_calls.
  destruct (fs w !! filepath) as [f|] eqn:Hf.
  2: { intros Hrun. apply IH in Hrun as [Hsafe Hok]. cbn [fs] in *. split.
       - intros path. destruct (Hsafe path) as [?|(? & ? & ?)]; [by left|].
         right. split; [done|]. split; [|done]. rewrite fmap_cons. by right.
       - intros n Hn. destruct (Hok n Hn) as [Hall Hcount]. split; [|done].
         intros path g Hin Hg Hreg Hold. rewrite fmap_cons in Hin.
         apply elem_of_cons in Hin as [->|Hin]; [fold filepath in Hg; congruence|].
         by eapply Hall. }
  destruct (is_reg f) eqn:Hreg.
  2: { intros Hrun. apply IH in Hrun as [Hsafe Hok]. cbn [fs] in *. split.
       - intros path. destruct (Hsafe path) as [?|(? & ? & ?)]; [by left|].
         right. split; [done|]. split; [|done]. rewrite fmap_cons. by right.
       - intros n Hn. destruct (Hok n Hn) as [Hall Hcount]. split; [|done].
         intros path g Hin Hg Hreg' Hold. rewrite fmap_cons in Hin.
         apply elem_of_cons in Hin as [->|Hin];
           [fold filepath in Hg; congruence|].
         by eapply Hall. }
  cbn [fs now log trace]. rewrite Hf. cbn [fs now log trace].
  destruct (decide (datetime_min ≤ st_mtime f ≤ datetime_max)) as [Hrange|Hrange].
  2: { rewrite fromtimestamp_refused by done.
       intros [= <- <-]. cbn [fs]. split; [by left|]. done. }
  rewrite fromtimestamp_ok by done. cbn [fs now log trace].
  destruct (decide (st_mtime f < cutoff)) as [Hold|Hnew].
  2: { intros Hrun. apply IH in Hrun as [Hsafe Hok]. cbn [fs] in *. split.
       - intros path. destruct (Hsafe path) as [?|(? & ? & ?)]; [by left|].
         right. split; [done|]. split; [|done]. rewrite fmap_cons. by right.
       - intros n Hn. destruct (Hok n Hn) as [Hall Hcount]. split; [|done].
         intros path g Hin Hg Hreg' Hold. rewrite fmap_cons in Hin.
         apply elem_of_cons in Hin as [->|Hin].
         + fold filepath in Hg. rewrite Hf in Hg. injection Hg as <-. lia.
         + by eapply Hall. }
  cbn [fs now log trace]. rewrite Hf. rewrite Hreg.
  destruct (can_unlink f) eqn:Hdel; cbn [fs now log trace].
  2: { intros [= <- <-]. cbn [fs]. split; [by left|]. done. }
  intros Hrun. apply IH in Hrun as [Hsafe Hok]. cbn [fs] in *. split.
  - intros path. destruct (decide (path = filepath)) as [->|Hne].
    + right. split.
      * destruct (Hsafe filepath) as [->|[? _]]; [|done].
        by rewrite lookup_delete_eq.
      * split; [rewrite fmap_cons; left|]. by exists f.
    + destruct (Hsafe path) as [Heq|(Hnone & Hin & g & Hg & ?)].
      * left. by rewrite Heq, lookup_delete_ne.
      * right. rewrite lookup_delete_ne in Hg by done.
        split; [done|]. split; [rewrite fmap_cons; by right|]. by exists g.
  - intros n Hn. destruct (Hok n Hn) as [Hall Hcount]. split.
    + intros path g Hin Hg Hreg' Hold'.
      destruct (decide (path = filepath)) as [->|Hne].
      * destruct (Hsafe filepath) as [->|[? _]]; [|done].
        by rewrite lookup_delete_eq.
      * rewrite fmap_cons in Hin.
        apply elem_of_cons in Hin as [?|Hin]; [done|].
        eapply Hall; [done| |done..]. by rewrite lookup_delete_ne.
    + rewrite Hcount. rewrite map_size_delete, Hf.
      assert (size (fs w) ≠ 0%nat).
      { intros Hz. apply map_size_empty_inv in Hz. rewrite Hz in Hf.
        by rewrite lookup_empty in Hf. }
      lia.
Qed.

Lemma cleanup_old_files_run max_age_days w :
  cleanup_old_files self max_age_days w =
  if decide (¬ (-999999999 ≤ max_age_days ≤ 999999999)) then
    (Raise (OverflowError (lit "days must have magnitude <= 999999999")), w)
  else if decide (¬ (datetime_first ≤ now w - max_age_days * 86400
                     ≤ datetime_max)) then
    (Raise (OverflowError (lit "date value out of range")), w)
  else
    cleanup_loop self (now w - max_age_days * 86400)
      (omap (λ kv : str * fnode, entry_name (download_dir self) kv.1)
            (map_to_list (fs w))) 0
      {| fs := fs w; now := now w; log := log w;
         trace := trace w ++ [EListdir (download_dir self)] |}.
Proof.
  unfold cleanup_old_files, os_listdir.
  unfold get_now at 1, bind at 1. by repeat case_decide.
Qed.

Lemma listdir_paths (d : str) (files : gmap str fnode) (path : str) :
  path ∈ Py.path_join d
           <$> omap (λ kv : str * fnode, entry_name d kv.1) (map_to_list files) ↔
  ∃ f name, files !! path = Some f ∧ entry_name d path = Some name.
Proof.
  rewrite list_elem_of_fmap. split.
  - intros (name & -> & Hin). apply list_elem_of_omap in Hin
      as ([key f] & Hkey & Hname). cbn in Hname.
    apply elem_of_map_to_list in Hkey.
    rewrite (entry_name_path _ _ _ Hname). by exists f, name.
  - intros (f & name & Hf & Hname). exists name.
    split; [by rewrite (entry_name_path _ _ _ Hname)|].
    apply list_elem_of_omap. exists (path, f).
    split; [by apply elem_of_map_to_list|done].
Qed.

(** X17: whatever the outcome of [cleanup_old_files], it only ever
    deletes: every file that is there afterwards is unchanged, and a file
    that is gone was a regular file directly in the download directory
    whose modification time is before the cutoff. *)
Theorem cleanup_only_deletes_old_downloads (max_age_days : Z) (w w' : world)
    (r : result Z) (path : str) :
  cleanup_old_files self max_age_days w = (r, w') →
  fs w' !! path = fs w !! path ∨
  fs w' !! path = None ∧
  ∃ f name, fs w !! path = Some f ∧
            entry_name (download_dir self) path = Some name ∧
            is_reg f = true ∧
            st_mtime f < now w - max_age_days * 86400.
Proof.
  rewrite cleanup_old_files_run.
  case_decide; [intros [= <- <-]; by left|].
  case_decide; [intros [= <- <-]; by left|]. intros Hrun.
  apply cleanup_loop_spec in Hrun as [Hsafe _]. cbn [fs] in Hsafe.
  destruct (Hsafe path) as [?|(Hnone & Hin & f & Hf & Hreg & Hold)]; [by left|].
  right. split; [done|].
  apply listdir_paths in Hin as (g & name & Hg & Hname).
  by exists f, name.
Qed.

(** X18: when [cleanup_old_files] returns a count, no regular file of the
    download directory with a modification time before the cutoff is
    left, and the count is the number of files that are gone. *)
Theorem cleanup_removes_all_old_downloads (max_age_days : Z) (w w' : world)
    (n : Z) :
  cleanup_old_files self max_age_days w = (Ok n, w') →
  (∀ path f name,
     fs w !! path = Some f →
     entry_name (download_dir self) path = Some name →
     is_reg f = true →
     st_mtime f < now w - max_age_days * 86400 →
     fs w' !! path = None) ∧
  n = Z.of_nat (size (fs w)) - Z.of_nat (size (fs w')).
Proof.
  rewrite cleanup_old_files_run.
  case_decide; [done|]. case_decide; [done|]. intros Hrun.
  apply cleanup_loop_spec in Hrun as [_ Hok]. cbn [fs] in Hok.
  destruct (Hok n eq_refl) as [Hall Hcount]. split; [|lia].
  intros path f name Hf Hname Hreg Hold. eapply Hall; [|done..].
  apply listdir_paths. by exists f, name.
Qed.

(** What a completed run of the loop leaves behind, and a run that finds
    nothing to delete. *)
Lemma cleanup_loop_remaining cutoff filenames : ∀ deleted w n w',
  cleanup_loop self cutoff filenames deleted w = (Ok n, w') →
  now w' = now w ∧
  ∀ path f, path ∈ Py.path_join (download_dir self) <$> filenames →
            fs w' !! path = Some f → is_reg f = true →
            datetime_min ≤ st_mtime f ≤ datetime_max ∧ ¬ st_mtime f < cutoff.
Proof.
  induction filenames as [|filename filenames IH]; intros deleted w n w' Hrun.
  { cbn in Hrun. injection Hrun as <- <-. split; [done|].
    intros path f Hin. by apply elem_of_nil in Hin. }
  cbn [cleanup_loop] in Hrun.
  set (filepath := Py.path_join (download_dir self) filename) in *.
  assert (∀ w1 m,
            cleanup_loop self cutoff filenames m w1 = (Ok n, w') →
            now w1 = now w →
            (∀ f, fs w1 !! filepath = Some f → is_reg f = true →
                  datetime_min ≤ st_mtime f ≤ datetime_max ∧
                  ¬ st_mtime f < cutoff) →
            now w' = now w ∧
            ∀ path f,
              path ∈ Py.path_join (download_dir self) <$> filename :: filenames →
              fs w' !! path = Some f → is_reg f = true →
              datetime_min ≤ st_mtime f ≤ datetime_max ∧ ¬ st_mtime f < cutoff)
    as Hstep.
  { intros w1 m Hrest Hnow Hhead.
    destruct (cleanup_loop_spec _ _ _ _ _ _ Hrest) as [Hsafe _].
    apply IH in Hrest as [Hnow' Hrest]. split; [congruence|].
    intros path f Hin Hf Hreg. rewrite fmap_cons in Hin.
    apply elem_of_cons in Hin as [->|Hin]; [|by eapply Hrest].
    fold filepath in Hf. destruct (Hsafe filepath) as [Heq|[Hnone _]].
    - rewrite Heq in Hf. by apply Hhead.
    - congruence. }
  revert Hrun. unfold_calls.
  destruct (fs w !! filepath) as [f|] eqn:Hf.
  2: { intros Hrun. eapply Hstep; [exact Hrun|done|]. cbn [fs].
       intros g Hg. congruence. }
  destruct (is_reg f) eqn:Hreg.
  2: { intros Hrun. eapply Hstep; [exact Hrun|done|]. cbn [fs].
       intros g Hg. congruence. }
  cbn [fs now log trace]. rewrite Hf. cbn [fs now log trace].
  destruct (decide (datetime_min ≤ st_mtime f ≤ datetime_max)) as [Hrange|Hrange].
  2: { rewrite fromtimestamp_refused by done. intros [=]. }
  rewrite fromtimestamp_ok by done. cbn [fs now log trace].
  destruct (decide (st_mtime f < cutoff)) as [Hold|Hnew].
  2: { intros Hrun. eapply Hstep; [exact Hrun|done|]. cbn [fs].
       intros g Hg _. rewrite Hf in Hg. by injection Hg as <-. }
  cbn [fs now log trace]. rewrite Hf. rewrite Hreg.
  destruct (can_unlink f) eqn:Hdel; cbn [fs now log trace].
  2: { intros [=]. }
  intros Hrun. eapply Hstep; [exact Hrun|done|]. cbn [fs].
  intros g Hg. by rewrite lookup_delete_eq in Hg.
Qed.

Lemma cleanup_loop_nothing_old cutoff filenames : ∀ deleted w,
  (∀ path f, path ∈ Py.path_join (download_dir self) <$> filenames →
             fs w !! path = Some f → is_reg f = true →
             datetime_min ≤ st_mtime f ≤ datetime_max ∧ ¬ st_mtime f < cutoff) →
  ∃ w', cleanup_loop self cutoff filenames deleted w = (Ok deleted, w') ∧
        fs w' = fs w.
Proof.
  induction filenames as [|filename filenames IH]; intros deleted w Hall.
  { by eexists. }
  cbn [cleanup_loop].
  set (filepath := Py.path_join (download_dir self) filename) in *.
  assert (∀ w1, fs w1 = fs w →
            ∃ w', cleanup_loop self cutoff filenames deleted w1
                    = (Ok deleted, w') ∧ fs w' = fs w) as Hrest.
  { intros w1 Hfs. destruct (IH deleted w1) as (w' & Hrun & Hfs').
    - intros path f Hin. rewrite Hfs. apply Hall. rewrite fmap_cons. by right.
    - exists w'. split; [done|congruence]. }
  unfold_calls.
  destruct (fs w !! filepath) as [f|] eqn:Hf; [|by apply Hrest].
  destruct (is_reg f) eqn:Hreg; [|by apply Hrest].
  cbn [fs now log trace]. rewrite Hf. cbn [fs now log trace].
  destruct (Hall filepath f) as [Hrange Hnew]; [rewrite fmap_cons; left|done..|].
  rewrite fromtimestamp_ok by done. cbn [fs now log trace].
  rewrite decide_False by done. by apply Hrest.
Qed.

(** X22: cleaning up is idempotent at a given time: after a run of
    [cleanup_old_files] that returned a count, a second run with the same
    age limit and the same clock returns 0 and deletes nothing. *)
Theorem cleanup_twice_deletes_nothing (max_age_days : Z) (w w' : world)
    (n : Z) :
  cleanup_old_files self max_age_days w = (Ok n, w') →
  ∃ w'', cleanup_old_files self max_age_days w' = (Ok 0, w'') ∧
         fs w'' = fs w'.
Proof.
  rewrite !cleanup_old_files_run.
  case_decide as Hdays; [done|]. case_decide as Hcut; [done|]. intros Hrun.
  destruct (cleanup_loop_spec _ _ _ _ _ _ Hrun) as [Hsafe _].
  apply cleanup_loop_remaining in Hrun as [Hnow Hleft].
  cbn [fs now] in Hsafe, Hnow, Hleft.
  rewrite Hnow. rewrite (decide_False (P := ¬ _)) by tauto.
  match goal with
  | |- ∃ _, cleanup_loop _ ?c ?l ?d ?w1 = _ ∧ _ =>
      destruct (cleanup_loop_nothing_old c l d w1) as (w'' & Hrun2 & Hfs)
  end.
  - cbn [fs]. intros path f Hin Hf Hreg.
    apply listdir_paths in Hin as (g & name & Hg & Hname).
    eapply Hleft; [|done..]. apply listdir_paths.
    destruct (Hsafe path) as [Heq|[? _]]; [|congruence].
    exists g, name. split; [congruence|done].
  - exists w''. by split.
Qed.

End Cleanup.

Lemma cleanup_only_deletes_old_downloads_witness :
  let run := cleanup_old_files Sample.fm 30 Sample.cleanup_world in
  let path := lit "/app/downloads/recent.xlsx" in
  fs run.2 !! path = fs Sample.cleanup_world !! path ∨
  fs run.2 !! path = None ∧
  ∃ f name, fs Sample.cleanup_world !! path = Some f ∧
            entry_name (download_dir Sample.fm) path = Some name ∧
            is_reg f = true ∧
            st_mtime f < now Sample.cleanup_world - 30 * 86400.
Proof.
  apply (cleanup_only_deletes_old_downloads Sample.fm 30 Sample.cleanup_world
           _ (cleanup_old_files Sample.fm 30 Sample.cleanup_world).1).
  vm_compute. reflexivity.
Defined.

Lemma cleanup_twice_deletes_nothing_witness :
  let run := cleanup_old_files Sample.fm 30 Sample.retention_world in
  ∃ w'', cleanup_old_files Sample.fm 30 run.2 = (Ok 0, w'') ∧
         fs w'' = fs run.2.
Proof.
  apply (cleanup_twice_deletes_nothing Sample.fm 30 Sample.retention_world _ 1).
  vm_compute. reflexivity.
Defined.

Lemma cleanup_removes_all_old_downloads_witness :
  let run := cleanup_old_files Sample.fm 30 Sample.retention_world in
  (∀ path f name,
     fs Sample.retention_world !! path = Some f →
     entry_name (download_dir Sample.fm) path = Some name →
     is_reg f = true →
     st_mtime f < now Sample.retention_world - 30 * 86400 →
     fs run.2 !! path = None) ∧
  1 = Z.of_nat (size (fs Sample.retention_world)) - Z.of_nat (size (fs run.2)).
Proof.
  apply (cleanup_removes_all_old_downloads Sample.fm 30 Sample.retention_world).
  vm_compute. reflexivity.
Defined.

(** ** What the validator reports *)

(** X19: [validate_excel_file] never changes a file.  It logs nothing
    when it accepts the file and nothing when the path does not exist;
    every other rejection logs exactly one entry about the path, at
    warning or error level.  The content of the file is only read once
    size and extension have passed, and every system call is on the path
    itself. *)
Theorem validate_excel_file_reporting (filepath : str) (w w' : world)
    (r : result bool) :
  validate_excel_file filepath w = (r, w') →
  fs w' = fs w ∧
  (r = Ok true → log w' = log w) ∧
  (fs w !! filepath = None → r = Ok false ∧ log w' = log w) ∧
  (is_Some (fs w !! filepath) → r ≠ Ok true →
   ∃ l ev, (l = Warning ∨ l = Error) ∧
     log w' = log w ++ [{| lvl := l; event := ev; subject := filepath |}]) ∧
  ∃ calls, trace w' = trace w ++ calls ∧
    (∀ e, e ∈ calls →
       e = EExists filepath ∨ e = EStat filepath ∨ e = ERead filepath) ∧
    (ERead filepath ∈ calls →
     ∃ f, fs w !! filepath = Some f ∧ 1000 ≤ st_size f ∧
          (Py.endswith (Py.lower filepath) (lit ".xlsx") = true ∨
           Py.endswith (Py.lower filepath) (lit ".xls") = true)).
Proof.
  unfold validate_excel_file. unfold_calls.
  destruct (fs w !! filepath) as [f|] eqn:Hf.
  2: { rewrite bool_decide_eq_false_2 by (by intros [? ?]). cbn [negb].
       intros [= <- <-]. cbn [fs now log trace].
       split; [done|]. split; [done|]. split; [done|].
       split; [by intros [? ?]|].
       eexists. split; [reflexivity|]. split.
       - intros e ->%list_elem_of_singleton. by left.
       - by intros [=]%list_elem_of_singleton. }
  rewrite bool_decide_eq_true_2 by (by eexists).
  cbn [negb fs now log trace]. rewrite Hf. cbn [fs now log trace].
  assert (∀ e, e ∈ [EExists filepath; EStat filepath] →
            e = EExists filepath ∨ e = EStat filepath ∨ e = ERead filepath)
    as Hstat.
  { intros e Hin. repeat (apply elem_of_cons in Hin as [->|Hin]; [auto|]).
    by apply elem_of_nil in Hin. }
  assert (ERead filepath ∉ [EExists filepath; EStat filepath]) as Hnoread.
  { intros Hin. repeat (apply elem_of_cons in Hin as [[=]|Hin]).
    by apply elem_of_nil in Hin. }
  destruct (decide (st_size f < 1000)) as [Hsmall|Hsize].
  { intros [= <- <-]. cbn [fs now log trace].
    split; [done|]. split; [done|]. split; [done|].
    split; [intros _ _; eexists _, _; split; [by left|reflexivity]|].
    eexists. split; [by rewrite <- app_assoc|]. split; [exact Hstat|].
    intros Hin. by destruct Hnoread. }
  destruct (Py.endswith (Py.lower filepath) (lit ".xlsx")
            || Py.endswith (Py.lower filepath) (lit ".xls")) eqn:Hext;
    cbn [negb fs now log trace].
  2: { intros [= <- <-]. cbn [fs now log trace].
       split; [done|]. split; [done|]. split; [done|].
       split; [intros _ _; eexists _, _; split; [by left|reflexivity]|].
       eexists. split; [by rewrite <- app_assoc|]. split; [exact Hstat|].
       intros Hin. by destruct Hnoread. }
  rewrite Hf.
  assert (∃ g, Some f = Some g ∧ 1000 ≤ st_size g ∧
            (Py.endswith (Py.lower filepath) (lit ".xlsx") = true ∨
             Py.endswith (Py.lower filepath) (lit ".xls") = true)) as Hpassed.
  { exists f. split; [done|]. split; [lia|]. by apply orb_true_iff. }
  assert (∀ e, e ∈ [EExists filepath; EStat filepath; ERead filepath] →
            e = EExists filepath ∨ e = EStat filepath ∨ e = ERead filepath)
    as Hcalls.
  { intros e Hin. repeat (apply elem_of_cons in Hin as [->|Hin]; [auto|]).
    by apply elem_of_nil in Hin. }
  destruct (readable f && is_reg f) eqn:Hread; cbn [fs now log trace].
  2: { intros [= <- <-]. cbn [fs now log trace].
       split; [done|]. split; [done|]. split; [done|].
       split; [intros _ _; eexists _, _; split; [by right|reflexivity]|].
       eexists. split; [by rewrite <- !app_assoc|]. done. }
  destruct (decide (take 2 (take 4 (content f)) ≠ xlsx_magic)) as [Hbad|Hgood];
    cbn [fs now log trace].
  - intros [= <- <-]. cbn [fs now log trace].
    split; [done|]. split; [done|]. split; [done|].
    split; [intros _ _; eexists _, _; split; [by left|reflexivity]|].
    eexists. split; [by rewrite <- !app_assoc|]. done.
  - intros [= <- <-]. cbn [fs now log trace].
    split; [done|]. split; [done|]. split; [done|].
    split; [by intros _ ?|].
    eexists. split; [by rewrite <- !app_assoc|]. done.
Qed.

Lemma validate_excel_file_reporting_witness :
  let run := validate_excel_file (lit "/app/downloads/program.xlsx")
               Sample.validator_world in
  let filepath := lit "/app/downloads/program.xlsx" in
  fs run.2 = fs Sample.validator_world ∧
  (run.1 = Ok true → log run.2 = log Sample.validator_world) ∧
  (fs Sample.validator_world !! filepath = None →
   run.1 = Ok false ∧ log run.2 = log Sample.validator_world) ∧
  (is_Some (fs Sample.validator_world !! filepath) → run.1 ≠ Ok true →
   ∃ l ev, (l = Warning ∨ l = Error) ∧
     log run.2 = log Sample.validator_world
                   ++ [{| lvl := l; event := ev; subject := filepath |}]) ∧
  ∃ calls, trace run.2 = trace Sample.validator_world ++ calls ∧
    (∀ e, e ∈ calls →
       e = EExists filepath ∨ e = EStat filepath ∨ e = ERead filepath) ∧
    (ERead filepath ∈ calls →
     ∃ f, fs Sample.validator_world !! filepath = Some f ∧ 1000 ≤ st_size f ∧
          (Py.endswith (Py.lower filepath) (lit ".xlsx") = true ∨
           Py.endswith (Py.lower filepath) (lit ".xls") = true)).
Proof.
  apply (validate_excel_file_reporting (lit "/app/downloads/program.xlsx")
           Sample.validator_world).
  vm_compute. reflexivity.
Defined.

(** ** Report file names *)

Lemma upper_char_cases (x : ascii) :
  upper_char x = x ∨ is_upper (upper_char x) = true.
Proof.
  destruct x as [[] [] [] [] [] [] [] []]; vm_compute; auto.
Qed.

Lemma lower_char_cases (x : ascii) :
  Py.lower_char x = x ∨ is_lower (Py.lower_char x) = true.
Proof.
  destruct x as [[] [] [] [] [] [] [] []]; vm_compute; auto.
Qed.

Lemma title_from_keeps_absent (c : ascii) (s : str) : ∀ b,
  is_upper c = false → is_lower c = false →
  c ∉ s → c ∉ title_from b s.
Proof.
  induction s as [|x s IH]; intros b Hu Hl Hs; [done|].
  apply not_elem_of_cons in Hs as [Hne Hs]. cbn [title_from].
  apply not_elem_of_cons. split; [|by apply IH].
  destruct b.
  - destruct (lower_char_cases x) as [->|Hx]; [done|]. congruence.
  - destruct (upper_char_cases x) as [->|Hx]; [done|]. congruence.
Qed.

Lemma filename_chars_not_cased (c : ascii) :
  c ∈ " "%char :: filename_invalid_chars →
  is_upper c = false ∧ is_lower c = false ∧ (c ∉ lit "_") ∧ (c ∉ lit ".").
Proof.
  assert (Forall (λ c, is_upper c = false ∧ is_lower c = false ∧
                       (c ∉ lit "_") ∧ (c ∉ lit "."))
            (" "%char :: filename_invalid_chars)) as Hall.
  { apply (bool_decide_unpack _). vm_compute. exact I. }
  intros Hc. by eapply Forall_forall in Hall.
Qed.

Lemma basename_no_slash (p : str) :
  "/"%char ∉ p → Py.basename p = p.
Proof.
  destruct p as [|c p]; [done|]. intros [Hc Hp]%not_elem_of_cons.
  cbn [Py.basename]. rewrite decide_False by done.
  by rewrite decide_False by done.
Qed.

Lemma basename_app_slash (a b : str) :
  "/"%char ∉ b → Py.basename (a ++ "/"%char :: b) = b.
Proof.
  intros Hb. induction a as [|c a IH]; cbn [app Py.basename].
  - rewrite decide_False by done. by rewrite decide_True by done.
  - rewrite decide_True; [done|]. apply elem_of_app. right. left.
Qed.

Lemma basename_path_join (d name : str) :
  "/"%char ∉ name → Py.basename (Py.path_join d name) = name.
Proof.
  intros Hname.
  assert (Py.path_join d name =
          if decide (d = [] ∨ Py.endswith d (lit "/") = true) then d ++ name
          else d ++ lit "/" ++ name) as ->.
  { unfold Py.path_join. destruct name as [|c name]; [done|].
    apply not_elem_of_cons in Hname as [Hc _].
    destruct c as [[] [] [] [] [] [] [] []]; try done. }
  case_decide as Hd.
  - destruct Hd as [->|Hend]; [by apply basename_no_slash|].
    unfold Py.endswith in Hend. apply bool_decide_eq_true in Hend.
    rewrite <- (take_drop (length d - length (lit "/")) d), Hend.
    rewrite <- app_assoc. by apply basename_app_slash.
  - by apply basename_app_slash.
Qed.

Section GeneratedNames.

Variable strftime : Z → str.

(** The characters of a generated name: a character of
    [filename_invalid_chars] or a space comes from the report type (not
    the space), the period, the timestamp or the extension, never from
    the tenant name. *)
Lemma generate_filename_chars (report_type tenant_name : str)
    (period : option str) (extension : str) (w : world) :
  ∃ name,
    generate_filename strftime report_type tenant_name period extension w
      = (Ok name, w) ∧
    name ≠ [] ∧
    ∀ c, c ∈ " "%char :: filename_invalid_chars →
         c = " "%char ∨ c ∉ report_type →
         c ∉ default [] period →
         c ∉ strftime (now w) →
         c ∉ extension →
         c ∉ name.
Proof.
  unfold generate_filename.
  set (report_name := Py.replace_char " "%char (lit "_")
         (py_title (Py.replace_char "_"%char (lit " ") report_type))).
  assert (∀ c, c ∈ " "%char :: filename_invalid_chars →
               c = " "%char ∨ c ∉ report_type → c ∉ report_name) as Hreport.
  { intros c Hc Hrt. destruct (filename_chars_not_cased c Hc)
      as (Hu & Hl & Hus & _).
    destruct (decide (c = " "%char)) as [->|Hsp].
    { by apply replace_char_removes. }
    destruct Hrt as [?|Hrt]; [done|].
    apply replace_char_keeps_absent; [|done].
    apply title_from_keeps_absent; [done..|].
    apply replace_char_keeps_absent; [done|].
    by intros ->%list_elem_of_singleton. }
  assert (∀ c, c ∈ " "%char :: filename_invalid_chars →
               c ∉ _sanitize_filename tenant_name) as Htenant.
  { intros c Hc. destruct (sanitize_filename_clean tenant_name)
      as (Hinv & Hsp & _).
    apply elem_of_cons in Hc as [->|Hc]; [done|by apply Hinv]. }
  unfold get_now, ret, bind.
  destruct period as [[|p0 period]|]; cbn [default].
  - eexists. split; [reflexivity|]. split; [by destruct report_name|].
    intros c Hc Hrt _ Ht He.
    destruct (filename_chars_not_cased c Hc) as (_ & _ & Hus & Hdot).
    rewrite !not_elem_of_app. split_and!; auto.
  - eexists. split; [reflexivity|]. split; [by destruct report_name|].
    intros c Hc Hrt Hp Ht He.
    destruct (filename_chars_not_cased c Hc) as (_ & _ & Hus & Hdot).
    rewrite !not_elem_of_app. split_and!; auto.
  - eexists. split; [reflexivity|]. split; [by destruct report_name|].
    intros c Hc Hrt _ Ht He.
    destruct (filename_chars_not_cased c Hc) as (_ & _ & Hus & Hdot).
    rewrite !not_elem_of_app. split_and!; auto.
Qed.

(** X20: [generate_filename] returns a name and changes nothing, and the
    tenant name cannot put a character of [invalid_chars] or a space into
    it: such a character is in the name only if it is in the period, the
    timestamp or the extension, or (the space apart) in the report type.
    The report type is taken to be ASCII, where [py_title] is
    [str.title]. *)
Theorem generate_filename_safe (report_type tenant_name : str)
    (period : option str) (extension : str) (w w' : world) (r : result str) :
  Forall (λ c, nat_of_ascii c < 128)%nat report_type →
  generate_filename strftime report_type tenant_name period extension w
    = (r, w') →
  w' = w ∧
  ∃ name, r = Ok name ∧
    ∀ c, c ∈ " "%char :: filename_invalid_chars →
         c ∈ name →
         c ∈ default [] period ∨ c ∈ strftime (now w) ∨ c ∈ extension ∨
         c ≠ " "%char ∧ c ∈ report_type.
Proof.
  intros _ Hrun.
  destruct (generate_filename_chars report_type tenant_name period extension w)
    as (name & Hname & _ & Hchars).
  rewrite Hname in Hrun. injection Hrun as <- <-. split; [done|].
  exists name. split; [done|]. intros c Hc Hin.
  destruct (decide (c ∈ default [] period)) as [|Hp]; [auto|].
  destruct (decide (c ∈ strftime (now w))) as [|Ht]; [auto|].
  destruct (decide (c ∈ extension)) as [|He]; [auto|].
  do 3 right.
  destruct (decide (c = " "%char)) as [Hsp|Hsp].
  { destruct (Hchars c Hc); auto. }
  split; [done|]. destruct (decide (c ∈ report_type)) as [|Hrt]; [done|].
  destruct (Hchars c Hc); auto.
Qed.

(** X21: a generated name is one path component of the download
    directory whatever the tenant name is: when report type, period,
    timestamp and extension hold no slash, joining the name to
    [download_dir] gives a direct entry of the directory, the one that
    [os.listdir] shows under this name. *)
Theorem generated_name_is_download_entry (self : FileManager)
    (report_type tenant_name : str) (period : option str) (extension : str)
    (w w' : world) (name : str) :
  Forall (λ c, nat_of_ascii c < 128)%nat report_type →
  "/"%char ∉ report_type →
  "/"%char ∉ default [] period →
  "/"%char ∉ strftime (now w) →
  "/"%char ∉ extension →
  generate_filename strftime report_type tenant_name period extension w
    = (Ok name, w') →
  Py.basename (Py.path_join (download_dir self) name) = name ∧
  entry_name (download_dir self) (Py.path_join (download_dir self) name)
    = Some name.
Proof.
  intros _ Hrt Hp Ht He Hrun.
  destruct (generate_filename_chars report_type tenant_name period extension w)
    as (name' & Hname & Hne & Hchars).
  rewrite Hname in Hrun. injection Hrun as <- <-.
  assert ("/"%char ∉ name') as Hslash.
  { apply Hchars; auto. apply (bool_decide_unpack _). vm_compute. exact I. }
  pose proof (basename_path_join (download_dir self) name' Hslash) as Hbase.
  split; [done|]. unfold entry_name. cbn zeta. rewrite Hbase.
  by rewrite decide_True by done.
Qed.

End GeneratedNames.

Lemma generate_filename_safe_witness :
  let strftime := λ _ : Z, lit "20260131_120000" in
  let run := generate_filename strftime (lit "activity_statement")
               (lit "Marsill / Pty: Ltd") (Some (lit "2026-01")) (lit "xlsx")
               Sample.world0 in
  run.2 = Sample.world0 ∧
  ∃ name, run.1 = Ok name ∧
    ∀ c, c ∈ " "%char :: filename_invalid_chars →
         c ∈ name →
         c ∈ default [] (Some (lit "2026-01")) ∨
         c ∈ strftime (now Sample.world0) ∨ c ∈ lit "xlsx" ∨
         c ≠ " "%char ∧ c ∈ lit "activity_statement".
Proof.
  apply (generate_filename_safe (λ _ : Z, lit "20260131_120000")
           (lit "activity_statement") (lit "Marsill / Pty: Ltd")
           (Some (lit "2026-01")) (lit "xlsx") Sample.world0).
  - apply (bool_decide_unpack _). vm_compute. exact I.
  - vm_compute. reflexivity.
Defined.

Lemma generated_name_is_download_entry_witness :
  let name := lit "Activity_Statement_Marsill_Pty_Ltd_2026-01_20260131_120000.xlsx" in
  Py.basename (Py.path_join (download_dir Sample.fm) name) = name ∧
  entry_name (download_dir Sample.fm) (Py.path_join (download_dir Sample.fm) name)
    = Some name.
Proof.
  apply (generated_name_is_download_entry (λ _ : Z, lit "20260131_120000")
           Sample.fm (lit "activity_statement") (lit "Marsill / Pty: Ltd")
           (Some (lit "2026-01")) (lit "xlsx") Sample.world0 Sample.world0).
  - apply (bool_decide_unpack _). vm_compute. exact I.
  - apply (bool_decide_unpack _). vm_compute. exact I.
  - apply (bool_decide_unpack _). vm_compute. exact I.
  - apply (bool_decide_unpack _). vm_compute. exact I.
  - apply (bool_decide_unpack _). vm_compute. exact I.
  - vm_compute. reflexivity.
Defined.

(** ** The naming rule, when no two names differ only in their case *)

Section NamingRule.

Variable self : FileManager.
Variable serialize : workbook → list Byte.byte.

Lemma candidate_name_spec names idx path swb src :
  candidate_name names idx path swb src =
  spec_candidate (names ≫= (λ l, l !! idx)) (length (worksheets swb))
    (Py.splitext_root (Py.basename path)) (title src).
Proof.
  unfold candidate_name, spec_candidate.
  destruct (names ≫= _); [done|]. cbn zeta.
  case_decide as Hlen; [by rewrite slice_to_nonneg by lia|].
  rewrite take_ge; [done|]. unfold Py.len in Hlen. lia.
Qed.

Lemma sanitize_sheet_name_spec name :
  _sanitize_sheet_name name = spec_sheet_name name.
Proof.
  unfold _sanitize_sheet_name, spec_sheet_name. cbn zeta.
  rewrite slice_to_nonneg by lia.
  change (lit "_") with ["_"%char]. rewrite replace_each_map; [done|].
  apply (bool_decide_unpack _). vm_compute. exact I.
Qed.

Lemma suffixed_name_spec base k :
  0 ≤ k < 10 ^ 30 → suffixed_name base k = spec_suffixed base k.
Proof.
  intros Hk. unfold suffixed_name, spec_suffixed. cbn zeta.
  pose proof (str_of_int_length k 30 Hk ltac:(lia)) as Hd.
  set (suffix := lit "_" ++ Py.str_of_int k).
  assert (Py.len suffix ≤ 31) as Hs.
  { unfold suffix, Py.len in *.
    rewrite length_app. cbn [length lit list_ascii_of_string]. lia. }
  rewrite slice_to_nonneg by lia. do 2 f_equal. unfold Py.len in *. lia.
Qed.

Lemma make_unique_resolved wb name :
  Py.len (worksheets wb) ≤ Py.sys_maxsize →
  spec_resolved (sheetnames wb) name (_make_unique_sheet_name wb name).
Proof.
  intros Hsize. unfold Py.len, Py.sys_maxsize in Hsize.
  destruct (make_unique_spec wb name)
    as [[? ->]|(Hin & k & Hk & Heq & Hfree & Hbelow)]; [by left|].
  unfold sheetnames in Hk. rewrite length_fmap in Hk.
  right. split; [done|]. exists k. split; [lia|].
  rewrite Heq in *. rewrite suffixed_name_spec by lia.
  rewrite suffixed_name_spec in Hfree by lia.
  split; [done|]. split; [done|].
  intros j Hj. rewrite <- suffixed_name_spec by lia. by apply Hbelow.
Qed.

(** The rule names one result. *)
Lemma spec_resolved_functional existing candidate name1 name2 :
  spec_resolved existing candidate name1 →
  spec_resolved existing candidate name2 →
  name1 = name2.
Proof.
  intros [[Hf1 ->]|(Hin1 & k1 & Hk1 & -> & Hfree1 & Hbelow1)]
         [[Hf2 ->]|(Hin2 & k2 & Hk2 & -> & Hfree2 & Hbelow2)]; try done.
  destruct (Z.lt_trichotomy k1 k2) as [Hlt|[->|Hlt]]; [|done|].
  - destruct Hfree1. apply Hbelow2. lia.
  - destruct Hfree2. apply Hbelow1. lia.
Qed.

Lemma spec_names_app_inv existing c1 c2 : ∀ created,
  spec_names existing (c1 ++ c2) created →
  ∃ r1 r2, created = r1 ++ r2 ∧ spec_names existing c1 r1 ∧
           spec_names (existing ++ r1) c2 r2.
Proof.
  revert existing. induction c1 as [|c c1 IH]; intros existing created Hs.
  { exists [], created. by rewrite app_nil_r. }
  destruct created as [|r created]; [done|]. destruct Hs as [Hr Hs].
  destruct (IH _ _ Hs) as (r1 & r2 & -> & H1 & H2).
  exists (r :: r1), r2. split; [done|]. split; [done|].
  by rewrite <- (assoc_L (++)) in H2.
Qed.

Lemma spec_names_length existing candidates : ∀ created,
  spec_names existing candidates created →
  length created = length candidates.
Proof.
  revert existing.
  induction candidates as [|c candidates IH]; intros existing [|r created] Hs;
    try done.
  destruct Hs as [_ Hs]. cbn. f_equal. by eapply IH.
Qed.

(** The sheet loop creates the names of the rule when these are not empty
    and differ from the names present and from each other also in their
    case. *)
Lemma sheets_fold_rule names idx path swb0 sheets : ∀ acc rule_names,
  let acc' := foldl (sheet_step names idx path swb0) acc sheets in
  spec_names (sheetnames acc.1)
    (spec_sheet_name <$>
       ((λ src, spec_candidate (names ≫= (λ l, l !! idx))
                  (length (worksheets swb0))
                  (Py.splitext_root (Py.basename path)) (title src))
          <$> sheets))
    rule_names →
  Forall (λ t, t ≠ []) rule_names →
  NoDup (Py.lower <$> (sheetnames acc.1 ++ rule_names)) →
  Py.len (sheetnames acc.1 ++ rule_names) ≤ Py.sys_maxsize + 1 →
  sheetnames acc'.1 = sheetnames acc.1 ++ rule_names ∧
  Forall (λ t, Py.len t ≤ 31) rule_names.
Proof.
  induction sheets as [|src sheets IH]; intros acc rule_names; cbn zeta.
  { destruct rule_names; [|done]. intros _ _ _ _. by rewrite app_nil_r. }
  destruct rule_names as [|r rule_names]; [done|].
  rewrite !fmap_cons. intros [Hr Hrule] [Hne Hnes]%Forall_cons Hnd Hsize.
  cbn [foldl].
  destruct (sheet_step_sheets names idx path swb0 acc src)
    as (copied & Hws & _ & Ht & _).
  set (acc1 := sheet_step names idx path swb0 acc src) in *.
  assert (Py.len (worksheets acc.1) ≤ Py.sys_maxsize) as Hsize0.
  { unfold Py.len, sheetnames in *.
    rewrite length_app, length_fmap in Hsize. cbn [length] in Hsize. lia. }
  assert (requested_name names idx path swb0 acc.1 src = r) as Hreq.
  { eapply spec_resolved_functional; [|exact Hr].
    unfold requested_name.
    rewrite candidate_name_spec, sanitize_sheet_name_spec.
    by apply make_unique_resolved. }
  assert (title copied = r) as Htitle.
  { rewrite Ht, Hreq. unfold created_title. rewrite decide_False by done.
    apply avoid_duplicate_name_free.
    rewrite fmap_app, fmap_cons in Hnd.
    apply NoDup_app in Hnd as (_ & Hnd & _).
    intros Hin. apply (Hnd _ Hin). left. }
  assert (sheetnames acc1.1 = sheetnames acc.1 ++ [r]) as Hnames.
  { unfold sheetnames. by rewrite Hws, fmap_app, <- Htitle. }
  destruct (IH acc1 rule_names) as [Hall Hlen].
  - by rewrite Hnames.
  - done.
  - by rewrite Hnames, <- (assoc_L (++)).
  - by rewrite Hnames, <- (assoc_L (++)).
  - split.
    + by rewrite Hall, Hnames, <- (assoc_L (++)).
    + apply Forall_cons. split; [|done]. rewrite <- Hreq.
      apply make_unique_length; [|done].
      apply sanitize_sheet_name_clean.
Qed.

Lemma files_pure_rule names files todo : ∀ acc r tr rule_names,
  files_pure names files todo acc = (Ok r, tr) →
  spec_names (sheetnames acc.1)
    (spec_sheet_name <$> job_candidates names files todo) rule_names →
  Forall (λ t, t ≠ []) rule_names →
  NoDup (Py.lower <$> (sheetnames acc.1 ++ rule_names)) →
  Py.len (sheetnames acc.1 ++ rule_names) ≤ Py.sys_maxsize + 1 →
  sheetnames r.1 = sheetnames acc.1 ++ rule_names ∧
  Forall (λ t, Py.len t ≤ 31) rule_names.
Proof.
  induction todo as [|[idx path] todo IH];
    intros acc r tr rule_names Hrun Hrule Hne Hnd Hsize.
  { cbn in Hrun. injection Hrun as <- <-. destruct rule_names; [|done].
    by rewrite app_nil_r. }
  cbn [files_pure] in Hrun. unfold job_candidates in Hrule.
  rewrite bind_cons in Hrule. fold (job_candidates names files todo) in Hrule.
  destruct (files !! path) as [f|]; [|done]. cbn [mbind option_bind] in Hrule.
  destruct (book f) as [swb|]; [|done].
  rewrite fmap_app in Hrule.
  apply spec_names_app_inv in Hrule as (r1 & r2 & -> & Hrule1 & Hrule2).
  apply Forall_app in Hne as [Hne1 Hne2].
  destruct (sheets_fold_rule names idx path swb (worksheets swb) acc r1)
    as [Hnames1 Hlen1]; [done|done| | |].
  { rewrite (assoc_L (++)), fmap_app in Hnd. by apply NoDup_app in Hnd as [? _]. }
  { unfold Py.len in *. rewrite !length_app in Hsize. rewrite length_app. lia. }
  set (acc1 := foldl _ acc _) in *.
  destruct (files_pure names files todo acc1) as [r' tr2] eqn:Hrest.
  injection Hrun as -> <-.
  destruct (IH acc1 r tr2 r2 Hrest) as [Hnames2 Hlen2].
  - by rewrite Hnames1.
  - done.
  - by rewrite Hnames1, <- (assoc_L (++)).
  - by rewrite Hnames1, <- (assoc_L (++)).
  - split.
    + by rewrite Hnames2, Hnames1, <- (assoc_L (++)).
    + by apply Forall_app.
Qed.

(** X23: the naming rule holds for the jobs whose names do not collide in
    case.  When the names that the rule gives (candidate from prefix or
    base file name, sanitized, resolved by the first free suffix) are not
    empty and differ from each other and from the placeholder [Sheet]
    also when case is ignored, the sheets of the output carry exactly
    these names, which are pairwise different and at most 31 characters
    long.  The names are taken to be ASCII, where [Py.lower] is
    [str.lower] and the comparison of the workbook; the length of a
    Python list is at most [sys.maxsize]. *)
Theorem sheet_names_rule_without_case_collisions (paths : list str)
    (out : str) (names : option (list str)) (w w' : world) (p : str)
    (rule_names : list str) :
  consolidate_excel_files self serialize paths out names w = (Ok p, w') →
  spec_names [lit "Sheet"]
    (spec_sheet_name <$> job_candidates names (fs w) (enumerate 0 paths))
    rule_names →
  Forall (λ t, t ≠ []) rule_names →
  Forall (Forall (λ c, nat_of_ascii c < 128)%nat) rule_names →
  NoDup (Py.lower <$> lit "Sheet" :: rule_names) →
  Py.len rule_names ≤ Py.sys_maxsize →
  ∃ wb,
    (fs w' !! p) ≫= book = Some wb ∧
    sheetnames wb =
      (if decide (rule_names = []) then [lit "Sheet"] else rule_names) ∧
    NoDup (sheetnames wb) ∧
    Forall (λ t, Py.len t ≤ 31) (sheetnames wb).
Proof.
  intros Hrun Hrule Hne _ Hnd Hsize.
  destruct (consolidate_ok_inv self serialize _ _ _ _ _ _ Hrun)
    as (wb & n & tr1 & tr2 & lg & _ & -> & _ & Hpure & Hfs & _).
  destruct (files_pure_names _ _ _ _ _ _ Hpure)
    as (created & Hws & Hn & _). cbn [fst snd] in Hws, Hn. cbn in Hn. subst n.
  change (worksheets Workbook ++ created)
    with (new_worksheet (lit "Sheet") :: created) in Hws.
  destruct (files_pure_rule _ _ _ _ _ _ rule_names Hpure) as [Hnames Hlen];
    [done|done|done| |].
  { change (sheetnames (Workbook, 0%nat).1 ++ rule_names)
      with (lit "Sheet" :: rule_names).
    unfold Py.len in *. cbn [length]. lia. }
  cbn [fst] in Hnames. unfold sheetnames in Hnames. rewrite Hws in Hnames.
  cbn in Hnames. injection Hnames as Hnames.
  pose proof (remove_placeholder_spec wb created Hws) as Hfinal.
  exists (remove_placeholder wb 0 (length created)).
  assert (sheetnames (remove_placeholder wb 0 (length created)) =
          if decide (rule_names = []) then [lit "Sheet"] else rule_names)
    as Hout.
  { unfold sheetnames. rewrite Hfinal, <- Hnames.
    destruct created; [done|]. by rewrite !decide_False by done. }
  split; [by rewrite Hfs, lookup_insert_eq|]. split; [done|].
  rewrite Hout. split.
  - case_decide; [apply NoDup_singleton|].
    apply NoDup_fmap_1 in Hnd. by apply NoDup_cons in Hnd as [_ ?].
  - case_decide; [|done]. apply Forall_singleton. vm_compute. done.
Qed.

End NamingRule.

Lemma sheet_names_rule_without_case_collisions_witness :
  let run := consolidate_excel_files Sample.fm Sample.serialize
               [Sample.report_a; Sample.report_b] (lit "out.xlsx")
               (Some [lit "Data"; lit "Data"]) Sample.world0 in
  ∃ wb,
    (fs run.2 !! lit "/app/downloads/out.xlsx") ≫= book = Some wb ∧
    sheetnames wb =
      (if decide ([lit "Data"; lit "Data_1"] = [])
       then [lit "Sheet"] else [lit "Data"; lit "Data_1"]) ∧
    NoDup (sheetnames wb) ∧
    Forall (λ t, Py.len t ≤ 31) (sheetnames wb).
Proof.
  apply (sheet_names_rule_without_case_collisions Sample.fm Sample.serialize
           [Sample.report_a; Sample.report_b] (lit "out.xlsx")
           (Some [lit "Data"; lit "Data"]) Sample.world0).
  - vm_compute. reflexivity.
  - match goal with
    | |- spec_names _ ?c _ =>
        let c' := eval vm_compute in c in change c with c'
    end.
    cbn [spec_names]. split; [|split; [|exact I]].
    + left. split; [|reflexivity].
      apply (bool_decide_unpack _). vm_compute. exact I.
    + right. split; [apply (bool_decide_unpack _); vm_compute; exact I|].
      exists 1. split; [lia|]. split; [vm_compute; reflexivity|].
      split; [apply (bool_decide_unpack _); vm_compute; exact I|].
      intros j Hj. lia.
  - apply (bool_decide_unpack _). vm_compute. exact I.
  - apply (bool_decide_unpack _). vm_compute. exact I.
  - apply (bool_decide_unpack _). vm_compute. exact I.
  - vm_compute. discriminate.
Defined.
